(** * checkbook: the ledger and the interactive session of [checkbook.py]

    A shallow embedding of [src/checkbook.py] and the properties its
    specification states about it.

    Modelling conventions.
    - A transaction is a Python [dict]; the account's stored list and the
      ledger's visible list hold _references_ to the same dict objects, so
      the dicts live in an object store and both lists hold references.
    - A [Decimal] is a sign, a coefficient and an exponent, or an infinity
      or a NaN; its arithmetic is that of Python's default context, which
      rounds every result to 28 significant digits and raises
      [InvalidOperation] and [Overflow].
    - An amount is kept as the text the dict holds; [Decimal(str(x))] is the
      library's conversion, a partial function that raises
      [InvalidOperation] on text that is no number.
    - Python integers are [Z]; list indexing accepts negative indices. *)

From Stdlib Require Import ZArith String Ascii Lia.
From stdpp Require Import base tactics option functions list_numbers
  sorting gmap strings numbers list.

Local Open Scope string_scope.
Local Open Scope Z_scope.

(** ** Python built-ins used by the program *)

Module Py.

(** Exceptions the modelled code can raise.  [IndexError] records the index
    that was out of range; [InvalidOperation] and [Overflow] are those of
    the [decimal] module; [EOFError] stands for a prompt with no answer
    left in the scripted input. *)
Inductive exn : Type :=
| IndexError (i : Z)
| InvalidOperation
| Overflow
| EOFError.

Inductive result (A : Type) : Type :=
| Ok (a : A)
| Raise (e : exn).
Global Arguments Ok {A} a.
Global Arguments Raise {A} e.

Global Instance result_ret : MRet result := λ A a, Ok a.
Global Instance result_bind : MBind result := λ A B f m,
  match m with Ok a => f a | Raise e => Raise e end.
Global Instance result_fmap : FMap result := λ A B f m,
  match m with Ok a => Ok (f a) | Raise e => Raise e end.

Global Instance Ok_inj {A} : Inj (=) (=) (@Ok A).
Proof. by intros a b [= ->]. Qed.

(** [len(l)] *)
Definition len {A} (l : list A) : Z := Z.of_nat (length l).

(** The position a subscript [i] denotes in a list of length [n]:
    a negative subscript counts from the end. *)
Definition position (n i : Z) : Z := if bool_decide (i < 0) then i + n else i.

(** [l[i]] *)
Definition index {A} (l : list A) (i : Z) : result A :=
  let k := position (len l) i in
  if bool_decide (0 ≤ k) then
    match l !! Z.to_nat k with Some x => Ok x | None => Raise (IndexError i) end
  else Raise (IndexError i).

(** [l.pop(i)]: the removed element and the list left. *)
Definition pop {A} (l : list A) (i : Z) : result (A * list A) :=
  x ← index l i; Ok (x, delete (Z.to_nat (position (len l) i)) l).

(** [range(a, b)] and [range(a, b, -1)] *)
Definition range (a b : Z) : list Z := seqZ a (b - a).
Definition range_down (a b : Z) : list Z := reverse (seqZ (b + 1) (a - b)).

(** [str.isspace] on the characters below code point 256. *)
Definition isspace (c : ascii) : bool :=
  let n := N_of_ascii c in
  ((9 <=? n) && (n <=? 13) || (28 <=? n) && (n <=? 32)
   || (n =? 133) || (n =? 160))%N.

Fixpoint lstrip (s : string) : string :=
  match s with
  | String c s' => if isspace c then lstrip s' else s
  | EmptyString => EmptyString
  end.

(** [s.strip()] *)
Definition strip (s : string) : string :=
  String.rev (lstrip (String.rev (lstrip s))).

(** Truth value of a string: the empty string is false. *)
Definition truthy (s : string) : bool :=
  match s with EmptyString => false | String _ _ => true end.

(** [x or d] for an optional string [x] ([None] and [""] are false). *)
Definition or_else (x : option string) (d : string) : string :=
  match x with
  | Some s => if truthy s then s else d
  | None => d
  end.

(** [x or None] *)
Definition or_None (s : string) : option string :=
  if truthy s then Some s else None.

(** [a < b] on [str]: lexicographic on code points. *)
Definition str_lt (a b : string) : bool := String.ltb a b.

(** [c.lower()] and [s.lower()] on the characters below code point 256:
    the capital letters are A-Z and the Latin-1 capitals. *)
Definition lower_char (c : ascii) : ascii :=
  let n := N_of_ascii c in
  if ((65 <=? n) && (n <=? 90)
      || (192 <=? n) && (n <=? 222) && negb (n =? 215))%N
  then ascii_of_N (n + 32) else c.
Fixpoint lower (s : string) : string :=
  match s with
  | String c s' => String (lower_char c) (lower s')
  | EmptyString => EmptyString
  end.

(** [sub in s] *)
Fixpoint contains (sub s : string) : bool :=
  String.prefix sub s ||
  match s with
  | String _ s' => contains sub s'
  | EmptyString => false
  end.

(** [s.startswith(p)] *)
Definition startswith (s p : string) : bool := String.prefix p s.

(** [s[:n]] on a string. *)
Definition str_take (n : nat) (s : string) : string := String.substring 0 n s.

(** [sorted(l, key=key)] with keys that are strings.  Python's sort is
    stable, and the stable sorted arrangement of a list is unique; it is
    computed here by insertion from the right, an element going before the
    first one whose key is not smaller. *)
Fixpoint insort {A} (key : A → string) (x : A) (l : list A) : list A :=
  match l with
  | [] => [x]
  | y :: l' => if str_lt (key y) (key x) then y :: insort key x l' else x :: l
  end.
Definition sorted {A} (key : A → string) (l : list A) : list A :=
  foldr (insort key) [] l.

End Py.
Import Py.

(** ** Python's [decimal] module

    A [Decimal] is a sign, a coefficient and an exponent, or one of the
    special values.  The arithmetic is that of the default context:
    precision 28, rounding half to even, exponents from -999999 to 999999,
    with the traps [InvalidOperation] and [Overflow] raising.  The
    constructor [Decimal(...)] keeps every digit it is given; each addition,
    subtraction and unary minus gives the exact result rounded to the
    context ([Decimal._fix]). *)

Inductive Decimal : Type :=
| Finite (neg : bool) (coeff : N) (exp : Z)
| Infinity (neg : bool)
| NaN (neg : bool) (signaling : bool) (payload : N).

Global Instance Decimal_eq_dec : EqDecision Decimal.
Proof. solve_decision. Defined.

Definition prec : Z := 28.
Definition Emax : Z := 999999.
Definition Emin : Z := -999999.
Definition Etiny : Z := Emin - prec + 1.
Definition Etop : Z := Emax - prec + 1.

(** The number of decimal digits of a positive integer. *)
Fixpoint digits_upto (fuel : nat) (c : Z) : Z :=
  match fuel with
  | O => 0
  | S fuel' =>
      if bool_decide (c ≤ 0) then 0 else 1 + digits_upto fuel' (c `div` 10)
  end.
Definition ndigits (c : Z) : Z := digits_upto (S (Z.to_nat (Z.log2 c))) c.

(** [c / m] rounded to an integer, a tie going to the even one. *)
Definition round_half_even (c m : Z) : Z :=
  let q := c `div` m in
  let r := c `mod` m in
  if bool_decide (2 * r < m) then q
  else if bool_decide (m < 2 * r) then q + 1
  else if Z.even q then q else q + 1.

(** [Decimal._fix]: the value brought into the context. *)
Definition Decimal_fix (d : Decimal) : result Decimal :=
  match d with
  | NaN neg signaling payload =>
      Ok (NaN neg signaling (payload `mod` 10 ^ 28)%N)
  | Infinity _ => Ok d
  | Finite neg coeff e =>
      let c := Z.of_N coeff in
      if bool_decide (c = 0)
      then Ok (Finite neg 0 (Z.min (Z.max e Etiny) Emax))
      else
        let exp_min := ndigits c + e - prec in
        if bool_decide (Etop < exp_min) then Raise Overflow
        else
          let exp_min := Z.max exp_min Etiny in
          if bool_decide (e < exp_min) then
            let c' := round_half_even c (10 ^ (exp_min - e)) in
            if bool_decide (prec < ndigits c') then
              if bool_decide (Etop < exp_min + 1) then Raise Overflow
              else Ok (Finite neg (Z.to_N (c' `div` 10)) (exp_min + 1))
            else Ok (Finite neg (Z.to_N c') exp_min)
          else Ok d
  end.

(** [Decimal._check_nans]: a signaling NaN raises, a quiet one is the
    result; [None] when neither operand is a NaN. *)
Definition check_nans (a b : Decimal) : option (result Decimal) :=
  match a, b with
  | NaN _ true _, _ => Some (Raise InvalidOperation)
  | _, NaN _ true _ => Some (Raise InvalidOperation)
  | NaN _ false _, _ => Some (Decimal_fix a)
  | _, NaN _ false _ => Some (Decimal_fix b)
  | _, _ => None
  end.

Definition signed (neg : bool) (c : N) : Z :=
  if neg then - Z.of_N c else Z.of_N c.

(** [a + b] *)
Definition Decimal_add (a b : Decimal) : result Decimal :=
  match check_nans a b with
  | Some r => r
  | None =>
      match a, b with
      | Finite s1 c1 e1, Finite s2 c2 e2 =>
          let e := e1 `min` e2 in
          let n := signed s1 c1 * 10 ^ (e1 - e)
                   + signed s2 c2 * 10 ^ (e2 - e) in
          let neg :=
            if bool_decide (n = 0)
            then bool_decide (c1 = 0%N) && bool_decide (c2 = 0%N) && s1 && s2
            else bool_decide (n < 0) in
          Decimal_fix (Finite neg (Z.to_N (Z.abs n)) e)
      | Infinity s1, Infinity s2 =>
          if bool_decide (s1 = s2) then Ok a else Raise InvalidOperation
      | Infinity _, _ => Ok a
      | _, _ => Ok b
      end
  end.

(** [- a] *)
Definition Decimal_neg (a : Decimal) : result Decimal :=
  match a with
  | NaN _ true _ => Raise InvalidOperation
  | NaN _ false _ => Decimal_fix a
  | Infinity s => Ok (Infinity (negb s))
  | Finite s c e =>
      Decimal_fix (Finite (if bool_decide (c = 0%N) then false else negb s) c e)
  end.

(** [Decimal.copy_negate] *)
Definition copy_negate (a : Decimal) : Decimal :=
  match a with
  | Finite s c e => Finite (negb s) c e
  | Infinity s => Infinity (negb s)
  | NaN s g p => NaN (negb s) g p
  end.

(** [a - b] *)
Definition Decimal_sub (a b : Decimal) : result Decimal :=
  match check_nans a b with
  | Some r => r
  | None => Decimal_add a (copy_negate b)
  end.

(** [a < 0] and [a > 0]: a comparison with a NaN raises. *)
Definition Decimal_lt_0 (a : Decimal) : result bool :=
  match a with
  | Finite s c _ => Ok (s && negb (bool_decide (c = 0%N)))
  | Infinity s => Ok s
  | NaN _ _ _ => Raise InvalidOperation
  end.
Definition Decimal_gt_0 (a : Decimal) : result bool :=
  match a with
  | Finite s c _ => Ok (negb s && negb (bool_decide (c = 0%N)))
  | Infinity s => Ok (negb s)
  | NaN _ _ _ => Raise InvalidOperation
  end.

(** The integer [0], as an operand of decimal arithmetic, and the literal
    [Decimal("0.00")]. *)
Definition Decimal_0 : Decimal := Finite false 0 0.
Definition Decimal_0_00 : Decimal := Finite false 0 (-2).

(** *** Exact results

    [units k d] is the value of a finite [d] in units of [10^-k]; it is an
    integer when [d] has at most [k] decimal places ([finite_at k d]). *)
Definition finite_at (k : Z) (d : Decimal) : Prop :=
  match d with Finite _ _ e => - k ≤ e | _ => False end.
Definition units (k : Z) (d : Decimal) : Z :=
  match d with Finite s c e => signed s c * 10 ^ (e + k) | _ => 0 end.
Definition exponent (d : Decimal) : Z :=
  match d with Finite _ _ e => e | _ => 0 end.
(** Not a negative zero. *)
Definition proper (d : Decimal) : Prop :=
  match d with Finite s c _ => c = 0%N → s = false | _ => True end.

(** The range of [k] in which no exponent underflows. *)
Definition places (k : Z) : Prop := 0 ≤ k ≤ - Etiny.

(** What decimal arithmetic raises. *)
Definition arithmetic (e : exn) : Prop := e = InvalidOperation ∨ e = Overflow.

Definition raises_only {A} (P : exn → Prop) (r : result A) : Prop :=
  match r with Ok _ => True | Raise e => P e end.

(** ** A reading of decimal numerals

    [plain_decimal] reads a numeral in the plain notation
    [[+-]digits[.digits]], the form in which the program itself writes
    amounts, the way [Decimal(...)] reads it: every digit is kept, and the
    exponent is minus the number of digits after the point.  It
    instantiates the library conversion in the examples below, which use
    no other texts: on the other texts [Decimal] accepts (an exponent
    part, [NaN], [Infinity], white space around the numeral, underscores)
    it gives no value. *)

Fixpoint read_digits (s : string) (acc : Z) (n : nat) : Z * nat * string :=
  match s with
  | String c s' =>
      match Ascii.is_nat c with
      | Some d => read_digits s' (10 * acc + Z.of_nat d) (S n)
      | None => (acc, n, s)
      end
  | EmptyString => (acc, n, s)
  end.

Definition plain_unsigned (neg : bool) (s : string) : option Decimal :=
  let '(ip, ni, rest) := read_digits s 0 0 in
  match rest with
  | EmptyString =>
      if (0 <? ni)%nat then Some (Finite neg (Z.to_N ip) 0) else None
  | String "." rest' =>
      let '(fp, nf, rest'') := read_digits rest' 0 0 in
      match rest'' with
      | EmptyString =>
          if (0 <? ni + nf)%nat
          then Some (Finite neg (Z.to_N (ip * 10 ^ Z.of_nat nf + fp))
                            (- Z.of_nat nf))
          else None
      | String _ _ => None
      end
  | String _ _ => None
  end.

Definition plain_decimal (s : string) : option Decimal :=
  match s with
  | String "-" s' => plain_unsigned true s'
  | String "+" s' => plain_unsigned false s'
  | _ => plain_unsigned false s
  end.

(** ** Data model *)

(** A transaction dict.  [amount] is the stored text; [cleared] and
    [deleted] are the truth values of the stored flags. *)
Record transaction : Type := Transaction {
  date : string;
  description : string;
  category : option string;
  amount : string;
  cleared : bool;
  deleted : bool;
}.

(** A reference to a transaction dict, and the object store. *)
Definition ref : Type := nat.
Abbreviation store := (ref → transaction) (only parsing).

(** The account dict: either key may be absent. *)
Record Account : Type := {
  acct_initial_balance : option string;
  acct_transactions : option (list ref);
}.

(** The attributes of a [Ledger] object. *)
Record Ledger : Type := {
  account : Account;
  transactions : list ref;
  initial_balance : Decimal;
}.

(** What a [Ledger] method runs on: the object store, the next unused
    reference (a new dict is allocated there) and [self]. *)
Record world : Type := World {
  objects : store;
  next_ref : ref;
  self : Ledger;
}.

(** The dict [reconcile] returns. *)
Record reconciliation : Type := {
  rec_bank_balance : Decimal;
  rec_uncleared_checks : Decimal;
  rec_uncleared_deposits : Decimal;
  rec_ending_balance : Decimal;
  rec_register_balance : Decimal;
  rec_difference : Decimal;
}.

Definition set_deleted (b : bool) (t : transaction) : transaction :=
  Transaction (date t) (description t) (category t) (amount t) (cleared t) b.
Definition set_cleared (b : bool) (t : transaction) : transaction :=
  Transaction (date t) (description t) (category t) (amount t) b (deleted t).
Definition set_date (s : string) (t : transaction) : transaction :=
  Transaction s (description t) (category t) (amount t) (cleared t) (deleted t).
Definition set_description (s : string) (t : transaction) : transaction :=
  Transaction (date t) s (category t) (amount t) (cleared t) (deleted t).
Definition set_category (c : option string) (t : transaction) : transaction :=
  Transaction (date t) (description t) c (amount t) (cleared t) (deleted t).
Definition set_amount (s : string) (t : transaction) : transaction :=
  Transaction (date t) (description t) (category t) s (cleared t) (deleted t).

(** [t = {...}]: a new dict object. *)
Definition new_dict (t : transaction) (w : world) : ref * world :=
  (next_ref w, World (<[next_ref w := t]> (objects w)) (S (next_ref w)) (self w)).

(** The stored list of an account: [account.get("transactions", [])]. *)
Definition stored (a : Account) : list ref := default [] (acct_transactions a).

(** The dict [compute_balances] returns: the key [register], the keys of
    [reconcile] when a bank balance is given, and the key [running]. *)
Record balances : Type := {
  bal_register : Decimal;
  bal_reconcile : option reconciliation;
  bal_running : list Decimal;
}.

(** The values a register line is made of, in the order of the line: the
    cleared mark, the date, the description and the category cut to their
    column widths, the debit and the credit as printed, and the running
    balance. *)
Record line : Type := Line {
  line_mark : bool;
  line_date : string;
  line_description : string;
  line_category : string;
  line_debit : string;
  line_credit : string;
  line_balance : Decimal;
}.

(** The local variables the closures of [launch_tui] share.  [ledger]
    holds the store, [acct] and the [Ledger]; [txns] is the ledger's own
    list.  [input] is what the user will type at the prompts to come. *)
Record session : Type := Session {
  ledger : world;
  bank_balance : option Decimal;
  idx : Z;
  scroll : Z;
  last_search : option string;
  input : list string;
}.

Definition txns (s : session) : list ref := transactions (self (ledger s)).

Definition with_ledger (w : world) (s : session) : session :=
  Session w (bank_balance s) (idx s) (scroll s) (last_search s) (input s).
Definition with_bank_balance (b : option Decimal) (s : session) : session :=
  Session (ledger s) b (idx s) (scroll s) (last_search s) (input s).
Definition with_idx (i : Z) (s : session) : session :=
  Session (ledger s) (bank_balance s) i (scroll s) (last_search s) (input s).
Definition with_scroll (i : Z) (s : session) : session :=
  Session (ledger s) (bank_balance s) (idx s) i (last_search s) (input s).
Definition with_last_search (q : option string) (s : session) : session :=
  Session (ledger s) (bank_balance s) (idx s) (scroll s) q (input s).
Definition with_input (l : list string) (s : session) : session :=
  Session (ledger s) (bank_balance s) (idx s) (scroll s) (last_search s) l.
Definition with_object (r : ref) (t : transaction) (s : session) : session :=
  let w := ledger s in
  with_ledger (World (<[r := t]> (objects w)) (next_ref w) (self w)) s.

(** The fields [edit_transaction] asks for, in its order. *)
Inductive field : Type := F_date | F_description | F_category | F_amount.

(** What one round of the loop of [curses_main] leaves: the loop goes on,
    or the account is saved and the loop left. *)
Inductive outcome : Type :=
| Continue (s : session)
| Saved (s : session).

Section Checkbook.

(** [Decimal(str(x))] on the text [x]; [None] is [InvalidOperation]. *)
Variable Decimal_of_str : string → option Decimal.

Definition to_Decimal (s : string) : result Decimal :=
  match Decimal_of_str s with
  | Some d => Ok d
  | None => Raise InvalidOperation
  end.

(** [Decimal(str(t["amount"]))] for the dict behind [t]. *)
Definition amount_of (objs : store) (t : ref) : result Decimal :=
  to_Decimal (amount (objs t)).

(** *** class Ledger *)

(** [Ledger.__init__] *)
Definition Ledger_init (objs : store) (acct : Account) : result Ledger :=
  let txns := filter (λ t, deleted (objs t) = false) (stored acct) in
  ib ← to_Decimal (default "0.00" (acct_initial_balance acct));
  Ok {| account := acct; transactions := txns; initial_balance := ib |}.

(** The loop of [running_balance]. *)
Fixpoint running_loop (objs : store) (ts : list ref) (bal : Decimal)
    (balances : list Decimal) : result (list Decimal) :=
  match ts with
  | [] => Ok balances
  | t :: ts' =>
      d ← amount_of objs t;
      bal' ← Decimal_add bal d;
      running_loop objs ts' bal' (balances ++ [bal'])%list
  end.

Definition running_balance (w : world) : result (list Decimal * world) :=
  balances ← running_loop (objects w) (transactions (self w))
               (initial_balance (self w)) [];
  Ok (balances, w).

(** [sum(f(t) for t in ts if cond(t))] from the running total [acc].  The
    generator is consumed one element at a time: for each element the
    condition, the value and the addition to the total follow each other
    before the next element is looked at.  The total starts at the integer
    0, which decimal arithmetic takes as [Decimal(0)]. *)
Fixpoint sum_generator (cond : ref → result bool) (f : ref → result Decimal)
    (ts : list ref) (acc : Decimal) : result Decimal :=
  match ts with
  | [] => Ok acc
  | t :: ts' =>
      c ← cond t;
      if c : bool
      then y ← f t; acc' ← Decimal_add acc y; sum_generator cond f ts' acc'
      else sum_generator cond f ts' acc
  end.

Definition register_balance (w : world) : result (Decimal * world) :=
  s ← sum_generator (λ _, Ok true) (amount_of (objects w))
         (transactions (self w)) Decimal_0;
  r ← Decimal_add (initial_balance (self w)) s;
  Ok (r, w).

(** The two filters of [reconcile]; [and] evaluates its right operand
    only when the transaction is uncleared. *)
Definition is_uncleared_check (objs : store) (t : ref) : result bool :=
  if negb (cleared (objs t))
  then d ← amount_of objs t; Decimal_lt_0 d
  else Ok false.
Definition is_uncleared_deposit (objs : store) (t : ref) : result bool :=
  if negb (cleared (objs t))
  then d ← amount_of objs t; Decimal_gt_0 d
  else Ok false.

Definition reconcile (bank_balance : string) (w : world)
    : result (reconciliation * world) :=
  let objs := objects w in
  bank ← to_Decimal bank_balance;
  uncleared_checks ←
    sum_generator (is_uncleared_check objs)
      (λ t, d ← amount_of objs t; Decimal_neg d)
      (transactions (self w)) Decimal_0;
  uncleared_deposits ←
    sum_generator (is_uncleared_deposit objs) (amount_of objs)
      (transactions (self w)) Decimal_0;
  less_checks ← Decimal_sub bank uncleared_checks;
  ending_balance ← Decimal_add less_checks uncleared_deposits;
  '(reg, w1) ← register_balance w;
  difference ← Decimal_sub ending_balance reg;
  '(reg', w2) ← register_balance w1;
  Ok ({| rec_bank_balance := bank;
         rec_uncleared_checks := uncleared_checks;
         rec_uncleared_deposits := uncleared_deposits;
         rec_ending_balance := ending_balance;
         rec_register_balance := reg';
         rec_difference := difference |}, w2).

(** [add_transaction]: [setdefault("transactions", []).append(t)], then
    the visible list. *)
Definition add_transaction (t : ref) (w : world) : result (unit * world) :=
  let L := self w in
  let acct' := {| acct_initial_balance := acct_initial_balance (account L);
                  acct_transactions := Some (stored (account L) ++ [t])%list |} in
  Ok (tt, World (objects w) (next_ref w)
            {| account := acct';
               transactions := (transactions L ++ [t])%list;
               initial_balance := initial_balance L |}).

Definition delete_transaction (idx : Z) (w : world) : result (unit * world) :=
  let L := self w in
  t ← index (transactions L) idx;
  let objs' := <[t := set_deleted true (objects w t)]> (objects w) in
  '(_, rest) ← pop (transactions L) idx;
  Ok (tt, World objs' (next_ref w)
            {| account := account L;
               transactions := rest;
               initial_balance := initial_balance L |}).

(** *** Utilities *)

(** The module constant [TODAY]. *)
Variable TODAY : string.

Definition today_if_dot (s : string) : string :=
  if String.eqb (strip s) "." then TODAY else strip s.

(** *** CLI reports *)

(** [for x in l: s = body(s, x)] with exceptions. *)
Fixpoint for_each {A S} (body : S → A → result S) (l : list A) (s : S)
    : result S :=
  match l with
  | [] => Ok s
  | x :: l' => s' ← body s x; for_each body l' s'
  end.

(** [start and d < start], [end and d > end]: an absent or empty bound
    does not filter. *)
Definition before_start (start : option string) (d : string) : bool :=
  match start with
  | Some b => truthy b && str_lt d b
  | None => false
  end.
Definition after_end (end_ : option string) (d : string) : bool :=
  match end_ with
  | Some b => truthy b && str_lt b d
  | None => false
  end.

(** One round of the loop of [category_report]. *)
Definition category_step (objs : store) (start end_ : option string)
    (totals : gmap string Decimal) (t : ref) : result (gmap string Decimal) :=
  if before_start start (date (objs t)) then Ok totals
  else if after_end end_ (date (objs t)) then Ok totals
  else
    let cat := or_else (category (objs t)) "Uncategorized" in
    let totals1 :=
      match totals !! cat with
      | Some _ => totals
      | None => <[cat := Decimal_0_00]> totals
      end in
    d ← amount_of objs t;
    v ← Decimal_add (default Decimal_0_00 (totals1 !! cat)) d;
    Ok (<[cat := v]> totals1).

(** The order of the [(cat, amt)] tuples that [sorted] uses.  The tuples
    are the items of a dict, so no two have the same [cat], and the order
    never comes to compare two amounts. *)
Definition item_le (x y : string * Decimal) : Prop := String.le x.1 y.1.
Global Instance item_le_dec : RelDecision item_le.
Proof. intros x y. unfold item_le. apply _. Defined.

(** [sorted(totals.items())] *)
Definition sorted_items (totals : gmap string Decimal)
    : list (string * Decimal) :=
  merge_sort item_le (map_to_list totals).

(** [category_report]: the rows [(cat, amt)] it prints, in order. *)
Definition category_report (objs : store) (acct : Account)
    (start end_ : option string) : result (list (string * Decimal)) :=
  L ← Ledger_init objs acct;
  totals ← for_each (category_step objs start end_) (transactions L) ∅;
  Ok (sorted_items totals).

(** *** The interactive session ([launch_tui]) *)

(** [json.dumps(t)] for a transaction dict. *)
Variable json_dumps : transaction → string.
(** [str(d)] for a decimal. *)
Variable str_of_Decimal : Decimal → string.

(** [prompt]: the next line the user types. *)
Definition prompt (s : session) : result (string * session) :=
  match input s with
  | a :: rest => Ok (a, with_input rest s)
  | [] => Raise EOFError
  end.

Definition add_transaction_tui (s : session) : result session :=
  '(date_in, s) ← prompt s;
  let date_val := today_if_dot date_in in
  '(desc, s) ← prompt s;
  '(cat, s) ← prompt s;
  '(amt_in, s) ← prompt s;
  amt ← to_Decimal amt_in;
  '(cleared_in, s) ← prompt s;
  let cleared := startswith (lower cleared_in) "y" in
  let '(t, w) := new_dict (Transaction date_val desc (or_None cat)
                             (str_of_Decimal amt) cleared false) (ledger s) in
  '(_, w) ← add_transaction t w;
  Ok (with_ledger w s).

(** The body of the loop of [edit_transaction] once the prompt is
    answered. *)
Definition edit_field (f : field) (answer : string) (t : transaction)
    : transaction :=
  let s := strip answer in
  if truthy s then
    match f with
    | F_date => set_date (today_if_dot s) t
    | F_category => set_category (if String.eqb s " " then None else Some s) t
    | F_description => set_description s t
    | F_amount => set_amount s t
    end
  else t.

Definition edit_transaction (t : ref) (s : session) : result session :=
  for_each (λ s f,
              '(answer, s) ← prompt s;
              Ok (with_object t (edit_field f answer (objects (ledger s) t)) s))
           [F_date; F_description; F_category; F_amount] s.

Definition idx_set (new_idx : Z) (s : session) : session :=
  with_scroll new_idx (with_idx new_idx s).

(** [for i in r: if not txns[i].get("cleared"): return i]. *)
Fixpoint scan_uncleared (s : session) (r : list Z) : result (option Z) :=
  match r with
  | [] => Ok None
  | i :: r' =>
      t ← index (txns s) i;
      if negb (cleared (objects (ledger s) t)) then Ok (Some i)
      else scan_uncleared s r'
  end.

Definition jump_next_uncleared (s : session) : result session :=
  r ← scan_uncleared s (range (idx s + 1) (len (txns s)));
  match r with
  | Some i => Ok (idx_set i s)
  | None =>
      r ← scan_uncleared s (range 0 (idx s + 1));
      match r with
      | Some i => Ok (idx_set i s)
      | None => Ok s
      end
  end.

Definition jump_prev_uncleared (s : session) : result session :=
  r ← scan_uncleared s (range_down (idx s - 1) (-1));
  match r with
  | Some i => Ok (idx_set i s)
  | None =>
      r ← scan_uncleared s (range_down (len (txns s) - 1) (idx s - 1));
      match r with
      | Some i => Ok (idx_set i s)
      | None => Ok s
      end
  end.

(** [search.lower() in json.dumps(t).lower()] *)
Definition matches (search : string) (t : transaction) : bool :=
  contains (lower search) (lower (json_dumps t)).

(** The [while True] loop of [find_next], one round per unit of [fuel];
    [None] when the fuel runs out. *)
Fixpoint find_next_loop (fuel : nat) (search : string) (start : Z)
    (wrapped : bool) (s : session) : option (result session) :=
  match fuel with
  | O => None
  | S fuel' =>
      let test (start : Z) (wrapped : bool) :=
        match index (txns s) start with
        | Raise e => Some (Raise e)
        | Ok t =>
            if matches search (objects (ledger s) t)
            then Some (Ok (idx_set start s))
            else find_next_loop fuel' search (start + 1) wrapped s
        end in
      if bool_decide (len (txns s) ≤ start) then
        if wrapped then Some (Ok s) else test 0 true
      else test start wrapped
  end.

Definition find_next (fuel : nat) (search : string) (s : session)
    : option (result session) :=
  find_next_loop fuel search (idx s + 1) false s.

(** Key codes: [ord(c)] and the two [curses] constants. *)
Definition ord (c : ascii) : Z := Z.of_N (N_of_ascii c).
Definition KEY_DOWN : Z := 258.
Definition KEY_UP : Z := 259.

Definition continue (r : result session) : option (result outcome) :=
  Some (Continue <$> r).

(** One round of the loop of [curses_main] on the key [ch]. *)
Definition curses_main (fuel : nat) (ch : Z) (s : session)
    : option (result outcome) :=
  if bool_decide (ch = ord "q") then Some (Ok (Saved s))
  else if bool_decide (ch = KEY_DOWN ∨ ch = ord "j")
          && bool_decide (idx s < len (txns s) - 1)
  then continue (Ok (with_idx (idx s + 1) s))
  else if bool_decide (ch = KEY_UP ∨ ch = ord "k") && bool_decide (0 < idx s)
  then continue (Ok (with_idx (idx s - 1) s))
  else if bool_decide (ch = ord "t") then continue (Ok (with_idx 0 s))
  else if bool_decide (ch = ord "b")
  then continue (Ok (with_idx (len (txns s) - 1) s))
  else if bool_decide (ch = ord " ") then
    continue (t ← index (txns s) (idx s);
              let o := objects (ledger s) t in
              Ok (with_object t (set_cleared (negb (cleared o)) o) s))
  else if bool_decide (ch = ord "r") then
    continue ('(a, s) ← prompt s;
              if truthy (strip a)
              then b ← to_Decimal (strip a); Ok (with_bank_balance (Some b) s)
              else Ok s)
  else if bool_decide (ch = ord "e") then
    continue (t ← index (txns s) (idx s); edit_transaction t s)
  else if bool_decide (ch = ord "d") then
    continue ('(_, w) ← delete_transaction (idx s) (ledger s);
              Ok (with_idx (0 `max` (idx s - 1)) (with_ledger w s)))
  else if bool_decide (ch = ord "a") then continue (add_transaction_tui s)
  else if bool_decide (ch = ord "n") then continue (jump_next_uncleared s)
  else if bool_decide (ch = ord "N") then continue (jump_prev_uncleared s)
  else if bool_decide (ch = ord "F") then
    match prompt s with
    | Raise e => Some (Raise e)
    | Ok (q, s) =>
        r ← find_next fuel q (with_last_search (Some q) s);
        continue r
    end
  else if bool_decide (ch = ord "f") then
    match last_search s with
    | Some q =>
        if truthy q then r ← find_next fuel q s; continue r
        else continue (Ok s)
    | None => continue (Ok s)
    end
  else continue (Ok s).

(** The state [launch_tui] starts the loop in. *)
Definition launch_tui (objs : store) (next : ref) (acct : Account)
    (initial_bank : option string) (keys : list string) : result session :=
  L ← Ledger_init objs acct;
  bank ← match initial_bank with
         | Some b => Some <$> to_Decimal b
         | None => Ok None
         end;
  Ok (Session (World objs next L) bank 0 0 None keys).


(** *** The functions around the ledger and the session *)

(** [f"{d:.2f}"] for a decimal. *)
Variable format_2f : Decimal → string.

(** [compute_balances(account, bank_balance)]; [bank_balance] is [None]
    when the argument is left out. *)
Definition compute_balances (objs : store) (next : ref) (account : Account)
    (bank_balance : option string) : result balances :=
  L ← Ledger_init objs account;
  '(register, w) ← register_balance (World objs next L);
  '(rec, w) ← match bank_balance with
              | Some b => '(r, w) ← reconcile b w; Ok (Some r, w)
              | None => Ok (None, w)
              end;
  '(running, w) ← running_balance w;
  Ok {| bal_register := register; bal_reconcile := rec;
        bal_running := running |}.

(** [load_account], from the dict [json.load] has read: the two keys are
    filled in when they are missing. *)
Definition load_account (acct : Account) : Account :=
  let acct :=
    match acct_initial_balance acct with
    | Some _ => acct
    | None => {| acct_initial_balance := Some "0.00";
                 acct_transactions := acct_transactions acct |}
    end in
  match acct_transactions acct with
  | Some _ => acct
  | None => {| acct_initial_balance := acct_initial_balance acct;
               acct_transactions := Some [] |}
  end.

(** [new_account(initial_balance)] *)
Definition new_account (initial_balance : string) : result Account :=
  d ← to_Decimal initial_balance;
  Ok {| acct_initial_balance := Some (str_of_Decimal d);
        acct_transactions := Some [] |}.

(** [print_register]: the lines it prints under the heading, one for each
    pair of [zip(ledger.transactions, running)]. *)
Definition print_register (objs : store) (next : ref) (acct : Account)
    : result (list line) :=
  L ← Ledger_init objs acct;
  '(running, w) ← running_balance (World objs next L);
  mapM (λ '(t, bal),
          let o := objects w t in
          amt ← amount_of (objects w) t;
          is_debit ← Decimal_lt_0 amt;
          debit ← (if is_debit : bool
                   then n ← Decimal_neg amt; Ok (format_2f n)
                   else Ok "");
          is_credit ← Decimal_gt_0 amt;
          let credit := if is_credit : bool then format_2f amt else "" in
          let cat := or_else (category o) "Uncategorized" in
          Ok (Line (cleared o) (date o) (str_take 30 (description o))
                (str_take 15 cat) debit credit bal))
       (zip (transactions (self w)) running).

(** [reconcile_report]: the reconciliation it prints, and under it the
    date, description and amount of each uncleared transaction, sorted by
    date. *)
Definition reconcile_report (objs : store) (next : ref) (acct : Account)
    (bank_balance : string)
    : result (reconciliation * list (string * string * Decimal)) :=
  L ← Ledger_init objs acct;
  '(rec, w) ← reconcile bank_balance (World objs next L);
  let uncleared :=
    filter (λ tx, cleared (objects w tx) = false) (transactions (self w)) in
  rows ← mapM (λ t,
                 let o := objects w t in
                 d ← amount_of (objects w) t;
                 Ok (date o, str_take 30 (description o), d))
              (sorted (λ x, date (objects w x)) uncleared);
  Ok (rec, rows).

(** The two adjustments of [scroll] in [draw], which it makes once the
    panel is written and the running balances are there; [visible] is the
    number of list lines that fit under the panel. *)
Definition draw_scroll (visible : Z) (s : session) : session :=
  let s := if bool_decide (idx s < scroll s)
           then with_scroll (idx s) s else s in
  if bool_decide (scroll s + visible ≤ idx s)
  then with_scroll (idx s - visible + 1) s else s.

(** The command [add] of [main], from the dict [json.load] has read to the
    state whose account is saved. *)
Definition main_add (objs : store) (next : ref) (file : Account)
    (date description amount : string) (category : option string)
    (cleared : bool) : result world :=
  let acct := load_account file in
  L ← Ledger_init objs acct;
  let '(t, w) := new_dict (Transaction (today_if_dot date) description
                             (category ≫= or_None) amount cleared false)
                          (World objs next L) in
  '(_, w) ← add_transaction t w;
  Ok w.

(** ** Vocabulary of the specification *)

(** The decimal the amount text of a transaction denotes. *)
Definition amount_value (objs : store) (t : ref) : Decimal :=
  default Decimal_0 (Decimal_of_str (amount (objs t))).

(** Every amount text in [ts] is a number. *)
Definition amounts_ok (objs : store) (ts : list ref) : Prop :=
  Forall (λ t, is_Some (Decimal_of_str (amount (objs t)))) ts.

(** Every amount text in [ts] is a finite number of at most [k] decimal
    places. *)
Definition amounts_at (k : Z) (objs : store) (ts : list ref) : Prop :=
  Forall (λ t, ∃ d, Decimal_of_str (amount (objs t)) = Some d
                    ∧ finite_at k d) ts.

(** The sum of a list of integers. *)
Definition total (ds : list Z) : Z := foldr Z.add 0 ds.

(** The amount of a transaction in units of [10^-k], and the sum of the
    absolute amounts of a list of transactions. *)
Definition amount_units (k : Z) (objs : store) (t : ref) : Z :=
  units k (amount_value objs t).
Definition magnitude (k : Z) (objs : store) (ts : list ref) : Z :=
  total ((λ t, Z.abs (amount_units k objs t)) <$> ts).

(** The non-deleted transactions of an account, in stored order. *)
Definition kept (objs : store) (acct : Account) : list ref :=
  filter (λ t, deleted (objs t) = false) (stored acct).

(** The visible list is the non-deleted part of the stored list. *)
Definition view_ok (w : world) : Prop :=
  transactions (self w) = kept (objects w) (account (self w)).

(** ** Decimal arithmetic within the precision *)

Lemma digits_upto_le (fuel : nat) (c k : Z) :
  0 ≤ k → c < 10 ^ k → digits_upto fuel c ≤ k.
Proof.
  revert c k. induction fuel as [|fuel IH]; intros c k Hk Hc; simpl; [done|].
  case_bool_decide as H0; [done|].
  assert (1 ≤ k) as Hk1.
  { destruct (decide (k = 0)) as [->|]; [simpl in Hc; lia|lia]. }
  assert (c `div` 10 < 10 ^ (k - 1)).
  { apply Z.div_lt_upper_bound; [lia|].
    replace (10 * 10 ^ (k - 1)) with (10 ^ k); [done|].
    rewrite <- Z.pow_succ_r by lia. f_equal. lia. }
  specialize (IH (c `div` 10) (k - 1)). lia.
Qed.

Lemma pow10_pos (x : Z) : 0 ≤ x → 1 ≤ 10 ^ x.
Proof. intros. pose proof (Z.pow_pos_nonneg 10 x). lia. Qed.

Lemma pow10_lt_inv (x y : Z) : 0 ≤ y → 10 ^ x < 10 ^ y → x < y.
Proof.
  intros Hy H. destruct (decide (x < y)); [done|].
  assert (10 ^ y ≤ 10 ^ x) by (apply Z.pow_le_mono_r; lia). lia.
Qed.

(** A coefficient that fits the precision is left as it is. *)
Lemma Decimal_fix_exact (k : Z) (neg : bool) (c : N) (e : Z) :
  places k → - k ≤ e → Z.of_N c * 10 ^ (e + k) < 10 ^ 28 →
  ∃ e', Decimal_fix (Finite neg c e) = Ok (Finite neg c e') ∧
        - k ≤ e' ∧ e' ≤ e ∧ (e ≤ Emax → e' = e).
Proof.
  unfold places, Etiny, Emin, prec. intros Hk He Hc. unfold Decimal_fix.
  case_bool_decide as H0.
  - replace c with 0%N by lia. eexists. split; [reflexivity|].
    unfold Etiny, Emin, Emax, prec. lia.
  - assert (1 ≤ 10 ^ (e + k)) as Hp by (apply pow10_pos; lia).
    assert (Z.of_N c < 10 ^ 28) as Hc' by nia.
    assert (10 ^ (e + k) < 10 ^ 28) as Hp' by nia.
    apply pow10_lt_inv in Hp'; [|lia].
    assert (ndigits (Z.of_N c) ≤ 28) as Hnd
      by (apply digits_upto_le; [lia|done]).
    unfold Etop, Etiny, Emax, Emin, prec.
    rewrite bool_decide_eq_false_2 by lia.
    rewrite bool_decide_eq_false_2 by lia.
    exists e. split; [done|]. lia.
Qed.

Lemma signed_abs (n : Z) :
  signed (bool_decide (n < 0)) (Z.to_N (Z.abs n)) = n.
Proof. unfold signed. case_bool_decide; lia. Qed.

Lemma units_split (k e e1 : Z) (x : Z) :
  - k ≤ e → e ≤ e1 →
  x * 10 ^ (e1 + k) = x * 10 ^ (e1 - e) * 10 ^ (e + k).
Proof.
  intros. replace (e1 + k) with ((e1 - e) + (e + k)) by lia.
  rewrite Z.pow_add_r by lia. ring.
Qed.

(** An addition whose exact result fits the precision is exact. *)
Lemma Decimal_add_exact (k : Z) (a b : Decimal) :
  places k → finite_at k a → finite_at k b →
  Z.abs (units k a) + Z.abs (units k b) < 10 ^ 28 →
  ∃ r, Decimal_add a b = Ok r ∧ finite_at k r ∧
       units k r = units k a + units k b ∧
       (proper a → proper r) ∧
       (exponent a ≤ Emax → exponent r = exponent a `min` exponent b).
Proof.
  intros Hk Ha Hb Hfit.
  destruct a as [s1 c1 e1| |]; [|done..].
  destruct b as [s2 c2 e2| |]; [|done..].
  simpl in Ha, Hb, Hfit. unfold Decimal_add. cbn [check_nans].
  set (e := e1 `min` e2).
  set (n := signed s1 c1 * 10 ^ (e1 - e) + signed s2 c2 * 10 ^ (e2 - e)).
  set (neg := if bool_decide (n = 0) then _ else _).
  assert (- k ≤ e) as He by (unfold e; lia).
  assert (1 ≤ 10 ^ (e + k)) as Hp by (apply pow10_pos; lia).
  assert (signed s1 c1 * 10 ^ (e1 + k) + signed s2 c2 * 10 ^ (e2 + k)
          = n * 10 ^ (e + k)) as Hsum.
  { rewrite (units_split k e e1), (units_split k e e2) by (unfold e; lia).
    unfold n. ring. }
  assert (Z.abs n * 10 ^ (e + k) < 10 ^ 28) as Hn.
  { rewrite <- (Z.abs_eq (10 ^ (e + k))), <- Z.abs_mul, <- Hsum by lia. lia. }
  destruct (Decimal_fix_exact k neg (Z.to_N (Z.abs n)) e Hk He)
    as (e' & Hfix & He'1 & He'2 & He'3).
  { by rewrite Z2N.id by lia. }
  exists (Finite neg (Z.to_N (Z.abs n)) e'). split; [exact Hfix|].
  split; [exact He'1|].
  destruct (decide (n = 0)) as [Hn0|Hn0].
  - split; [|split].
    + simpl. rewrite Hsum, Hn0. simpl. unfold signed. by destruct neg.
    + simpl. intros Hpa _. unfold neg. rewrite bool_decide_eq_true_2 by done.
      destruct (decide (c1 = 0%N)) as [Hc1|Hc1].
      * rewrite (Hpa Hc1). by rewrite !andb_false_r.
      * by rewrite (bool_decide_eq_false_2 _ Hc1).
    + simpl. intros He1. apply He'3. unfold e. lia.
  - assert (10 ^ (e + k) < 10 ^ 28) as Hp' by nia.
    apply pow10_lt_inv in Hp'; [|lia].
    assert (e' = e) as ->.
    { apply He'3. unfold places, Etiny, Emin, prec, Emax in *. lia. }
    split; [|split].
    + simpl. rewrite Hsum. unfold neg.
      rewrite bool_decide_eq_false_2 by done. by rewrite signed_abs.
    + simpl. intros _ Hc. lia.
    + done.
Qed.

(** A unary minus of a value that fits the precision is exact. *)
Lemma Decimal_neg_exact (k : Z) (a : Decimal) :
  places k → finite_at k a → Z.abs (units k a) < 10 ^ 28 →
  ∃ r, Decimal_neg a = Ok r ∧ finite_at k r ∧
       units k r = - units k a ∧ proper r.
Proof.
  intros Hk Ha Hfit. destruct a as [s c e| |]; [|done..].
  simpl in Ha, Hfit. unfold Decimal_neg.
  assert (1 ≤ 10 ^ (e + k)) as Hp by (apply pow10_pos; lia).
  destruct (Decimal_fix_exact k
              (if bool_decide (c = 0%N) then false else negb s) c e Hk Ha)
    as (e' & Hfix & He'1 & He'2 & He'3).
  { unfold signed in Hfit. destruct s; lia. }
  eexists. split; [exact Hfix|]. split; [exact He'1|]. simpl.
  case_bool_decide as Hc.
  - subst c. split; [|done]. unfold signed. destruct s; simpl; lia.
  - assert (10 ^ (e + k) < 10 ^ 28) as Hp'.
    { unfold signed in Hfit. destruct s; nia. }
    apply pow10_lt_inv in Hp'; [|lia].
    assert (e' = e) as ->.
    { apply He'3. unfold places, Etiny, Emin, prec, Emax in *. lia. }
    split; [|done]. unfold signed. destruct s; simpl; lia.
Qed.

Lemma copy_negate_finite (k : Z) (a : Decimal) :
  finite_at k a →
  finite_at k (copy_negate a) ∧ units k (copy_negate a) = - units k a ∧
  exponent (copy_negate a) = exponent a.
Proof.
  destruct a as [s c e| |]; [|done..]. simpl. intros He.
  split; [done|]. split; [|done]. unfold signed. destruct s; simpl; lia.
Qed.

(** A subtraction whose exact result fits the precision is exact. *)
Lemma Decimal_sub_exact (k : Z) (a b : Decimal) :
  places k → finite_at k a → finite_at k b →
  Z.abs (units k a) + Z.abs (units k b) < 10 ^ 28 →
  ∃ r, Decimal_sub a b = Ok r ∧ finite_at k r ∧
       units k r = units k a - units k b.
Proof.
  intros Hk Ha Hb Hfit.
  destruct (copy_negate_finite k b Hb) as (Hb' & Hu & _).
  destruct (Decimal_add_exact k a (copy_negate b) Hk Ha Hb')
    as (r & Hr & Hfr & Hur & _); [rewrite Hu; lia|].
  exists r. split; [|split; [done|lia]].
  unfold Decimal_sub.
  destruct a as [s1 c1 e1| |]; [|done..].
  by destruct b as [s2 c2 e2| |]; [|done..].
Qed.

Lemma Decimal_lt_0_finite (k : Z) (a : Decimal) :
  places k → finite_at k a →
  Decimal_lt_0 a = Ok (bool_decide (units k a < 0)).
Proof.
  intros Hk Ha. destruct a as [s c e| |]; [|done..]. simpl in *.
  assert (1 ≤ 10 ^ (e + k)) as Hp by (apply pow10_pos; lia).
  f_equal. unfold signed.
  destruct s; simpl; repeat case_bool_decide; try done; nia.
Qed.

Lemma Decimal_gt_0_finite (k : Z) (a : Decimal) :
  places k → finite_at k a →
  Decimal_gt_0 a = Ok (bool_decide (0 < units k a)).
Proof.
  intros Hk Ha. destruct a as [s c e| |]; [|done..]. simpl in *.
  assert (1 ≤ 10 ^ (e + k)) as Hp by (apply pow10_pos; lia).
  f_equal. unfold signed.
  destruct s; simpl; repeat case_bool_decide; try done; nia.
Qed.


(** [ndigits] counts the digits. *)
Lemma digits_upto_spec (fuel : nat) (c : Z) :
  0 < c → c < 2 ^ Z.of_nat fuel →
  10 ^ (digits_upto fuel c - 1) ≤ c < 10 ^ digits_upto fuel c.
Proof.
  revert c. induction fuel as [|fuel IH]; intros c Hc Hf.
  - simpl in Hf. lia.
  - cbn [digits_upto]. rewrite bool_decide_eq_false_2 by lia.
    rewrite Nat2Z.inj_succ, Z.pow_succ_r in Hf by lia.
    destruct (decide (c < 10)) as [Hlt|Hge].
    + rewrite Z.div_small by lia.
      replace (digits_upto fuel 0) with 0; [simpl; lia|].
      by destruct fuel.
    + assert (0 < c `div` 10) as Hq by (apply Z.div_str_pos; lia).
      assert (c `div` 10 < 2 ^ Z.of_nat fuel) as Hqf
        by (apply Z.div_lt_upper_bound; lia).
      specialize (IH _ Hq Hqf).
      set (d := digits_upto fuel (c `div` 10)) in *.
      assert (1 ≤ d) as Hd.
      { destruct (decide (1 ≤ d)); [done|].
        assert (10 ^ d ≤ 10 ^ 0) by (apply Z.pow_le_mono_r; lia).
        simpl in *. lia. }
      replace (1 + d - 1) with (Z.succ (d - 1)) by lia.
      replace (1 + d) with (Z.succ d) by lia.
      rewrite !Z.pow_succ_r by lia.
      pose proof (Z.div_mod c 10). pose proof (Z.mod_pos_bound c 10).
      replace (10 ^ d) with (10 * 10 ^ (d - 1)) in *.
      2:{ rewrite <- Z.pow_succ_r by lia. f_equal. lia. }
      lia.
Qed.

Lemma ndigits_spec (c : Z) :
  0 < c → 10 ^ (ndigits c - 1) ≤ c < 10 ^ ndigits c.
Proof.
  intros Hc. apply digits_upto_spec; [done|].
  rewrite Nat2Z.inj_succ, Z2Nat.id by apply Z.log2_nonneg.
  by apply Z.log2_spec.
Qed.

Lemma Decimal_fix_raises (d : Decimal) : raises_only arithmetic (Decimal_fix d).
Proof.
  destruct d as [s c e| |]; simpl; [|done..].
  repeat case_bool_decide; simpl; try done; by right.
Qed.

Lemma Decimal_add_raises (a b : Decimal) :
  raises_only arithmetic (Decimal_add a b).
Proof.
  unfold Decimal_add.
  destruct a as [s1 c1 e1|s1|s1 [] p1], b as [s2 c2 e2|s2|s2 [] p2];
    cbn [check_nans]; try done; try (by left); try apply Decimal_fix_raises.
  case_bool_decide; [done|by left].
Qed.

Lemma Decimal_neg_raises (a : Decimal) : raises_only arithmetic (Decimal_neg a).
Proof.
  destruct a as [s c e|s|s [] p]; simpl; try done; try (by left).
  apply (Decimal_fix_raises (Finite _ c e)).
Qed.

Lemma Decimal_sub_raises (a b : Decimal) :
  raises_only arithmetic (Decimal_sub a b).
Proof.
  unfold Decimal_sub.
  destruct (check_nans a b) as [r|] eqn:Hc; [|apply Decimal_add_raises].
  destruct a as [s1 c1 e1|s1|s1 [] p1], b as [s2 c2 e2|s2|s2 [] p2];
    cbn [check_nans] in Hc; simplify_eq; try done; by left.
Qed.

Lemma Decimal_lt_0_raises (a : Decimal) :
  raises_only arithmetic (Decimal_lt_0 a).
Proof. destruct a; simpl; try done. by left. Qed.

Lemma Decimal_gt_0_raises (a : Decimal) :
  raises_only arithmetic (Decimal_gt_0 a).
Proof. destruct a; simpl; try done. by left. Qed.

(** ** The ledger *)

Lemma total_cons (x : Z) (xs : list Z) : total (x :: xs) = x + total xs.
Proof. done. Qed.

Lemma total_app (xs ys : list Z) : total (xs ++ ys) = total xs + total ys.
Proof.
  induction xs as [|x xs IH]; [done|].
  rewrite <- app_comm_cons, !total_cons, IH. lia.
Qed.

Lemma total_abs_nonneg {A} (g : A → Z) (l : list A) :
  0 ≤ total ((λ x, Z.abs (g x)) <$> l).
Proof.
  induction l as [|x l IH]; [done|]. rewrite fmap_cons, total_cons. lia.
Qed.

Lemma total_abs_le {A} (g : A → Z) (l : list A) :
  Z.abs (total (g <$> l)) ≤ total ((λ x, Z.abs (g x)) <$> l).
Proof.
  induction l as [|x l IH]; [done|]. rewrite !fmap_cons, !total_cons. lia.
Qed.

Lemma total_abs_filter {A} (g : A → Z) (P : A → Prop)
    `{!∀ x, Decision (P x)} (l : list A) :
  total ((λ x, Z.abs (g x)) <$> filter P l)
  ≤ total ((λ x, Z.abs (g x)) <$> l).
Proof.
  induction l as [|x l IH]; [done|].
  pose proof (Z.abs_nonneg (g x)).
  rewrite filter_cons.
  destruct (decide (P x)); rewrite !fmap_cons, !total_cons; lia.
Qed.

Lemma total_abs_disjoint {A} (g : A → Z) (P Q : A → Prop)
    `{!∀ x, Decision (P x)} `{!∀ x, Decision (Q x)} (l : list A) :
  (∀ x, P x → Q x → False) →
  total ((λ x, Z.abs (g x)) <$> filter P l)
  + total ((λ x, Z.abs (g x)) <$> filter Q l)
  ≤ total ((λ x, Z.abs (g x)) <$> l).
Proof.
  intros HPQ. induction l as [|x l IH]; [done|].
  rewrite !filter_cons.
  pose proof (Z.abs_nonneg (g x)).
  destruct (decide (P x)) as [HP|HP], (decide (Q x)) as [HQ|HQ];
    [by destruct (HPQ x)|rewrite ?fmap_cons, ?total_cons; lia..].
Qed.

Lemma total_abs_elem {A} (g : A → Z) (l : list A) (x : A) :
  x ∈ l → Z.abs (g x) ≤ total ((λ x, Z.abs (g x)) <$> l).
Proof.
  induction 1 as [x l|x y l _ IH]; rewrite fmap_cons, total_cons.
  - pose proof (total_abs_nonneg g l). lia.
  - lia.
Qed.

Lemma filter_all {A} (P : A → Prop) `{!∀ x, Decision (P x)} (l : list A) :
  Forall P l → filter P l = l.
Proof.
  induction 1 as [|x l Hx _ IH]; [done|].
  by rewrite filter_cons, decide_True, IH.
Qed.


Lemma amount_of_ok (objs : store) (t : ref) :
  is_Some (Decimal_of_str (amount (objs t))) →
  amount_of objs t = Ok (amount_value objs t).
Proof.
  intros [d Hd]. unfold amount_of, to_Decimal, amount_value. by rewrite Hd.
Qed.

Lemma amount_of_None (objs : store) (t : ref) :
  Decimal_of_str (amount (objs t)) = None →
  amount_of objs t = Raise InvalidOperation.
Proof. intros H. unfold amount_of, to_Decimal. by rewrite H. Qed.

Lemma amounts_at_elem (k : Z) (objs : store) (ts : list ref) (t : ref) :
  amounts_at k objs ts → t ∈ ts →
  amount_of objs t = Ok (amount_value objs t)
  ∧ finite_at k (amount_value objs t).
Proof.
  unfold amounts_at. rewrite Forall_forall. intros Hall Ht.
  destruct (Hall t Ht) as (d & Hd & Hf).
  unfold amount_of, to_Decimal, amount_value. by rewrite Hd.
Qed.

Lemma amounts_at_ok (k : Z) (objs : store) (ts : list ref) :
  amounts_at k objs ts → amounts_ok objs ts.
Proof.
  unfold amounts_at, amounts_ok. intros H. eapply Forall_impl; [exact H|].
  intros t (d & -> & _). by eexists.
Qed.

Lemma Ledger_init_ok (objs : store) (acct : Account) (b0 : Decimal) :
  Decimal_of_str (default "0.00" (acct_initial_balance acct)) = Some b0 →
  Ledger_init objs acct =
    Ok {| account := acct; transactions := kept objs acct;
          initial_balance := b0 |}.
Proof. intros H. unfold Ledger_init, to_Decimal. by rewrite H. Qed.

Lemma units_Decimal_0 (k : Z) : units k Decimal_0 = 0.
Proof. done. Qed.

Lemma finite_at_Decimal_0 (k : Z) : places k → finite_at k Decimal_0.
Proof. unfold places. simpl. lia. Qed.

(** A sum whose amounts fit the precision is exact. *)
Lemma sum_generator_exact (k : Z) (cond : ref → result bool)
    (f : ref → result Decimal) (P : ref → Prop) `{!∀ t, Decision (P t)}
    (g : ref → Z) (ts : list ref) (acc : Decimal) :
  places k →
  Forall (λ t, cond t = Ok (bool_decide (P t))
               ∧ (P t → ∃ y, f t = Ok y ∧ finite_at k y ∧ units k y = g t))
         ts →
  finite_at k acc →
  Z.abs (units k acc) + total ((λ t, Z.abs (g t)) <$> filter P ts) < 10 ^ 28 →
  ∃ r, sum_generator cond f ts acc = Ok r ∧ finite_at k r ∧
       units k r = units k acc + total (g <$> filter P ts) ∧
       (proper acc → proper r).
Proof.
  intros Hk Hall. revert acc.
  induction Hall as [|t ts [Hc Hf] _ IH]; intros acc Hacc Hfit.
  - exists acc. simpl. split; [done|]. split; [done|]. split; [lia|done].
  - cbn [sum_generator]. rewrite Hc. cbn [mbind result_bind].
    rewrite filter_cons in *. case_bool_decide as HP.
    + rewrite decide_True in * by done.
      destruct (Hf HP) as (y & -> & Hy & Hu). cbn [mbind result_bind].
      rewrite !fmap_cons, total_cons in Hfit.
      pose proof (total_abs_nonneg g (filter P ts)) as Hnn.
      destruct (Decimal_add_exact k acc y Hk Hacc Hy)
        as (acc' & -> & Hacc' & Hu' & Hp' & _); [lia|].
      cbn [mbind result_bind].
      destruct (IH acc' Hacc') as (r & -> & Hr & Hur & Hpr); [lia|].
      exists r. split; [done|]. split; [done|]. split.
      * rewrite fmap_cons, total_cons. lia.
      * intros Hp. by apply Hpr, Hp'.
    + rewrite decide_False in * by done. by apply IH.
Qed.

(** The register balance of amounts that fit the precision. *)
Lemma register_balance_exact (k : Z) (w : world) :
  places k →
  finite_at k (initial_balance (self w)) →
  amounts_at k (objects w) (transactions (self w)) →
  Z.abs (units k (initial_balance (self w)))
  + magnitude k (objects w) (transactions (self w)) < 10 ^ 28 →
  ∃ r, register_balance w = Ok (r, w) ∧ finite_at k r ∧
       units k r = units k (initial_balance (self w))
                   + total (amount_units k (objects w)
                              <$> transactions (self w)).
Proof.
  intros Hk Hib Hat Hfit. unfold register_balance.
  set (ts := transactions (self w)) in *. set (objs := objects w) in *.
  pose proof (total_abs_nonneg (amount_units k objs) ts) as Hnn.
  unfold magnitude in Hfit.
  destruct (sum_generator_exact k (λ _, Ok true) (amount_of objs)
              (λ _, True) (amount_units k objs) ts Decimal_0 Hk)
    as (s & -> & Hs & Hus & _).
  - apply Forall_forall. intros t Ht. split; [done|]. intros _.
    destruct (amounts_at_elem k objs ts t Hat Ht) as [-> Hf]. by eexists.
  - by apply finite_at_Decimal_0.
  - rewrite filter_all by (by apply Forall_true). rewrite units_Decimal_0. lia.
  - rewrite filter_all in Hus by (by apply Forall_true).
    rewrite units_Decimal_0 in Hus. cbn [mbind result_bind].
    pose proof (total_abs_le (amount_units k objs) ts) as Hle.
    destruct (Decimal_add_exact k (initial_balance (self w)) s Hk Hib Hs)
      as (r & -> & Hr & Hur & _); [lia|].
    exists r. split; [done|]. split; [done|]. lia.
Qed.

(** The running balances of amounts that fit the precision. *)
Lemma running_loop_exact (k : Z) (objs : store) (ts : list ref)
    (bal : Decimal) (acc : list Decimal) :
  places k → finite_at k bal → amounts_at k objs ts →
  Z.abs (units k bal) + magnitude k objs ts < 10 ^ 28 →
  ∃ bs, running_loop objs ts bal acc = Ok (acc ++ bs)%list ∧
        length bs = length ts ∧
        ∀ i, (i < length ts)%nat →
          ∃ b, bs !! i = Some b ∧ finite_at k b ∧
               units k b = units k bal
                           + total (amount_units k objs <$> take (S i) ts).
Proof.
  intros Hk Hbal Hat. revert bal acc Hbal.
  induction Hat as [|t ts (d & Hd & Hfd) Hat IH]; intros bal acc Hbal Hfit.
  - exists []. simpl. rewrite app_nil_r. split; [done|]. split; [done|].
    intros i Hi. lia.
  - cbn [running_loop]. unfold amount_of, to_Decimal. rewrite Hd.
    cbn [mbind result_bind]. unfold magnitude in Hfit.
    rewrite fmap_cons, total_cons in Hfit.
    fold (magnitude k objs ts) in Hfit.
    assert (amount_units k objs t = units k d) as Hut
      by (unfold amount_units, amount_value; by rewrite Hd).
    pose proof (total_abs_nonneg (amount_units k objs) ts) as Hnn.
    fold (magnitude k objs ts) in Hnn.
    destruct (Decimal_add_exact k bal d Hk Hbal Hfd)
      as (bal' & -> & Hbal' & Hu' & _); [lia|].
    cbn [mbind result_bind].
    destruct (IH bal' (acc ++ [bal'])%list Hbal') as (bs & -> & Hlen & Hbs);
      [lia|].
    exists (bal' :: bs). split; [by rewrite <- (assoc_L (++))|].
    split; [simpl; by rewrite Hlen|].
    intros [|i] Hi.
    + exists bal'. split; [done|]. split; [done|].
      rewrite firstn_cons, take_0, fmap_cons, total_cons. simpl. lia.
    + destruct (Hbs i) as (b & Hb & Hfb & Hub); [simpl in Hi; lia|].
      exists b. split; [done|]. split; [done|].
      rewrite Hub, Hu', firstn_cons, fmap_cons, total_cons. lia.
Qed.

Lemma is_uncleared_check_exact (k : Z) (objs : store) (ts : list ref)
    (t : ref) :
  places k → amounts_at k objs ts → t ∈ ts →
  is_uncleared_check objs t =
    Ok (bool_decide (cleared (objs t) = false ∧ amount_units k objs t < 0)).
Proof.
  intros Hk Hat Ht. destruct (amounts_at_elem k objs ts t Hat Ht) as [Ha Hf].
  unfold is_uncleared_check. destruct (cleared (objs t)); simpl.
  - reflexivity.
  - rewrite Ha. simpl. rewrite (Decimal_lt_0_finite k) by done. f_equal.
    apply bool_decide_ext. unfold amount_units.
    split; [by intros ?|by intros [_ ?]].
Qed.

Lemma is_uncleared_deposit_exact (k : Z) (objs : store) (ts : list ref)
    (t : ref) :
  places k → amounts_at k objs ts → t ∈ ts →
  is_uncleared_deposit objs t =
    Ok (bool_decide (cleared (objs t) = false ∧ 0 < amount_units k objs t)).
Proof.
  intros Hk Hat Ht. destruct (amounts_at_elem k objs ts t Hat Ht) as [Ha Hf].
  unfold is_uncleared_deposit. destruct (cleared (objs t)); simpl.
  - reflexivity.
  - rewrite Ha. simpl. rewrite (Decimal_gt_0_finite k) by done. f_equal.
    apply bool_decide_ext. unfold amount_units.
    split; [by intros ?|by intros [_ ?]].
Qed.

(** The reconciliation of amounts that fit the precision. *)
Lemma reconcile_exact (k : Z) (w : world) (bank_balance : string)
    (b : Decimal) :
  Decimal_of_str bank_balance = Some b →
  places k → finite_at k b → finite_at k (initial_balance (self w)) →
  amounts_at k (objects w) (transactions (self w)) →
  Z.abs (units k b) + Z.abs (units k (initial_balance (self w)))
  + 2 * magnitude k (objects w) (transactions (self w)) < 10 ^ 28 →
  let objs := objects w in
  let ts := transactions (self w) in
  ∃ r reg,
    reconcile bank_balance w = Ok (r, w) ∧
    register_balance w = Ok (reg, w) ∧
    rec_bank_balance r = b ∧
    rec_register_balance r = reg ∧
    Forall (finite_at k)
      [rec_uncleared_checks r; rec_uncleared_deposits r;
       rec_ending_balance r; reg; rec_difference r] ∧
    units k (rec_uncleared_checks r)
      = total ((λ t, - amount_units k objs t) <$>
               filter (λ t, cleared (objs t) = false
                            ∧ amount_units k objs t < 0) ts) ∧
    units k (rec_uncleared_deposits r)
      = total (amount_units k objs <$>
               filter (λ t, cleared (objs t) = false
                            ∧ 0 < amount_units k objs t) ts) ∧
    units k (rec_ending_balance r)
      = units k b - units k (rec_uncleared_checks r)
        + units k (rec_uncleared_deposits r) ∧
    units k reg
      = units k (initial_balance (self w)) + total (amount_units k objs <$> ts) ∧
    units k (rec_difference r) = units k (rec_ending_balance r) - units k reg.
Proof.
  intros Hb Hk Hfb Hib Hat Hfit objs ts.
  set (debit := λ t, cleared (objs t) = false ∧ amount_units k objs t < 0).
  set (credit := λ t, cleared (objs t) = false ∧ 0 < amount_units k objs t).
  pose proof (total_abs_nonneg (amount_units k objs) ts) as Hnn.
  pose proof (total_abs_disjoint (amount_units k objs) debit credit ts)
    as Hdis.
  unfold magnitude in Hfit. fold objs ts in Hfit, Hat, Hdis.
  assert (total ((λ t, Z.abs (amount_units k objs t)) <$> filter debit ts)
          + total ((λ t, Z.abs (amount_units k objs t)) <$> filter credit ts)
          ≤ total ((λ t, Z.abs (amount_units k objs t)) <$> ts)) as Hdc.
  { apply Hdis. unfold debit, credit. intros t [_ ?] [_ ?]. lia. }
  pose proof (total_abs_nonneg (amount_units k objs) (filter debit ts)).
  pose proof (total_abs_nonneg (amount_units k objs) (filter credit ts)).
  destruct (sum_generator_exact k (is_uncleared_check objs)
              (λ t, d ← amount_of objs t; Decimal_neg d)
              debit (λ t, - amount_units k objs t) ts Decimal_0 Hk)
    as (checks & Hchecks & Hfc & Huc & _).
  { apply Forall_forall. intros t Ht.
    split; [by apply (is_uncleared_check_exact k objs ts)|]. intros _.
    destruct (amounts_at_elem k objs ts t Hat Ht) as [-> Hf].
    cbn [mbind result_bind].
    destruct (Decimal_neg_exact k (amount_value objs t) Hk Hf)
      as (y & -> & Hy & Huy & _).
    - pose proof (total_abs_elem (amount_units k objs) ts t Ht).
      unfold amount_units in *. lia.
    - by exists y. }
  { by apply finite_at_Decimal_0. }
  { rewrite units_Decimal_0.
    rewrite (list_fmap_ext _ (λ t, Z.abs (amount_units k objs t)))
      by (intros; simpl; lia). lia. }
  rewrite units_Decimal_0 in Huc.
  destruct (sum_generator_exact k (is_uncleared_deposit objs)
              (amount_of objs) credit (amount_units k objs) ts Decimal_0 Hk)
    as (deposits & Hdeposits & Hfd & Hud & _).
  { apply Forall_forall. intros t Ht.
    split; [by apply (is_uncleared_deposit_exact k objs ts)|]. intros _.
    destruct (amounts_at_elem k objs ts t Hat Ht) as [-> Hf]. by eexists. }
  { by apply finite_at_Decimal_0. }
  { rewrite units_Decimal_0. lia. }
  rewrite units_Decimal_0 in Hud.
  pose proof (total_abs_le (λ t, - amount_units k objs t) (filter debit ts))
    as Hlc.
  rewrite (list_fmap_ext (λ t, Z.abs (- amount_units k objs t))
             (λ t, Z.abs (amount_units k objs t))) in Hlc
    by (intros; simpl; lia).
  pose proof (total_abs_le (amount_units k objs) (filter credit ts)) as Hld.
  pose proof (total_abs_le (amount_units k objs) ts) as Hla.
  destruct (Decimal_sub_exact k b checks Hk Hfb Hfc)
    as (less & Hless & Hfl & Hul); [lia|].
  destruct (Decimal_add_exact k less deposits Hk Hfl Hfd)
    as (ending & Hending & Hfe & Hue & _); [lia|].
  destruct (register_balance_exact k w Hk Hib Hat) as (reg & Hreg & Hfr & Hur).
  { unfold magnitude. fold objs ts. lia. }
  fold objs ts in Hur.
  destruct (Decimal_sub_exact k ending reg Hk Hfe Hfr)
    as (difference & Hdiff & Hfdiff & Hudiff); [lia|].
  eexists _, reg. split.
  { unfold reconcile, to_Decimal. rewrite Hb. cbn [mbind result_bind].
    fold objs ts. rewrite Hchecks. cbn [mbind result_bind].
    rewrite Hdeposits. cbn [mbind result_bind].
    rewrite Hless. cbn [mbind result_bind].
    rewrite Hending. cbn [mbind result_bind].
    rewrite Hreg. cbn [mbind result_bind].
    rewrite Hdiff. cbn [mbind result_bind].
    rewrite Hreg. cbn [mbind result_bind]. reflexivity. }
  split; [exact Hreg|]. simpl.
  split; [done|]. split; [done|]. split.
  { repeat (apply Forall_cons; split; [done|]). constructor. }
  split; [lia|]. split; [lia|]. split; [lia|]. split; lia.
Qed.

(** The uncleared debits and credits among the stored transactions. *)
Definition uncleared_debits (k : Z) (objs : store) (acct : Account)
    : list ref :=
  filter (λ t, deleted (objs t) = false ∧ cleared (objs t) = false
               ∧ amount_units k objs t < 0) (stored acct).
Definition uncleared_credits (k : Z) (objs : store) (acct : Account)
    : list ref :=
  filter (λ t, deleted (objs t) = false ∧ cleared (objs t) = false
               ∧ 0 < amount_units k objs t) (stored acct).

Lemma filter_kept (objs : store) (acct : Account) (P : ref → Prop)
    `{!∀ t, Decision (P t)} :
  filter P (kept objs acct) =
    filter (λ t, deleted (objs t) = false ∧ P t) (stored acct).
Proof.
  unfold kept. rewrite list_filter_filter.
  apply list_filter_iff. intros t. split; intros [??]; by split.
Qed.


(** C1. For every ledger and bank balance whose amounts fit the precision,
    [reconcile] returns as uncleared checks the sum of the negated amounts
    of the non-deleted uncleared transactions of strictly negative amount,
    as uncleared deposits the sum of the amounts of those of strictly
    positive amount, as ending balance the bank balance minus the checks
    plus the deposits, and as difference the ending balance minus the
    register balance.  A transaction of amount zero is in neither sum, and
    is still among the transactions the register balance adds up.  The
    amounts fit when the bank balance, the initial balance and every
    visible amount are numbers of at most [k] decimal places and, counted
    in units of [10^-k], the absolute values of the two balances plus
    twice those of the amounts stay below [10^28]: no sum is then rounded
    to the 28 digits of the context. *)
Theorem reconcile_spec (k : Z) (w : world) (bank_balance : string)
    (b : Decimal) :
  view_ok w →
  Decimal_of_str bank_balance = Some b →
  places k → finite_at k b → finite_at k (initial_balance (self w)) →
  amounts_at k (objects w) (transactions (self w)) →
  Z.abs (units k b) + Z.abs (units k (initial_balance (self w)))
  + 2 * magnitude k (objects w) (transactions (self w)) < 10 ^ 28 →
  let objs := objects w in
  let acct := account (self w) in
  ∃ r reg,
    reconcile bank_balance w = Ok (r, w) ∧
    register_balance w = Ok (reg, w) ∧
    rec_bank_balance r = b ∧
    Forall (finite_at k)
      [rec_uncleared_checks r; rec_uncleared_deposits r;
       rec_ending_balance r; reg; rec_difference r] ∧
    units k (rec_uncleared_checks r) =
      total ((λ t, - amount_units k objs t) <$> uncleared_debits k objs acct) ∧
    units k (rec_uncleared_deposits r) =
      total (amount_units k objs <$> uncleared_credits k objs acct) ∧
    units k (rec_ending_balance r) =
      units k b - units k (rec_uncleared_checks r)
      + units k (rec_uncleared_deposits r) ∧
    rec_register_balance r = reg ∧
    units k (rec_difference r) = units k (rec_ending_balance r) - units k reg ∧
    ∀ t, amount_units k objs t = 0 →
      (t ∉ uncleared_debits k objs acct) ∧
      (t ∉ uncleared_credits k objs acct) ∧
      (t ∈ stored acct → deleted (objs t) = false →
       t ∈ transactions (self w) ∧
       units k reg = units k (initial_balance (self w))
                     + total (amount_units k objs <$> transactions (self w))).
Proof.
  intros Hview Hb Hk Hfb Hib Hat Hfit objs acct.
  destruct (reconcile_exact k w bank_balance b Hb Hk Hfb Hib Hat Hfit)
    as (r & reg & Hr & Hreg & Hbank & Hrr & Hfin & Hc & Hd & He & Hu & Hdf).
  exists r, reg. fold objs in Hc, Hd, Hu.
  rewrite Hview in Hc, Hd. rewrite !filter_kept in Hc, Hd.
  do 9 (split; [done|]).
  intros t Ht. split; [|split].
  - unfold uncleared_debits. rewrite list_elem_of_filter.
    intros [(_ & _ & Hlt) _]. lia.
  - unfold uncleared_credits. rewrite list_elem_of_filter.
    intros [(_ & _ & Hlt) _]. lia.
  - intros Hin Hdel. split; [|done].
    rewrite Hview. unfold kept. by rewrite list_elem_of_filter.
Qed.



(** *** The view invariant *)

Lemma Ledger_init_view_ok (objs : store) (next : ref) (acct : Account)
    (L : Ledger) :
  Ledger_init objs acct = Ok L → view_ok (World objs next L).
Proof.
  unfold Ledger_init, to_Decimal.
  destruct (Decimal_of_str _); simpl; [|done]. by intros [= <-].
Qed.

Lemma add_transaction_view_ok (w w' : world) (t : ref) :
  view_ok w → deleted (objects w t) = false →
  add_transaction t w = Ok (tt, w') → view_ok w'.
Proof.
  unfold view_ok, kept. intros Hv Hd [= <-]. simpl.
  unfold stored at 1. simpl. rewrite filter_app, <- Hv.
  rewrite filter_cons, decide_True by done. done.
Qed.

Lemma delete_NoDup (l : list ref) (k : nat) (t : ref) :
  NoDup l → l !! k = Some t → delete k l = filter (λ x, x ≠ t) l.
Proof.
  intros Hnd. revert k. induction Hnd as [|x l Hx Hnd IH]; intros k Hk; [done|].
  rewrite filter_cons. destruct k as [|k]; simpl in *.
  - injection Hk as ->. rewrite decide_False by (intros Hn; by apply Hn).
    symmetry. apply filter_all, Forall_forall. by intros y Hy ->.
  - rewrite decide_True; [by rewrite (IH k)|].
    intros ->. apply Hx. by eapply list_elem_of_lookup_2.
Qed.

(** *** Indexing *)

Lemma index_Ok {A} (l : list A) (i : Z) :
  - len l ≤ i < len l →
  ∃ x, l !! Z.to_nat (position (len l) i) = Some x ∧ index l i = Ok x.
Proof.
  intros Hi. unfold index.
  assert (0 ≤ position (len l) i < len l) as Hp.
  { unfold position. case_bool_decide; lia. }
  rewrite bool_decide_eq_true_2 by lia.
  destruct (lookup_lt_is_Some_2 l (Z.to_nat (position (len l) i))) as [x Hx].
  { unfold len in *. lia. }
  exists x. by rewrite Hx.
Qed.

Lemma index_Raise {A} (l : list A) (i : Z) :
  ¬ (- len l ≤ i < len l) → index l i = Raise (IndexError i).
Proof.
  intros Hi. unfold index, position.
  case_bool_decide; case_bool_decide; try done.
  - rewrite lookup_ge_None_2; [done|]. unfold len in *. lia.
  - rewrite lookup_ge_None_2; [done|]. unfold len in *. lia.
Qed.

Lemma index_nonneg {A} (l : list A) (i : Z) (x : A) :
  0 ≤ i → l !! Z.to_nat i = Some x → index l i = Ok x.
Proof.
  intros Hi Hx. unfold index, position.
  rewrite (bool_decide_eq_false_2 (i < 0)) by lia.
  rewrite bool_decide_eq_true_2 by lia. by rewrite Hx.
Qed.

(** C4, as the code has it.  [delete_transaction(idx)] takes the index the
    way a Python list does: for [-n <= idx < n], with [n] the length of the
    visible list and a negative [idx] counting from the end, it marks the
    transaction at that position deleted in the object store that the
    account's stored list also refers to, removes that position from the
    visible list and leaves the stored list as it was; for any other [idx]
    it raises [IndexError]. *)
Theorem delete_transaction_spec (w : world) (idx : Z) :
  let n := len (transactions (self w)) in
  let k := Z.to_nat (if bool_decide (idx < 0) then idx + n else idx) in
  if bool_decide (- n ≤ idx < n) then
    ∃ t w',
      transactions (self w) !! k = Some t ∧
      delete_transaction idx w = Ok (tt, w') ∧
      objects w' t = set_deleted true (objects w t) ∧
      (∀ r, r ≠ t → objects w' r = objects w r) ∧
      transactions (self w') = delete k (transactions (self w)) ∧
      account (self w') = account (self w) ∧
      initial_balance (self w') = initial_balance (self w)
  else delete_transaction idx w = Raise (IndexError idx).
Proof.
  intros n k. case_bool_decide as Hi.
  - destruct (index_Ok (transactions (self w)) idx Hi) as (t & Hk & Ht).
    exists t. eexists. split; [exact Hk|]. split.
    { unfold delete_transaction, pop. rewrite Ht. simpl. reflexivity. }
    simpl. split; [apply fn_lookup_insert|].
    split; [|done]. intros r Hr. by apply fn_lookup_insert_ne.
  - unfold delete_transaction. by rewrite index_Raise.
Qed.

(** What a call of [delete_transaction] that returns has done. *)
Lemma delete_transaction_Ok (w w' : world) (idx : Z) :
  delete_transaction idx w = Ok (tt, w') →
  ∃ t, transactions (self w)
         !! Z.to_nat (position (len (transactions (self w))) idx) = Some t ∧
       w' = World (<[t := set_deleted true (objects w t)]> (objects w))
              (next_ref w)
              {| account := account (self w);
                 transactions :=
                   delete (Z.to_nat (position (len (transactions (self w))) idx))
                          (transactions (self w));
                 initial_balance := initial_balance (self w) |}.
Proof.
  intros Hdel.
  destruct (decide (- len (transactions (self w)) ≤ idx
                    < len (transactions (self w)))) as [Hi|Hi].
  - destruct (index_Ok (transactions (self w)) idx Hi) as (t & Hk & Ht).
    exists t. split; [exact Hk|].
    unfold delete_transaction, pop in Hdel. rewrite Ht in Hdel. simpl in Hdel.
    by injection Hdel as <-.
  - unfold delete_transaction in Hdel. by rewrite index_Raise in Hdel.
Qed.

(** After a deletion by a valid index the transaction is no longer visible,
    and the view invariant still holds when no dict is stored twice. *)
Lemma delete_transaction_view_ok (w w' : world) (idx : Z) :
  view_ok w → NoDup (stored (account (self w))) →
  delete_transaction idx w = Ok (tt, w') → view_ok w'.
Proof.
  intros Hv Hnd Hdel.
  destruct (delete_transaction_Ok _ _ _ Hdel) as (t & Hk & ->).
  unfold view_ok, kept in *. simpl.
  rewrite (delete_NoDup _ _ t); [|rewrite Hv; by apply NoDup_filter|done].
  rewrite Hv, list_filter_filter. apply list_filter_iff. intros r.
  destruct (decide (r = t)) as [->|Hne].
  - rewrite fn_lookup_insert. simpl. split; [by intros [? _]|done].
  - rewrite fn_lookup_insert_ne by done. split; [by intros [_ ?]|by intros ?].
Qed.

(** The reference [new_dict] returns is not in a list of allocated ones. *)
Lemma new_dict_fresh (w : world) (o : transaction) (l : list ref) :
  Forall (λ r, (r < next_ref w)%nat) l → (new_dict o w).1 ∉ l.
Proof.
  intros Hl Hin. simpl in Hin.
  rewrite Forall_forall in Hl. specialize (Hl _ Hin). lia.
Qed.



(** ** The interactive session: jumps between uncleared transactions *)

(** Position [i] of the list shows an uncleared transaction. *)
Definition uncleared (s : session) (i : Z) : Prop :=
  (λ t, cleared (objects (ledger s) t)) <$> txns s !! Z.to_nat i = Some false.
Global Instance uncleared_dec (s : session) (i : Z) : Decision (uncleared s i).
Proof. unfold uncleared. apply _. Defined.

(** The positions of a list of length [n] in circular order, from the one
    after [i] round to [i] itself, and from the one before [i] back round
    to [i] itself. *)
Definition circular_forward (n i : Z) : list Z :=
  (λ k, (i + 1 + k) `mod` n) <$> seqZ 0 n.
Definition circular_backward (n i : Z) : list Z :=
  (λ k, (i - 1 - k) `mod` n) <$> seqZ 0 n.

(** The session after a scan that found [found], if anything. *)
Definition moved (s : session) (found : option (nat * Z)) : session :=
  match found with
  | Some (_, i) => idx_set i s
  | None => s
  end.

Lemma scan_uncleared_find (s : session) (order : list Z) :
  Forall (λ i, 0 ≤ i < len (txns s)) order →
  scan_uncleared s order = Ok (snd <$> list_find (uncleared s) order).
Proof.
  induction 1 as [|i order Hi _ IH]; [done|].
  destruct (lookup_lt_is_Some_2 (txns s) (Z.to_nat i)) as [t Ht].
  { unfold len in Hi. lia. }
  cbn [scan_uncleared list_find]. rewrite (index_nonneg _ _ t) by (done || lia).
  assert (uncleared s i ↔ cleared (objects (ledger s) t) = false) as Hu.
  { unfold uncleared. rewrite Ht. simpl.
    split; [by intros [= ->] | by intros ->]. }
  simpl. destruct (cleared (objects (ledger s) t)); simpl.
  - rewrite decide_False by (by rewrite Hu). rewrite IH.
    by destruct (list_find (uncleared s) order) as [[??]|].
  - by rewrite decide_True by (by rewrite Hu).
Qed.

Lemma jump_scan (s : session) (r1 r2 : list Z) :
  Forall (λ i, 0 ≤ i < len (txns s)) r1 →
  Forall (λ i, 0 ≤ i < len (txns s)) r2 →
  (r ← scan_uncleared s r1;
   match r with
   | Some i => Ok (idx_set i s)
   | None =>
       r ← scan_uncleared s r2;
       match r with
       | Some i => Ok (idx_set i s)
       | None => Ok s
       end
   end) = Ok (moved s (list_find (uncleared s) (r1 ++ r2))).
Proof.
  intros H1 H2. rewrite (scan_uncleared_find _ _ H1).
  destruct (list_find (uncleared s) r1) as [[p i]|] eqn:Hf; simpl.
  - by rewrite (list_find_app_l _ _ _ _ _ Hf).
  - rewrite (scan_uncleared_find _ _ H2), (list_find_app_r _ _ _ Hf).
    by destruct (list_find (uncleared s) r2) as [[??]|].
Qed.

Lemma reverse_seqZ (a m : Z) :
  reverse (seqZ a m) = (λ k, 2 * a + m - 1 - k) <$> seqZ a m.
Proof.
  apply list_eq. intros j.
  destruct (decide (j < Z.to_nat m)%nat) as [Hj|Hj].
  - rewrite reverse_lookup by (by rewrite length_seqZ).
    rewrite list_lookup_fmap, length_seqZ, !lookup_seqZ_lt by lia.
    simpl. f_equal. lia.
  - rewrite !lookup_ge_None_2; [done|..].
    + rewrite length_fmap, length_seqZ. lia.
    + rewrite length_reverse, length_seqZ. lia.
Qed.

Lemma fmap_seqZ_ext (f g : Z → Z) (a m : Z) :
  (∀ k, a ≤ k < a + m → f k = g k) → f <$> seqZ a m = g <$> seqZ a m.
Proof.
  intros Hfg. apply list_fmap_ext. intros j k Hk.
  apply Hfg. apply elem_of_seqZ. by eapply list_elem_of_lookup_2.
Qed.

Lemma seqZ_fmap_add (a m : Z) : seqZ a m = Z.add a <$> seqZ 0 m.
Proof. by rewrite fmap_add_seqZ, Z.add_0_r. Qed.

Lemma range_circular_forward (n i : Z) :
  0 ≤ i < n → (range (i + 1) n ++ range 0 (i + 1))%list = circular_forward n i.
Proof.
  intros Hi. unfold circular_forward, range.
  replace (seqZ 0 n) with (seqZ 0 ((n - (i + 1)) + (i + 1 - 0)))
    by (f_equal; lia).
  rewrite seqZ_app, fmap_app by lia. f_equal.
  - rewrite (seqZ_fmap_add (i + 1)).
    apply fmap_seqZ_ext. intros k Hk. by rewrite Z.mod_small by lia.
  - rewrite (seqZ_fmap_add (0 + _)), <- list_fmap_compose.
    rewrite <- (list_fmap_id (seqZ 0 (i + 1 - 0))) at 1.
    apply fmap_seqZ_ext. intros k Hk. simpl.
    replace (i + 1 + (0 + (n - (i + 1)) + k)) with (k + 1 * n) by lia.
    by rewrite Z_mod_plus_full, Z.mod_small by lia.
Qed.

Lemma range_circular_backward (n i : Z) :
  0 ≤ i < n →
  (range_down (i - 1) (-1) ++ range_down (n - 1) (i - 1))%list
  = circular_backward n i.
Proof.
  intros Hi. unfold circular_backward, range_down.
  replace (seqZ 0 n) with (seqZ 0 (i + (n - i))) by (f_equal; lia).
  rewrite seqZ_app, fmap_app, !reverse_seqZ by lia. f_equal.
  - replace (i - 1 - -1) with i by lia. apply fmap_seqZ_ext.
    intros k Hk. rewrite Z.mod_small by lia. lia.
  - replace (i - 1 + 1) with (0 + i) by lia.
    replace (n - 1 - (i - 1)) with (n - i) by lia.
    apply fmap_seqZ_ext. intros k Hk.
    replace (i - 1 - k) with (i - 1 - k + n + (-1) * n) by lia.
    rewrite Z_mod_plus_full, Z.mod_small by lia. lia.
Qed.

Lemma jump_next_uncleared_ok (s : session) :
  0 ≤ idx s < len (txns s) →
  jump_next_uncleared s =
    Ok (moved s (list_find (uncleared s)
                   (circular_forward (len (txns s)) (idx s)))).
Proof.
  intros Hi. unfold jump_next_uncleared.
  rewrite jump_scan, range_circular_forward; [done..| |];
    unfold range; apply Forall_seqZ; lia.
Qed.

Lemma jump_prev_uncleared_ok (s : session) :
  0 ≤ idx s < len (txns s) →
  jump_prev_uncleared s =
    Ok (moved s (list_find (uncleared s)
                   (circular_backward (len (txns s)) (idx s)))).
Proof.
  intros Hi. unfold jump_prev_uncleared.
  rewrite jump_scan, range_circular_backward; [done..| |];
    unfold range_down; apply Forall_reverse, Forall_seqZ; lia.
Qed.

Lemma circular_forward_Permutation (n i : Z) :
  0 ≤ i < n → circular_forward n i ≡ₚ seqZ 0 n.
Proof.
  intros Hi. rewrite <- range_circular_forward by done. unfold range.
  rewrite (comm (++)), Z.sub_0_r.
  replace (seqZ (i + 1) (n - (i + 1))) with (seqZ (0 + (i + 1)) (n - (i + 1)))
    by (f_equal; lia).
  rewrite <- seqZ_app by lia. by replace (i + 1 + (n - (i + 1))) with n by lia.
Qed.

Lemma circular_backward_Permutation (n i : Z) :
  0 ≤ i < n → circular_backward n i ≡ₚ seqZ 0 n.
Proof.
  intros Hi. rewrite <- range_circular_backward by done. unfold range_down.
  rewrite !reverse_Permutation.
  replace (-1 + 1) with 0 by lia. replace (i - 1 - -1) with i by lia.
  replace (i - 1 + 1) with (0 + i) by lia.
  rewrite <- seqZ_app by lia. by replace (i + (n - 1 - (i - 1))) with n by lia.
Qed.

Lemma last_fmap_seqZ (f : Z → Z) (m : Z) :
  0 < m → last (f <$> seqZ 0 m) = Some (f (m - 1)).
Proof.
  intros Hm. replace m with (Z.of_nat (S (Z.to_nat (m - 1)))) at 1 by lia.
  rewrite seqZ_S, fmap_app. simpl. rewrite last_snoc. do 2 f_equal. lia.
Qed.

Lemma moved_found (s : session) (order : list Z) :
  (∃ i, i ∈ order ∧ uncleared s i) →
  let s' := moved s (list_find (uncleared s) order) in
  idx s' ∈ order ∧ uncleared s (idx s') ∧ scroll s' = idx s'.
Proof.
  intros (i & Hi & Hu). simpl.
  destruct (list_find_elem_of (uncleared s) order i Hi Hu) as [[p j] Hf].
  rewrite Hf. apply list_find_Some in Hf as (Hj & Huj & _). simpl.
  split; [by eapply list_elem_of_lookup_2|done].
Qed.

Lemma moved_none (s : session) (order : list Z) :
  (∀ i, i ∈ order → ¬ uncleared s i) →
  moved s (list_find (uncleared s) order) = s.
Proof.
  intros Hn. rewrite (proj2 (list_find_None (uncleared s) order)); [done|].
  by apply Forall_forall.
Qed.

(** C6. On a non-empty ledger with the cursor on a transaction, the jump to
    the next (previous) uncleared transaction looks at the positions in
    circular order, forward (backward) from the one after (before) the
    cursor, once round the whole list, the cursor's own position coming
    last.  It sets the cursor and the scroll offset to the first position
    found uncleared; when no transaction is uncleared the session is left
    as it was.  In particular the jump forward from the last uncleared
    transaction lands on the first uncleared one of the list, and the jump
    backward from the first on the last.  Both commands return. *)
Theorem jump_uncleared_spec (s : session) :
  0 ≤ idx s < len (txns s) →
  let n := len (txns s) in
  let fwd := circular_forward n (idx s) in
  let bwd := circular_backward n (idx s) in
  let s_next := moved s (list_find (uncleared s) fwd) in
  let s_prev := moved s (list_find (uncleared s) bwd) in
  jump_next_uncleared s = Ok s_next ∧
  jump_prev_uncleared s = Ok s_prev ∧
  fwd ≡ₚ seqZ 0 n ∧ bwd ≡ₚ seqZ 0 n ∧
  last fwd = Some (idx s) ∧ last bwd = Some (idx s) ∧
  ((∃ i, 0 ≤ i < n ∧ uncleared s i) →
   uncleared s (idx s_next) ∧ scroll s_next = idx s_next ∧
   uncleared s (idx s_prev) ∧ scroll s_prev = idx s_prev) ∧
  ((∀ i, 0 ≤ i < n → ¬ uncleared s i) → s_next = s ∧ s_prev = s) ∧
  (uncleared s (idx s) → (∀ j, idx s < j < n → ¬ uncleared s j) →
   ∀ j, 0 ≤ j < idx s_next → ¬ uncleared s j) ∧
  (uncleared s (idx s) → (∀ j, 0 ≤ j < idx s → ¬ uncleared s j) →
   ∀ j, idx s_prev < j < n → ¬ uncleared s j).
Proof.
  intros Hi n fwd bwd s_next s_prev.
  pose proof (circular_forward_Permutation n (idx s) Hi) as Hpf.
  pose proof (circular_backward_Permutation n (idx s) Hi) as Hpb.
  assert (∀ i, i ∈ fwd ↔ 0 ≤ i < n) as Hfwd.
  { intros i. unfold fwd. rewrite Hpf, elem_of_seqZ. lia. }
  assert (∀ i, i ∈ bwd ↔ 0 ≤ i < n) as Hbwd.
  { intros i. unfold bwd. rewrite Hpb, elem_of_seqZ. lia. }
  split; [by apply jump_next_uncleared_ok|].
  split; [by apply jump_prev_uncleared_ok|].
  split; [done|]. split; [done|]. split; [|split; [|split; [|split; [|split]]]].
  - unfold fwd, circular_forward. rewrite last_fmap_seqZ by lia. f_equal.
    replace (idx s + 1 + (n - 1)) with (idx s + 1 * n) by lia.
    by rewrite Z_mod_plus_full, Z.mod_small.
  - unfold bwd, circular_backward. rewrite last_fmap_seqZ by lia. f_equal.
    replace (idx s - 1 - (n - 1)) with (idx s + (-1) * n) by lia.
    by rewrite Z_mod_plus_full, Z.mod_small.
  - intros (i & Hin & Hu).
    destruct (moved_found s fwd) as (_ & ? & ?); [exists i; by rewrite Hfwd|].
    destruct (moved_found s bwd) as (_ & ? & ?); [exists i; by rewrite Hbwd|].
    done.
  - intros Hn. split; apply moved_none; intros i ?; apply Hn.
    + by apply Hfwd.
    + by apply Hbwd.
  - intros Hu Hafter j Hj Huj. revert Hj.
    subst s_next s_prev. unfold fwd.
    rewrite <- range_circular_forward by done.
    rewrite list_find_app_r.
    2:{ apply list_find_None, Forall_seqZ. intros k Hk. apply Hafter. lia. }
    unfold range.
    destruct (list_find (uncleared s) (seqZ 0 (idx s + 1 - 0)))
      as [[p i0]|] eqn:Hf; simpl.
    + apply list_find_Some in Hf as (Hp & _ & Hmin).
      apply lookup_seqZ in Hp as [-> Hp]. intros Hj.
      apply (Hmin (Z.to_nat j) j); [|lia|done].
      apply lookup_seqZ. lia.
    + apply list_find_None in Hf. rewrite Forall_seqZ in Hf.
      intros Hj. apply (Hf j); [lia|done].
  - intros Hu Hbefore j Hj Huj. revert Hj.
    subst s_next s_prev. unfold bwd.
    rewrite <- range_circular_backward by done.
    rewrite list_find_app_r.
    2:{ apply list_find_None, Forall_reverse, Forall_seqZ.
        intros k Hk. apply Hbefore. lia. }
    unfold range_down. rewrite (reverse_seqZ (idx s - 1 + 1)).
    destruct (list_find (uncleared s) (_ <$> seqZ (idx s - 1 + 1) _))
      as [[p i0]|] eqn:Hf; simpl.
    + apply list_find_Some in Hf as (Hp & _ & Hmin).
      rewrite list_lookup_fmap in Hp.
      destruct (seqZ _ _ !! p) as [k|] eqn:Hk; [|done].
      injection Hp as <-. apply lookup_seqZ in Hk as [-> Hk]. intros Hj.
      apply (Hmin (Z.to_nat (n - 1 - j)) j); [|lia|done].
      rewrite list_lookup_fmap, lookup_seqZ_lt by lia. simpl. f_equal. lia.
    + apply list_find_None in Hf. rewrite Forall_fmap, Forall_seqZ in Hf.
      intros Hj. apply (Hf (n + idx s - 1 - j)); [lia|].
      simpl. by replace (2 * (idx s - 1 + 1) + (n - 1 - (idx s - 1)) - 1
                         - (n + idx s - 1 - j)) with j by lia.
Qed.

(** ** The interactive session: find *)

(** The transaction at position [i] matches the search term. *)
Definition hit (search : string) (s : session) (i : Z) : Prop :=
  (λ t, matches search (objects (ledger s) t)) <$> txns s !! Z.to_nat i
  = Some true.
Global Instance hit_dec (search : string) (s : session) (i : Z) :
  Decision (hit search s i).
Proof. unfold hit. apply _. Defined.

Lemma moved_prod_map (s : session) (f : nat → nat) (o : option (nat * Z)) :
  moved s (prod_map f id <$> o) = moved s o.
Proof. by destruct o as [[??]|]. Qed.

(** The loop from [start] on: it looks at the positions from [start] to the
    end, then, unless it has wrapped already, at the whole list from 0. *)
Lemma find_next_loop_ok (search : string) (s : session) (fuel : nat)
    (start : Z) (wrapped : bool) :
  0 < len (txns s) → 0 ≤ start →
  (Z.to_nat (len (txns s) - start)
   + (if wrapped then 0 else Z.to_nat (len (txns s))) < fuel)%nat →
  find_next_loop fuel search start wrapped s =
    Some (Ok (moved s (list_find (hit search s)
                (range start (len (txns s))
                 ++ (if wrapped then [] else range 0 (len (txns s))))))).
Proof.
  intros Hn. revert start wrapped.
  assert (∀ i, 0 ≤ i < len (txns s) →
            ∃ t, index (txns s) i = Ok t ∧
                 (hit search s i ↔ matches search (objects (ledger s) t) = true))
    as Hidx.
  { intros i Hi.
    destruct (lookup_lt_is_Some_2 (txns s) (Z.to_nat i)) as [t Ht].
    { unfold len in Hi. lia. }
    exists t. split; [apply index_nonneg; [lia|done]|].
    unfold hit. rewrite Ht. simpl. split; [by intros [= ->] | by intros ->]. }
  induction fuel as [|fuel IH]; intros start wrapped Hs Hfuel; [lia|].
  cbn [find_next_loop]. unfold range in *. case_bool_decide as Hge.
  - rewrite (seqZ_nil start) by lia. destruct wrapped; [done|].
    destruct (Hidx 0) as (t & -> & Ht); [lia|].
    rewrite (seqZ_cons 0) by lia. cbn [app list_find].
    destruct (matches search (objects (ledger s) t)) eqn:Hm.
    + by rewrite decide_True by (by apply Ht).
    + rewrite decide_False by (rewrite Ht; done).
      rewrite moved_prod_map, IH by lia.
      rewrite app_nil_r.
      replace (Z.succ 0) with (0 + 1) by lia.
      by replace (Z.pred (len (txns s) - 0))
        with (len (txns s) - (0 + 1)) by lia.
  - destruct (Hidx start) as (t & -> & Ht); [lia|].
    rewrite (seqZ_cons start) by lia. cbn [app list_find].
    destruct (matches search (objects (ledger s) t)) eqn:Hm.
    + by rewrite decide_True by (by apply Ht).
    + rewrite decide_False by (rewrite Ht; done).
      rewrite moved_prod_map, IH by (destruct wrapped; lia).
      replace (Z.succ start) with (start + 1) by lia.
      by replace (Z.pred (len (txns s) - start))
        with (len (txns s) - (start + 1)) by lia.
Qed.

(** C10. On a non-empty ledger [find_next] returns, whatever the search
    term: with fuel for twice the length of the list and one more round it
    has looked at the positions after the cursor up to the end and then
    once at the whole list from the top, passing the end a single time, and
    it has set the cursor on the first match or left the session as it was.
    On an empty ledger it raises [IndexError] for the subscript 0 of the
    empty list; it does not return the session unchanged. *)
Theorem find_next_spec (search : string) (s : session) (fuel : nat) :
  -1 ≤ idx s →
  (2 * length (txns s) + 1 ≤ fuel)%nat →
  let n := len (txns s) in
  (0 < n →
   find_next fuel search s =
     Some (Ok (moved s (list_find (hit search s)
                          (range (idx s + 1) n ++ range 0 n))))) ∧
  (n = 0 →
   find_next fuel search s = Some (Raise (IndexError 0)) ∧
   find_next fuel search s ≠ Some (Ok s)).
Proof.
  intros Hi Hfuel n. split.
  - intros Hn. unfold find_next. apply find_next_loop_ok; [done|lia|].
    unfold n, len in *. lia.
  - intros Hn. unfold find_next. destruct fuel as [|fuel]; [lia|].
    cbn [find_next_loop]. fold n. rewrite Hn.
    rewrite bool_decide_eq_true_2 by lia.
    assert (index (txns s) 0 = Raise (IndexError 0)) as ->; [|done].
    apply index_Raise. fold n. lia.
Qed.


(** ** The category report *)

(** The bounds of the report: an absent or empty bound admits any date;
    dates are compared as the program compares them, as text. *)
Definition from_start (start : option string) (d : string) : Prop :=
  match start with
  | Some b => b = "" ∨ String.le b d
  | None => True
  end.
Definition to_end (end_ : option string) (d : string) : Prop :=
  match end_ with
  | Some b => b = "" ∨ String.le d b
  | None => True
  end.
Global Instance from_start_dec start d : Decision (from_start start d).
Proof. destruct start; apply _. Defined.
Global Instance to_end_dec end_ d : Decision (to_end end_ d).
Proof. destruct end_; apply _. Defined.

(** The transactions the report covers: not deleted, dated within the
    bounds, both included. *)
Definition reported (objs : store) (acct : Account)
    (start end_ : option string) : list ref :=
  filter (λ t, deleted (objs t) = false
               ∧ from_start start (date (objs t))
               ∧ to_end end_ (date (objs t))) (stored acct).

Definition category_of (objs : store) (t : ref) : string :=
  or_else (category (objs t)) "Uncategorized".

(** The transactions of [ts] in category [c], and the sum of their amounts
    in units of [10^-k]. *)
Definition in_category (objs : store) (c : string) (ts : list ref)
    : list ref :=
  filter (λ t, category_of objs t = c) ts.

(** The least exponent among [0.00] and the amounts of [ts]. *)
Definition least_exponent (objs : store) (ts : list ref) : Z :=
  foldr Z.min (-2) ((λ t, exponent (amount_value objs t)) <$> ts).

(** [v] is the sum of the amounts of [ts], as the report computes it from
    [Decimal("0.00")]. *)
Definition sums_up (k : Z) (objs : store) (ts : list ref) (v : Decimal)
    : Prop :=
  finite_at k v ∧ proper v
  ∧ units k v = total (amount_units k objs <$> ts)
  ∧ exponent v = least_exponent objs ts.

(** [m] holds the totals of the categories of [ts]. *)
Definition totals_of (k : Z) (objs : store) (ts : list ref)
    (m : gmap string Decimal) : Prop :=
  ∀ c, match m !! c with
       | Some v => in_category objs c ts ≠ []
                   ∧ sums_up k objs (in_category objs c ts) v
       | None => in_category objs c ts = []
       end.

Lemma ltb_false_le (a b : string) : String.ltb a b = false ↔ String.le b a.
Proof.
  unfold String.le, String.ltb, String.leb.
  rewrite (String.compare_antisym b a).
  destruct (String.compare a b); simpl; split; done.
Qed.

Lemma truthy_false (b : string) : truthy b = false ↔ b = "".
Proof. destruct b; simpl; split; done. Qed.

Lemma before_start_false (start : option string) (d : string) :
  before_start start d = false ↔ from_start start d.
Proof.
  destruct start as [b|]; simpl; [|done]. unfold str_lt.
  rewrite andb_false_iff, truthy_false, ltb_false_le. done.
Qed.

Lemma after_end_false (end_ : option string) (d : string) :
  after_end end_ d = false ↔ to_end end_ d.
Proof.
  destruct end_ as [b|]; simpl; [|done]. unfold str_lt.
  rewrite andb_false_iff, truthy_false, ltb_false_le. done.
Qed.

Lemma category_step_out (objs : store) (start end_ : option string)
    (m : gmap string Decimal) (t : ref) :
  ¬ (from_start start (date (objs t)) ∧ to_end end_ (date (objs t))) →
  category_step objs start end_ m t = Ok m.
Proof.
  intros Hn. unfold category_step.
  destruct (before_start start (date (objs t))) eqn:Hs; [done|].
  destruct (after_end end_ (date (objs t))) eqn:He; [done|].
  destruct Hn. by rewrite <- before_start_false, <- after_end_false.
Qed.

Lemma total_Permutation (xs ys : list Z) : xs ≡ₚ ys → total xs = total ys.
Proof.
  induction 1 as [|x xs ys _ IH|x y xs|xs ys zs _ IH1 _ IH2];
    rewrite ?total_cons; try lia; done.
Qed.

Lemma least_exponent_snoc (objs : store) (ts : list ref) (t : ref) :
  least_exponent objs (ts ++ [t])
  = least_exponent objs ts `min` exponent (amount_value objs t).
Proof.
  unfold least_exponent.
  induction ts as [|x ts IH]; cbn [app fmap list_fmap foldr] in *; lia.
Qed.

Lemma least_exponent_le (objs : store) (ts : list ref) :
  least_exponent objs ts ≤ -2.
Proof.
  unfold least_exponent.
  induction ts as [|x ts IH]; cbn [fmap list_fmap foldr] in *; lia.
Qed.


Lemma in_category_snoc (objs : store) (c : string) (ts : list ref) (t : ref) :
  in_category objs c (ts ++ [t])
  = if decide (category_of objs t = c)
    then (in_category objs c ts ++ [t])%list else in_category objs c ts.
Proof.
  unfold in_category. rewrite filter_app, filter_cons.
  case_decide; [done|]. by rewrite filter_nil, app_nil_r.
Qed.

Lemma sums_up_nil (k : Z) (objs : store) :
  places k → 2 ≤ k → sums_up k objs [] Decimal_0_00.
Proof.
  intros Hk H2. unfold sums_up, Decimal_0_00, least_exponent. simpl.
  split; [lia|]. split; [done|]. split; [|done]. unfold signed. simpl. lia.
Qed.

(** Adding the amount of one more transaction to a total. *)
Lemma sums_up_snoc (k : Z) (objs : store) (ts : list ref) (t : ref)
    (a : Decimal) :
  places k → sums_up k objs ts a →
  amount_of objs t = Ok (amount_value objs t) →
  finite_at k (amount_value objs t) →
  magnitude k objs (ts ++ [t]) < 10 ^ 28 →
  ∃ v, Decimal_add a (amount_value objs t) = Ok v
       ∧ sums_up k objs (ts ++ [t]) v.
Proof.
  intros Hk (Hfa & Hpa & Hua & Hea) Hd Hfd Hfit.
  unfold magnitude in Hfit. rewrite fmap_app, total_app in Hfit.
  rewrite fmap_cons, total_cons in Hfit. simpl in Hfit.
  pose proof (total_abs_le (amount_units k objs) ts) as Hle.
  pose proof (least_exponent_le objs ts) as Hex.
  destruct (Decimal_add_exact k a (amount_value objs t) Hk Hfa Hfd)
    as (v & Hv & Hfv & Huv & Hpv & Hev).
  { rewrite Hua. unfold amount_units in *. lia. }
  exists v. split; [done|]. split; [done|]. split; [by apply Hpv|].
  split.
  - rewrite Huv, Hua, fmap_app, total_app, fmap_cons, total_cons. simpl.
    unfold amount_units. change (total []) with 0. lia.
  - rewrite least_exponent_snoc, <- Hea. apply Hev.
    unfold Emax. lia.
Qed.

(** The sum of the totals of a map, in units of [10^-k]. *)
Definition values_units (k : Z) (m : gmap string Decimal) : Z :=
  total (units k <$> (map_to_list m).*2).

Lemma values_units_insert (k : Z) (m : gmap string Decimal) (c : string)
    (v : Decimal) :
  values_units k (<[c := v]> m) = units k v + values_units k (delete c m).
Proof.
  unfold values_units. rewrite <- insert_delete_eq.
  rewrite (total_Permutation _
             (units k <$> ((c, v) :: map_to_list (delete c m)).*2)).
  - by rewrite !fmap_cons, total_cons.
  - apply fmap_Permutation, fmap_Permutation, map_to_list_insert,
      lookup_delete_eq.
Qed.

Lemma values_units_delete (k : Z) (m : gmap string Decimal) (c : string) :
  values_units k m
  = default 0 (units k <$> m !! c) + values_units k (delete c m).
Proof.
  destruct (m !! c) as [v|] eqn:Hc; simpl.
  - rewrite <- (insert_delete_id m c v Hc) at 1.
    rewrite values_units_insert. by rewrite delete_delete_eq.
  - rewrite delete_id by done. lia.
Qed.

(** One round of the loop on a transaction inside the bounds. *)
Lemma category_step_in (k : Z) (objs : store) (start end_ : option string)
    (done_ : list ref) (m : gmap string Decimal) (t : ref) :
  places k → 2 ≤ k →
  from_start start (date (objs t)) → to_end end_ (date (objs t)) →
  amounts_at k objs (done_ ++ [t]) →
  magnitude k objs (done_ ++ [t]) < 10 ^ 28 →
  totals_of k objs done_ m →
  ∃ m', category_step objs start end_ m t = Ok m'
        ∧ totals_of k objs (done_ ++ [t]) m'
        ∧ values_units k m' = values_units k m + amount_units k objs t.
Proof.
  intros Hk H2 Hs He Hat Hfit Hm.
  unfold category_step.
  rewrite (proj2 (before_start_false _ _) Hs), (proj2 (after_end_false _ _) He).
  fold (category_of objs t). set (cat := category_of objs t). cbv zeta.
  destruct (amounts_at_elem k objs (done_ ++ [t]) t Hat) as [Hd Hfd].
  { apply elem_of_app. right. apply list_elem_of_here. }
  rewrite Hd. cbn [mbind result_bind].
  set (totals1 := match m !! cat with
                  | Some _ => m
                  | None => <[cat := Decimal_0_00]> m
                  end).
  assert (sums_up k objs (in_category objs cat done_)
            (default Decimal_0_00 (totals1 !! cat))) as Hsum.
  { pose proof (Hm cat) as Hc. unfold totals1.
    destruct (m !! cat) as [v0|] eqn:Hv0.
    - rewrite Hv0. simpl. by destruct Hc.
    - rewrite lookup_insert_eq. simpl. rewrite Hc. by apply sums_up_nil. }
  assert (magnitude k objs (in_category objs cat done_ ++ [t]) < 10 ^ 28)
    as Hfit'.
  { unfold magnitude in *. rewrite fmap_app, total_app in *.
    pose proof (total_abs_filter (amount_units k objs)
                  (λ t, category_of objs t = cat) done_).
    unfold in_category. lia. }
  destruct (sums_up_snoc k objs _ t _ Hk Hsum Hd Hfd Hfit')
    as (v & Hv & Hsv).
  rewrite Hv. cbn [mbind result_bind].
  eexists. split; [reflexivity|]. split.
  - intros c. rewrite in_category_snoc.
    destruct (decide (category_of objs t = c)) as [Hc|Hc].
    + fold cat in Hc. subst c. rewrite lookup_insert_eq.
      split; [|done]. intros Hnil. by apply app_eq_nil in Hnil as [_ ?].
    + fold cat in Hc. rewrite lookup_insert_ne by done.
      assert (totals1 !! c = m !! c) as ->.
      { unfold totals1. destruct (m !! cat); [done|].
        by rewrite lookup_insert_ne. }
      apply Hm.
  - rewrite values_units_insert, (values_units_delete k m cat).
    assert (delete cat totals1 = delete cat m) as ->.
    { unfold totals1. destruct (m !! cat); [done|].
      by rewrite delete_insert_eq. }
    assert (units k (default Decimal_0_00 (totals1 !! cat))
            = default 0 (units k <$> m !! cat)) as Hua.
    { unfold totals1. destruct (m !! cat) as [v0|] eqn:Hv0.
      - by rewrite Hv0.
      - by rewrite lookup_insert_eq. }
    destruct Hsv as (_ & _ & Huv & _). destruct Hsum as (_ & _ & Hus & _).
    rewrite Huv, fmap_app, total_app, fmap_cons, total_cons, <- Hus, Hua.
    change (total (amount_units k objs <$> [])) with 0. lia.
Qed.

Lemma for_each_category_step (k : Z) (objs : store)
    (start end_ : option string) (ts done_ : list ref)
    (m : gmap string Decimal) :
  let inside := filter (λ t, from_start start (date (objs t))
                             ∧ to_end end_ (date (objs t))) ts in
  places k → 2 ≤ k →
  amounts_at k objs (done_ ++ inside) →
  magnitude k objs (done_ ++ inside) < 10 ^ 28 →
  totals_of k objs done_ m →
  ∃ m', for_each (category_step objs start end_) ts m = Ok m'
        ∧ totals_of k objs (done_ ++ inside) m'
        ∧ values_units k m'
          = values_units k m + total (amount_units k objs <$> inside).
Proof.
  simpl. intros Hk H2. revert done_ m.
  induction ts as [|t ts IH]; intros done_ m Hat Hfit Hm.
  { exists m. rewrite filter_nil, app_nil_r. split; [done|]. split; [done|].
    change (total (amount_units k objs <$> [])) with 0. lia. }
  rewrite filter_cons in *. cbn [for_each]. case_decide as Hin.
  - destruct Hin as [Hs He].
    rewrite cons_middle, app_assoc in Hat, Hfit |- *.
    destruct (category_step_in k objs start end_ done_ m t Hk H2 Hs He)
      as (m1 & -> & Hm1 & Hv1); [| |done|].
    { by apply Forall_app in Hat as [? _]. }
    { unfold magnitude in *. rewrite fmap_app, total_app in Hfit.
      pose proof (total_abs_nonneg (amount_units k objs)
                    (filter (λ t, from_start start (date (objs t))
                                  ∧ to_end end_ (date (objs t))) ts)).
      lia. }
    cbn [mbind result_bind].
    destruct (IH _ m1 Hat Hfit Hm1) as (m' & Hm' & Htot & Hval).
    exists m'. split; [done|]. split; [done|].
    rewrite Hval, Hv1, fmap_cons, total_cons. lia.
  - rewrite category_step_out by done. cbn [mbind result_bind]. by apply IH.
Qed.

Lemma totals_of_nil (k : Z) (objs : store) : totals_of k objs [] ∅.
Proof. intros c. by rewrite lookup_empty. Qed.


Global Instance item_le_trans : Transitive item_le.
Proof. intros x y z. unfold item_le. apply transitivity. Qed.

Global Instance item_le_total : Total item_le.
Proof. intros x y. unfold item_le. apply String.le_total. Qed.


Lemma kept_reported (objs : store) (acct : Account)
    (start end_ : option string) :
  filter (λ t, from_start start (date (objs t))
               ∧ to_end end_ (date (objs t))) (kept objs acct)
  = reported objs acct start end_.
Proof.
  unfold kept, reported. rewrite list_filter_filter.
  apply list_filter_iff. intros t. split; intros [??]; by split.
Qed.

(** The totals the report prints, as a map. *)
Lemma category_report_exact (k : Z) (objs : store) (acct : Account)
    (start end_ : option string) (b0 : Decimal) :
  Decimal_of_str (default "0.00" (acct_initial_balance acct)) = Some b0 →
  places k → 2 ≤ k →
  amounts_at k objs (reported objs acct start end_) →
  magnitude k objs (reported objs acct start end_) < 10 ^ 28 →
  ∃ m, category_report objs acct start end_ = Ok (sorted_items m)
       ∧ totals_of k objs (reported objs acct start end_) m
       ∧ values_units k m
         = total (amount_units k objs <$> reported objs acct start end_).
Proof.
  intros Hb Hk H2 Hat Hfit. unfold category_report.
  rewrite (Ledger_init_ok _ _ _ Hb). cbn [mbind result_bind transactions].
  destruct (for_each_category_step k objs start end_ (kept objs acct) [] ∅
              Hk H2) as (m & Hm & Htot & Hval).
  { by rewrite app_nil_l, kept_reported. }
  { by rewrite app_nil_l, kept_reported. }
  { apply totals_of_nil. }
  rewrite app_nil_l, kept_reported in Htot. rewrite kept_reported in Hval.
  exists m. rewrite Hm. split; [done|]. split; [done|].
  rewrite Hval. unfold values_units. rewrite map_to_list_empty. done.
Qed.


(** ** The interactive session: editing *)

Lemma edit_field_empty (f : field) (answer : string) (t : transaction) :
  strip answer = "" → edit_field f answer t = t.
Proof. intros H. unfold edit_field. by rewrite H. Qed.

(** A non-empty answer replaces the description and the amount by the
    answer without its surrounding white space. *)
Lemma edit_field_description (answer : string) (t : transaction) :
  strip answer ≠ "" →
  edit_field F_description answer t = set_description (strip answer) t.
Proof.
  intros H. unfold edit_field. by destruct (strip answer).
Qed.

Lemma edit_field_amount (answer : string) (t : transaction) :
  strip answer ≠ "" →
  edit_field F_amount answer t = set_amount (strip answer) t.
Proof.
  intros H. unfold edit_field. by destruct (strip answer).
Qed.

Lemma strip_dot : strip "." = ".".
Proof. reflexivity. Qed.

(** The answer [.] to the date prompt gives the current date. *)
Lemma edit_field_date_dot (t : transaction) :
  edit_field F_date "." t = set_date TODAY t.
Proof. reflexivity. Qed.

Lemma lstrip_head (x : string) :
  match lstrip x with
  | String c _ => isspace c = false
  | EmptyString => True
  end.
Proof.
  induction x as [|a x IH]; simpl; [done|].
  by destruct (isspace a) eqn:Ha; [|simpl].
Qed.

Lemma rev_app_length (x acc : string) :
  String.length (String.rev_app x acc)
  = (String.length x + String.length acc)%nat.
Proof.
  revert acc. induction x as [|a x IH]; intros acc; simpl; [done|].
  rewrite IH. simpl. lia.
Qed.

(** What [strip] returns is never a single space. *)
Lemma strip_not_space (answer : string) : strip answer ≠ " ".
Proof.
  unfold strip, String.rev. intros Hs.
  pose proof (lstrip_head (String.rev_app (lstrip answer) "")) as Hh.
  pose proof (rev_app_length
                (lstrip (String.rev_app (lstrip answer) "")) "") as Hl.
  rewrite Hs in Hl. simpl in Hl.
  destruct (lstrip (String.rev_app (lstrip answer) "")) as [|c [|c' r]];
    simpl in *; try lia.
  injection Hs as ->. done.
Qed.

(** No answer to the category prompt clears the category: the answer is
    stripped before it is compared with a single space. *)
Lemma edit_field_category_kept (answer : string) (t : transaction) :
  category (edit_field F_category answer t) = None → category t = None.
Proof.
  unfold edit_field. pose proof (strip_not_space answer) as Hs.
  destruct (strip answer) as [|c r]; cbv zeta; cbn [truthy]; [done|].
  by destruct (String.eqb_spec (String c r) " ").
Qed.

(** C7, at the input where the code departs from it: whatever the other
    three answers, a single space for the category leaves the category as
    it was; it does not clear it. *)
Theorem edit_transaction_space_keeps_category (t : ref) (w : world)
    (b : option Decimal) (i sc : Z) (q : option string)
    (a_date a_description a_amount : string) (rest : list string) :
  let s := Session w b i sc q
             (a_date :: a_description :: " " :: a_amount :: rest) in
  ∃ s',
    edit_transaction t s = Ok s' ∧
    category (objects (ledger s') t) = category (objects w t) ∧
    input s' = rest.
Proof.
  simpl. eexists. split; [reflexivity|]. simpl.
  rewrite !fn_lookup_insert. split; [|done].
  unfold edit_field.
  destruct (truthy (strip a_amount)), (truthy (strip a_description)),
    (truthy (strip a_date)); done.
Qed.

(** ** The interactive session: moving the cursor *)

(** The keys that move the cursor by one, to the top and to the bottom. *)
Definition move_keys : list Z :=
  [KEY_DOWN; ord "j"; KEY_UP; ord "k"; ord "t"; ord "b"].

(** On a non-empty ledger the moves keep the cursor on a transaction. *)
Lemma cursor_moves_nonempty (fuel : nat) (ch : Z) (s : session) :
  ch ∈ move_keys → 0 ≤ idx s < len (txns s) →
  ∃ s', curses_main fuel ch s = Some (Ok (Continue s')) ∧
        ledger s' = ledger s ∧ 0 ≤ idx s' < len (txns s').
Proof.
  intros Hch Hi. unfold move_keys in Hch.
  repeat (apply elem_of_cons in Hch as [->|Hch]);
    [..|by apply elem_of_nil in Hch];
    unfold curses_main; simpl;
    repeat (case_bool_decide; simpl);
    eexists; (split; [reflexivity|]); simpl; unfold txns in *; simpl;
    split; try done; lia.
Qed.

(** On an empty ledger with the cursor at 0, moving by one and to the top
    leave the session as it is. *)
Lemma cursor_moves_empty (fuel : nat) (ch : Z) (s : session) :
  ch ∈ [KEY_DOWN; ord "j"; KEY_UP; ord "k"] → txns s = [] → idx s = 0 →
  curses_main fuel ch s = Some (Ok (Continue s)).
Proof.
  intros Hch Hn Hi.
  repeat (apply elem_of_cons in Hch as [->|Hch]);
    [..|by apply elem_of_nil in Hch];
    unfold curses_main; rewrite Hn, Hi; simpl; done.
Qed.

(** C8, at the input where the code departs from it: on an empty ledger the
    key [b] sets the cursor to -1, which is outside the range [0, n-1] and
    is a change of the session. *)
Theorem jump_to_bottom_empty (fuel : nat) (s : session) :
  txns s = [] →
  curses_main fuel (ord "b") s = Some (Ok (Continue (with_idx (-1) s))) ∧
  (idx s = 0 → with_idx (-1) s ≠ s).
Proof.
  intros Hn. unfold curses_main. rewrite Hn. simpl.
  split; [done|]. intros Hi Heq.
  assert (idx (with_idx (-1) s) = idx s) as H by (by rewrite Heq).
  simpl in H. lia.
Qed.


(** ** Errors of the ledger: amounts that are no numbers *)

Lemma raises_only_bind {A B} (P : exn → Prop) (m : result A)
    (f : A → result B) :
  raises_only P m → (∀ x, raises_only P (f x)) → raises_only P (x ← m; f x).
Proof. intros Hm Hf. destruct m as [x|e]; simpl; [apply Hf|done]. Qed.

Lemma to_Decimal_raises (x : string) : raises_only arithmetic (to_Decimal x).
Proof. unfold to_Decimal. destruct (Decimal_of_str x); simpl; [done|by left]. Qed.

Lemma amount_of_raises (objs : store) (t : ref) :
  raises_only arithmetic (amount_of objs t).
Proof. apply to_Decimal_raises. Qed.

Lemma sum_generator_raises (cond : ref → result bool)
    (f : ref → result Decimal) (ts : list ref) (acc : Decimal) :
  (∀ t, raises_only arithmetic (cond t)) →
  (∀ t, raises_only arithmetic (f t)) →
  raises_only arithmetic (sum_generator cond f ts acc).
Proof.
  intros Hc Hf. revert acc. induction ts as [|t ts IH]; intros acc; [done|].
  cbn [sum_generator]. apply raises_only_bind; [apply Hc|].
  intros [|]; [|apply IH].
  apply raises_only_bind; [apply Hf|]. intros y.
  apply raises_only_bind; [apply Decimal_add_raises|]. intros acc'. apply IH.
Qed.

Lemma is_uncleared_check_raises (objs : store) (t : ref) :
  raises_only arithmetic (is_uncleared_check objs t).
Proof.
  unfold is_uncleared_check. destruct (negb _); [|done].
  apply raises_only_bind; [apply amount_of_raises|].
  apply Decimal_lt_0_raises.
Qed.

Lemma is_uncleared_deposit_raises (objs : store) (t : ref) :
  raises_only arithmetic (is_uncleared_deposit objs t).
Proof.
  unfold is_uncleared_deposit. destruct (negb _); [|done].
  apply raises_only_bind; [apply amount_of_raises|].
  apply Decimal_gt_0_raises.
Qed.

Lemma register_balance_raises (w : world) :
  raises_only arithmetic (register_balance w).
Proof.
  unfold register_balance.
  apply raises_only_bind.
  { apply sum_generator_raises; [done|apply amount_of_raises]. }
  intros s. apply raises_only_bind; [apply Decimal_add_raises|done].
Qed.

Lemma running_loop_raises (objs : store) (ts : list ref) (bal : Decimal)
    (acc : list Decimal) :
  raises_only arithmetic (running_loop objs ts bal acc).
Proof.
  revert bal acc. induction ts as [|t ts IH]; intros bal acc; [done|].
  cbn [running_loop]. apply raises_only_bind; [apply amount_of_raises|].
  intros d. apply raises_only_bind; [apply Decimal_add_raises|].
  intros bal'. apply IH.
Qed.

Lemma reconcile_raises (bank_balance : string) (w : world) :
  raises_only arithmetic (reconcile bank_balance w).
Proof.
  unfold reconcile.
  apply raises_only_bind; [apply to_Decimal_raises|]. intros bank.
  apply raises_only_bind.
  { apply sum_generator_raises; [apply is_uncleared_check_raises|].
    intros t. apply raises_only_bind; [apply amount_of_raises|].
    apply Decimal_neg_raises. }
  intros checks. apply raises_only_bind.
  { apply sum_generator_raises;
      [apply is_uncleared_deposit_raises|apply amount_of_raises]. }
  intros deposits.
  apply raises_only_bind; [apply Decimal_sub_raises|]. intros less.
  apply raises_only_bind; [apply Decimal_add_raises|]. intros ending.
  apply raises_only_bind; [apply register_balance_raises|]. intros [reg w1].
  apply raises_only_bind; [apply Decimal_sub_raises|]. intros difference.
  apply raises_only_bind; [apply register_balance_raises|]. by intros [reg' w2].
Qed.

(** A result that is an exception. *)
Definition raised {A} (r : result A) : Prop :=
  match r with Ok _ => False | Raise _ => True end.

Lemma raised_bind {A B} (m : result A) (f : A → result B) :
  raised m → raised (x ← m; f x).
Proof. by destruct m. Qed.

Lemma raised_bind_Ok {A B} (m : result A) (f : A → result B) :
  (∀ x, m = Ok x → raised (f x)) → raised (x ← m; f x).
Proof. intros H. destruct m as [x|e]; simpl; [by apply H|done]. Qed.

Lemma raised_arithmetic {A} (r : result A) :
  raised r → raises_only arithmetic r → ∃ e, r = Raise e ∧ arithmetic e.
Proof. destruct r as [x|e]; [done|]. intros _ He. by exists e. Qed.

Lemma amounts_ok_cons (objs : store) (t : ref) (ts : list ref) :
  amounts_ok objs (t :: ts) ↔
  is_Some (Decimal_of_str (amount (objs t))) ∧ amounts_ok objs ts.
Proof.
  unfold amounts_ok.
  apply (Forall_cons (λ t, is_Some (Decimal_of_str (amount (objs t))))).
Qed.

Lemma sum_generator_raised (objs : store) (ts : list ref) (acc : Decimal) :
  ¬ amounts_ok objs ts →
  raised (sum_generator (λ _, Ok true) (amount_of objs) ts acc).
Proof.
  revert acc. induction ts as [|t ts IH]; intros acc Hno.
  - destruct Hno. constructor.
  - cbn [sum_generator mbind result_bind].
    destruct (Decimal_of_str (amount (objs t))) as [d|] eqn:Hd.
    + rewrite amount_of_ok by (by rewrite Hd). cbn [mbind result_bind].
      apply raised_bind_Ok. intros acc' _. apply IH.
      intros Hok. apply Hno, amounts_ok_cons. by rewrite Hd.
    + by rewrite amount_of_None.
Qed.

Lemma running_loop_raised (objs : store) (ts : list ref) (bal : Decimal)
    (acc : list Decimal) :
  ¬ amounts_ok objs ts → raised (running_loop objs ts bal acc).
Proof.
  revert bal acc. induction ts as [|t ts IH]; intros bal acc Hno.
  - destruct Hno. constructor.
  - cbn [running_loop].
    destruct (Decimal_of_str (amount (objs t))) as [d|] eqn:Hd.
    + rewrite amount_of_ok by (by rewrite Hd). cbn [mbind result_bind].
      apply raised_bind_Ok. intros bal' _. apply IH.
      intros Hok. apply Hno, amounts_ok_cons. by rewrite Hd.
    + by rewrite amount_of_None.
Qed.

Lemma register_balance_raised (w : world) :
  ¬ amounts_ok (objects w) (transactions (self w)) →
  raised (register_balance w).
Proof.
  intros Hno. unfold register_balance.
  by apply raised_bind, sum_generator_raised.
Qed.

(** X1.  The three balance methods convert every visible amount: when one
    of them is no number, [register_balance], [running_balance] and
    [reconcile], whatever bank balance it is given, all raise an exception
    of decimal arithmetic, [InvalidOperation] or [Overflow]. *)
Theorem balances_need_numbers (w : world) :
  ¬ amounts_ok (objects w) (transactions (self w)) →
  (∃ e, register_balance w = Raise e ∧ arithmetic e) ∧
  (∃ e, running_balance w = Raise e ∧ arithmetic e) ∧
  ∀ bank_balance, ∃ e, reconcile bank_balance w = Raise e ∧ arithmetic e.
Proof.
  intros Hno. pose proof (register_balance_raised w Hno) as Hreg.
  split; [|split].
  - apply raised_arithmetic; [done|apply register_balance_raises].
  - apply raised_arithmetic.
    + unfold running_balance. by apply raised_bind, running_loop_raised.
    + unfold running_balance. apply raises_only_bind; [|done].
      apply running_loop_raises.
  - intros bank_balance.
    apply raised_arithmetic; [|apply reconcile_raises].
    unfold reconcile.
    do 5 (apply raised_bind_Ok; intros ? _).
    by apply raised_bind.
Qed.

(** ** How adding and deleting compose with the balance *)

Lemma total_delete (f : ref → Z) (l : list ref) (i : nat) (t : ref) :
  l !! i = Some t → total (f <$> delete i l) = total (f <$> l) - f t.
Proof.
  revert i. induction l as [|x l IH]; intros i Hi; [done|].
  destruct i as [|i]; simpl in Hi.
  - injection Hi as ->. change (delete 0%nat (t :: l)) with l.
    rewrite fmap_cons, total_cons. lia.
  - change (delete (S i) (x :: l)) with (x :: delete i l).
    rewrite !fmap_cons, !total_cons, (IH i Hi). lia.
Qed.

(** Marking a dict deleted leaves every amount as it was. *)
Lemma amount_value_set_deleted (objs : store) (t r : ref) :
  amount_value (<[t := set_deleted true (objs t)]> objs) r
  = amount_value objs r.
Proof.
  unfold amount_value. destruct (decide (r = t)) as [->|Hne].
  - by rewrite fn_lookup_insert.
  - by rewrite fn_lookup_insert_ne.
Qed.

Lemma amount_units_set_deleted (k : Z) (objs : store) (t r : ref) :
  amount_units k (<[t := set_deleted true (objs t)]> objs) r
  = amount_units k objs r.
Proof. unfold amount_units. by rewrite amount_value_set_deleted. Qed.

Lemma amounts_ok_set_deleted (objs : store) (t : ref) (ts : list ref) :
  amounts_ok objs ts →
  amounts_ok (<[t := set_deleted true (objs t)]> objs) ts.
Proof.
  unfold amounts_ok. intros H. eapply Forall_impl; [exact H|].
  intros r Hr. simpl. destruct (decide (r = t)) as [->|Hne].
  - by rewrite fn_lookup_insert.
  - by rewrite fn_lookup_insert_ne.
Qed.

Lemma amounts_at_set_deleted (k : Z) (objs : store) (t : ref)
    (ts : list ref) :
  amounts_at k objs ts →
  amounts_at k (<[t := set_deleted true (objs t)]> objs) ts.
Proof.
  unfold amounts_at. intros H. eapply Forall_impl; [exact H|].
  intros r Hr. simpl. destruct (decide (r = t)) as [->|Hne].
  - by rewrite fn_lookup_insert.
  - by rewrite fn_lookup_insert_ne.
Qed.

Lemma sum_generator_amount_ext (objs objs' : store) (ts : list ref)
    (acc : Decimal) :
  (∀ r, amount (objs r) = amount (objs' r)) →
  sum_generator (λ _, Ok true) (amount_of objs) ts acc
  = sum_generator (λ _, Ok true) (amount_of objs') ts acc.
Proof.
  intros H. revert acc. induction ts as [|t ts IH]; intros acc; [done|].
  cbn [sum_generator mbind result_bind].
  assert (amount_of objs t = amount_of objs' t) as ->.
  { unfold amount_of. by rewrite H. }
  destruct (amount_of objs' t) as [d|e]; [|done]. cbn [mbind result_bind].
  destruct (Decimal_add acc d) as [acc'|e]; [|done]. cbn [mbind result_bind].
  apply IH.
Qed.

(** X2.  Deleting the transaction at a valid index lowers the register
    balance by exactly the amount of that transaction, when the amounts
    fit the precision: the initial balance and the visible amounts are
    numbers of at most [k] decimal places whose absolute values, in units
    of [10^-k], add up to less than [10^28]. *)
Theorem delete_transaction_balance (k : Z) (w : world) (idx : Z) :
  places k → finite_at k (initial_balance (self w)) →
  amounts_at k (objects w) (transactions (self w)) →
  Z.abs (units k (initial_balance (self w)))
  + magnitude k (objects w) (transactions (self w)) < 10 ^ 28 →
  - len (transactions (self w)) ≤ idx < len (transactions (self w)) →
  ∃ t w' before after,
    index (transactions (self w)) idx = Ok t ∧
    delete_transaction idx w = Ok (tt, w') ∧
    register_balance w = Ok (before, w) ∧
    register_balance w' = Ok (after, w') ∧
    finite_at k before ∧ finite_at k after ∧
    units k after = units k before - amount_units k (objects w) t.
Proof.
  intros Hk Hib Hat Hfit Hi.
  destruct (index_Ok (transactions (self w)) idx Hi) as (t & Hl & Ht).
  set (i := Z.to_nat (position (len (transactions (self w))) idx)) in *.
  destruct (register_balance_exact k w Hk Hib Hat Hfit)
    as (before & Hbefore & Hfb & Hub).
  pose proof (total_delete (λ r, Z.abs (amount_units k (objects w) r))
                _ _ _ Hl) as Hmag.
  pose proof (total_delete (amount_units k (objects w)) _ _ _ Hl) as Htot.
  destruct (register_balance_exact k
              (World (<[t := set_deleted true (objects w t)]> (objects w))
                 (next_ref w)
                 {| account := account (self w);
                    transactions := delete i (transactions (self w));
                    initial_balance := initial_balance (self w) |}) Hk Hib)
    as (after & Hafter & Hfa & Hua).
  { simpl. apply amounts_at_set_deleted. by apply Forall_delete. }
  { simpl. unfold magnitude in *.
    rewrite (list_fmap_ext _ (λ r, Z.abs (amount_units k (objects w) r)))
      by (intros ? r _; simpl; by rewrite amount_units_set_deleted).
    rewrite Hmag. lia. }
  simpl in Hua.
  rewrite (list_fmap_ext _ (amount_units k (objects w))) in Hua
    by (intros ? r _; apply amount_units_set_deleted).
  exists t. eexists _, before, after. split; [exact Ht|]. split.
  { unfold delete_transaction, pop. rewrite Ht. simpl. reflexivity. }
  split; [done|]. split; [exact Hafter|]. split; [done|]. split; [done|].
  rewrite Hua, Hub, Htot. lia.
Qed.

(** X3.  Adding a transaction and then deleting the last one gives back
    the visible list and the register balance from before; the account
    keeps the new record, marked deleted, at the end of its stored list, and
    no other dict is touched. *)
Theorem add_then_delete_last (w : world) (t : ref) :
  ∃ w1 w2,
    add_transaction t w = Ok (tt, w1) ∧
    delete_transaction (-1) w1 = Ok (tt, w2) ∧
    transactions (self w2) = transactions (self w) ∧
    stored (account (self w2)) = (stored (account (self w)) ++ [t])%list ∧
    deleted (objects w2 t) = true ∧
    (∀ r, r ≠ t → objects w2 r = objects w r) ∧
    (∀ d, register_balance w = Ok (d, w) → register_balance w2 = Ok (d, w2)).
Proof.
  set (l := transactions (self w)).
  assert (index (l ++ [t])%list (-1) = Ok t) as Hidx.
  { unfold index, position, len. rewrite length_app. simpl.
    rewrite bool_decide_eq_true_2 by lia.
    replace (Z.to_nat (-1 + Z.of_nat (length l + 1))) with (length l + 0)%nat
      by lia.
    by rewrite lookup_app_r, Nat.add_comm, Nat.add_sub by lia. }
  assert (delete (Z.to_nat (position (len (l ++ [t])%list) (-1))) (l ++ [t])%list
          = l) as Hdel.
  { unfold position, len. rewrite length_app. simpl.
    replace (Z.to_nat (-1 + Z.of_nat (length l + 1))) with (length l)
      by lia.
    by rewrite (delete_middle l [] t), app_nil_r. }
  eexists _, _. split; [reflexivity|]. split.
  { unfold delete_transaction, pop. simpl. fold l. rewrite Hidx. simpl.
    rewrite Hdel. reflexivity. }
  simpl. split; [done|]. split; [done|]. split.
  { by rewrite fn_lookup_insert. }
  split.
  { intros r Hr. by rewrite fn_lookup_insert_ne. }
  intros d. unfold register_balance. simpl. fold l.
  rewrite (sum_generator_amount_ext
             (<[t := set_deleted true (objects w t)]> (objects w))
             (objects w)).
  - destruct (sum_generator _ _ l _) as [s|e]; simpl; [|done].
    destruct (Decimal_add _ s) as [r|e]; simpl; [|done]. by intros [= ->].
  - intros r. destruct (decide (r = t)) as [->|Hne].
    + by rewrite fn_lookup_insert.
    + by rewrite fn_lookup_insert_ne.
Qed.

(** ** The ledger and its account stay in step *)

(** The ledger is the one [Ledger(account)] would construct now. *)
Definition rebuilt (w : world) : Prop :=
  Ledger_init (objects w) (account (self w)) = Ok (self w).

Lemma rebuilt_iff (w : world) :
  rebuilt w ↔
  view_ok w ∧
  Decimal_of_str (default "0.00" (acct_initial_balance (account (self w))))
  = Some (initial_balance (self w)).
Proof.
  unfold rebuilt, view_ok, kept, Ledger_init, to_Decimal.
  destruct w as [objs next [acct ts ib]]. simpl.
  destruct (Decimal_of_str _) as [d|]; simpl; split.
  - by intros [= <- <-].
  - by intros [<- [= <-]].
  - done.
  - by intros [_ ?].
Qed.

(** X4.  The ledger and the account stay in step: a ledger just
    constructed is the one its account gives, and it still is after
    [add_transaction] of a dict not marked deleted and, when no dict is
    stored twice, after [delete_transaction]; so constructing the ledger
    again from the account, as the next run of the program does, shows the
    same transactions and the same initial balance. *)
Theorem ledger_stays_rebuilt (w : world) :
  (∀ objs next acct L,
     Ledger_init objs acct = Ok L → rebuilt (World objs next L)) ∧
  (∀ t w',
     rebuilt w → deleted (objects w t) = false →
     add_transaction t w = Ok (tt, w') → rebuilt w') ∧
  (∀ idx w',
     rebuilt w → NoDup (stored (account (self w))) →
     delete_transaction idx w = Ok (tt, w') →
     rebuilt w' ∧ NoDup (stored (account (self w')))).
Proof.
  split; [|split].
  - intros objs next acct L HL. apply rebuilt_iff. split.
    + by eapply Ledger_init_view_ok.
    + simpl. unfold Ledger_init, to_Decimal in HL.
      destruct (Decimal_of_str (default "0.00" (acct_initial_balance acct)))
        as [d|] eqn:Hd; simpl in HL; [|done].
      by injection HL as <-.
  - intros t w' Hw Ht Hadd. apply rebuilt_iff in Hw as [Hv Hb].
    apply rebuilt_iff. split; [by eapply add_transaction_view_ok|].
    by injection Hadd as <-.
  - intros idx w' Hw Hnd Hdel. apply rebuilt_iff in Hw as [Hv Hb].
    pose proof (delete_transaction_view_ok _ _ _ Hv Hnd Hdel) as Hv'.
    destruct (delete_transaction_Ok _ _ _ Hdel) as (t & _ & ->).
    split; [|done]. apply rebuilt_iff. by split.
Qed.

(** ** [compute_balances], [load_account], [new_account] *)
(** ** [compute_balances], [load_account], [new_account] *)

Lemma last_cons_lookup {A} (a : A) (l : list A) (n : nat) :
  length l = S n → last (a :: l) = l !! n.
Proof.
  intros Hn. rewrite last_lookup. simpl. rewrite Hn. done.
Qed.

(** X5.  [compute_balances] returns under [register] the initial balance
    plus the amounts of the non-deleted transactions, under [running] one
    balance for each of them, of which the last has the value of the
    register balance (with no transaction the register balance has the
    value of the initial balance), and the keys of [reconcile] exactly when
    a bank balance is given, their register balance being the same one.
    The amounts are taken to fit the precision: the balances and the
    non-deleted amounts are numbers of at most [k] decimal places and, in
    units of [10^-k], the absolute values of the balances plus twice those
    of the amounts stay below [10^28]. *)
Theorem compute_balances_spec (k : Z) (objs : store) (next : ref)
    (acct : Account) (bank_balance : option string) (b0 : Decimal) :
  Decimal_of_str (default "0.00" (acct_initial_balance acct)) = Some b0 →
  places k → finite_at k b0 →
  amounts_at k objs (kept objs acct) →
  Z.abs (units k b0) + magnitude k objs (kept objs acct) < 10 ^ 28 →
  (∀ b, bank_balance = Some b →
     ∃ d, Decimal_of_str b = Some d ∧ finite_at k d ∧
          Z.abs (units k d) + Z.abs (units k b0)
          + 2 * magnitude k objs (kept objs acct) < 10 ^ 28) →
  ∃ B,
    compute_balances objs next acct bank_balance = Ok B ∧
    finite_at k (bal_register B) ∧
    units k (bal_register B)
      = units k b0 + total (amount_units k objs <$> kept objs acct) ∧
    length (bal_running B) = length (kept objs acct) ∧
    (∃ l, last (b0 :: bal_running B) = Some l ∧ finite_at k l
          ∧ units k l = units k (bal_register B)) ∧
    match bank_balance with
    | None => bal_reconcile B = None
    | Some b =>
        ∃ r, bal_reconcile B = Some r ∧
             Decimal_of_str b = Some (rec_bank_balance r) ∧
             rec_register_balance r = bal_register B ∧
             units k (rec_difference r)
               = units k (rec_ending_balance r) - units k (bal_register B)
    end.
Proof.
  intros Hb Hk Hfb Hat Hfit Hbank. unfold compute_balances.
  rewrite (Ledger_init_ok _ _ _ Hb). cbn [mbind result_bind].
  set (w := World objs next _).
  destruct (register_balance_exact k w Hk Hfb Hat Hfit)
    as (reg & Hreg & Hfr & Hur).
  rewrite Hreg. cbn [mbind result_bind].
  assert (∃ rec,
    match bank_balance with
    | Some b => '(r, w0) ← reconcile b w; Ok (Some r, w0)
    | None => Ok (None, w)
    end = Ok (rec, w) ∧
    match bank_balance with
    | None => rec = None
    | Some b =>
        ∃ r, rec = Some r ∧
             Decimal_of_str b = Some (rec_bank_balance r) ∧
             rec_register_balance r = reg ∧
             units k (rec_difference r)
               = units k (rec_ending_balance r) - units k reg
    end) as (rec & -> & Hrec).
  { destruct bank_balance as [b|]; [|by eexists].
    destruct (Hbank b eq_refl) as (d & Hd & Hfd & Hfit2).
    destruct (reconcile_exact k w b d Hd Hk Hfd Hfb Hat Hfit2)
      as (r & reg' & -> & Hreg' & Hr1 & Hr2 & _ & _ & _ & _ & _ & Hr3).
    rewrite Hreg in Hreg'. injection Hreg' as <-.
    cbn [mbind result_bind]. exists (Some r). split; [done|]. exists r.
    split; [done|]. split; [by rewrite Hr1|]. by split. }
  cbn [mbind result_bind]. unfold running_balance.
  destruct (running_loop_exact k objs (kept objs acct) b0 [] Hk Hfb Hat Hfit)
    as (bs & Hbs & Hlen & Hval).
  cbn [objects self transactions initial_balance w].
  rewrite Hbs. cbn [mbind result_bind app].
  eexists. split; [reflexivity|]. cbn [bal_register bal_running bal_reconcile].
  split; [done|]. split; [done|]. split; [done|]. split; [|done].
  destruct (kept objs acct) as [|t ts] eqn:Hkept.
  - destruct bs; [|done]. exists b0. split; [done|]. split; [done|].
    rewrite Hur. simpl. change (total []) with 0. lia.
  - simpl in Hlen. destruct (Hval (length ts)) as (l & Hl & Hfl & Hul).
    { simpl. lia. }
    exists l. split; [by rewrite (last_cons_lookup _ _ (length ts))|].
    split; [done|]. rewrite Hul, Hur.
    change (S (length ts)) with (length (t :: ts)). by rewrite firstn_all.
Qed.

(** X6.  [load_account] fills in the keys that are missing with the
    defaults [Ledger] itself uses for a missing key: after it both keys are
    there, an account that has both is left as it is, and the ledger of the
    loaded account has the transactions and the initial balance of the
    ledger of the account as read. *)
Theorem load_account_defaults (objs : store) (acct : Account) :
  is_Some (acct_initial_balance (load_account acct)) ∧
  is_Some (acct_transactions (load_account acct)) ∧
  (is_Some (acct_initial_balance acct) → is_Some (acct_transactions acct) →
   load_account acct = acct) ∧
  stored (load_account acct) = stored acct ∧
  (λ L, (transactions L, initial_balance L))
    <$> Ledger_init objs (load_account acct)
  = (λ L, (transactions L, initial_balance L)) <$> Ledger_init objs acct.
Proof.
  destruct acct as [[ib|] [ts|]]; unfold load_account, Ledger_init; simpl;
    (split; [by eexists|]); (split; [by eexists|]);
    (split; [by intros [] []|]); (split; [done|]);
    by destruct (to_Decimal _).
Qed.


(** X7.  [new_account] makes an account with both keys and no
    transaction, whose initial balance is the text of the number given;
    an initial balance that is no number raises [InvalidOperation].  When
    the text reads back as the number [d], a number of at most [k] decimal
    places and less than [10^28] units of [10^-k], the register balance of
    the new account has the value of [d]. *)
Theorem new_account_spec (k : Z) (objs : store) (next : ref)
    (initial_balance : string) :
  match Decimal_of_str initial_balance with
  | None => new_account initial_balance = Raise InvalidOperation
  | Some d =>
      ∃ acct,
        new_account initial_balance = Ok acct ∧
        load_account acct = acct ∧
        stored acct = [] ∧
        acct_initial_balance acct = Some (str_of_Decimal d) ∧
        (Decimal_of_str (str_of_Decimal d) = Some d →
         places k → finite_at k d → Z.abs (units k d) < 10 ^ 28 →
         ∃ B, compute_balances objs next acct None = Ok B ∧
              finite_at k (bal_register B) ∧
              units k (bal_register B) = units k d ∧
              bal_reconcile B = None ∧ bal_running B = [])
  end.
Proof.
  unfold new_account, to_Decimal.
  destruct (Decimal_of_str initial_balance) as [d|]; simpl; [|done].
  eexists. split; [reflexivity|]. split; [done|]. split; [done|].
  split; [done|].
  intros Hd Hk Hfd Hfit.
  unfold compute_balances, Ledger_init, to_Decimal. simpl.
  rewrite Hd. simpl. unfold register_balance. simpl.
  destruct (Decimal_add_exact k d Decimal_0 Hk Hfd (finite_at_Decimal_0 k Hk))
    as (r & -> & Hfr & Hur & _).
  { rewrite units_Decimal_0. lia. }
  simpl. eexists. split; [reflexivity|]. simpl.
  rewrite units_Decimal_0 in Hur. split; [done|]. split; [lia|]. done.
Qed.

(** ** The printed reports *)

Lemma mapM_Ok {A B} (f : A → result B) (g : A → B) (l : list A) :
  Forall (λ x, f x = Ok (g x)) l → mapM f l = Ok (g <$> l).
Proof.
  induction 1 as [|x l Hx _ IH]; [done|].
  cbn [mapM]. by rewrite Hx, IH.
Qed.

(** The negated amount as [print_register] formats it. *)
Definition negated (d : Decimal) : Decimal :=
  match Decimal_neg d with Ok n => n | Raise _ => d end.

(** The values of the register line of [t] with balance [bal]. *)
Definition register_line (k : Z) (objs : store) (t : ref) (bal : Decimal)
    : line :=
  let o := objs t in
  let amt := amount_value objs t in
  Line (cleared o) (date o) (str_take 30 (description o))
    (str_take 15 (or_else (category o) "Uncategorized"))
    (if bool_decide (units k amt < 0) then format_2f (negated amt) else "")
    (if bool_decide (0 < units k amt) then format_2f amt else "")
    bal.

Lemma negated_exact (k : Z) (d : Decimal) :
  places k → finite_at k d → Z.abs (units k d) < 10 ^ 28 →
  Decimal_neg d = Ok (negated d) ∧ units k (negated d) = - units k d.
Proof.
  intros Hk Hf Hfit. unfold negated.
  destruct (Decimal_neg_exact k d Hk Hf Hfit) as (n & -> & _ & Hn & _).
  done.
Qed.

Lemma print_register_exact (k : Z) (objs : store) (next : ref)
    (acct : Account) (b0 : Decimal) :
  Decimal_of_str (default "0.00" (acct_initial_balance acct)) = Some b0 →
  places k → finite_at k b0 →
  amounts_at k objs (kept objs acct) →
  Z.abs (units k b0) + magnitude k objs (kept objs acct) < 10 ^ 28 →
  ∃ bs,
    print_register objs next acct
    = Ok (uncurry (register_line k objs) <$> zip (kept objs acct) bs) ∧
    length bs = length (kept objs acct) ∧
    ∀ i, (i < length (kept objs acct))%nat →
      ∃ b, bs !! i = Some b ∧ finite_at k b ∧
           units k b = units k b0
                       + total (amount_units k objs
                                  <$> take (S i) (kept objs acct)).
Proof.
  intros Hb Hk Hfb Hat Hfit.
  destruct (running_loop_exact k objs (kept objs acct) b0 [] Hk Hfb Hat Hfit)
    as (bs & Hbs & Hlen & Hval).
  exists bs. split; [|by split].
  unfold print_register.
  rewrite (Ledger_init_ok _ _ _ Hb). cbn [mbind result_bind].
  unfold running_balance. cbn [objects self transactions initial_balance].
  rewrite Hbs. cbn [mbind result_bind app objects self transactions].
  apply mapM_Ok. apply Forall_forall. intros [t bal] Hin.
  apply elem_of_zip_l in Hin.
  destruct (amounts_at_elem k objs _ t Hat Hin) as [Ha Hf].
  pose proof (total_abs_elem (amount_units k objs) _ t Hin) as Hle.
  pose proof (Z.abs_nonneg (units k b0)).
  unfold magnitude in Hfit.
  destruct (negated_exact k (amount_value objs t) Hk Hf) as [Hneg _].
  { change (Z.abs (amount_units k objs t) < 10 ^ 28). lia. }
  rewrite Ha. cbn [mbind result_bind].
  rewrite (Decimal_lt_0_finite k), (Decimal_gt_0_finite k) by done.
  cbn [mbind result_bind]. unfold register_line. cbn [uncurry fst snd].
  destruct (bool_decide (units k (amount_value objs t) < 0));
    [rewrite Hneg|]; reflexivity.
Qed.

(** X8.  [print_register] prints one line for each non-deleted
    transaction, in stored order, with the running balance up to and
    including it, so the last line shows the register balance.  A line
    shows the amount either as a debit or as a credit, never as both, and
    an amount of zero as neither; a transaction without a category, or
    with an empty one, is shown as [Uncategorized].  The amounts are taken
    to fit the precision: the initial balance and the non-deleted amounts
    are numbers of at most [k] decimal places whose absolute values, in
    units of [10^-k], add up to less than [10^28]. *)
Theorem print_register_spec (k : Z) (objs : store) (next : ref)
    (acct : Account) (b0 : Decimal) :
  Decimal_of_str (default "0.00" (acct_initial_balance acct)) = Some b0 →
  places k → finite_at k b0 →
  amounts_at k objs (kept objs acct) →
  Z.abs (units k b0) + magnitude k objs (kept objs acct) < 10 ^ 28 →
  ∃ lines,
    print_register objs next acct = Ok lines ∧
    length lines = length (kept objs acct) ∧
    (∀ i t, kept objs acct !! i = Some t →
       ∃ ln,
         lines !! i = Some ln ∧
         line_date ln = date (objs t) ∧
         line_mark ln = cleared (objs t) ∧
         finite_at k (line_balance ln) ∧
         units k (line_balance ln)
           = units k b0
             + total (amount_units k objs <$> take (S i) (kept objs acct)) ∧
         (amount_units k objs t < 0 →
          (∃ n, Decimal_neg (amount_value objs t) = Ok n
                ∧ units k n = - amount_units k objs t
                ∧ line_debit ln = format_2f n)
          ∧ line_credit ln = "") ∧
         (0 < amount_units k objs t →
          line_credit ln = format_2f (amount_value objs t)
          ∧ line_debit ln = "") ∧
         (amount_units k objs t = 0 →
          line_debit ln = "" ∧ line_credit ln = "") ∧
         (or_else (category (objs t)) "" = "" →
          line_category ln = "Uncategorized")) ∧
    (∀ ln, last lines = Some ln →
       units k (line_balance ln)
         = units k b0 + total (amount_units k objs <$> kept objs acct)).
Proof.
  intros Hb Hk Hfb Hat Hfit.
  destruct (print_register_exact k objs next acct b0 Hb Hk Hfb Hat Hfit)
    as (bs & Hpr & Hlen & Hval).
  eexists. split; [exact Hpr|].
  set (ts := kept objs acct) in *.
  assert (∀ i t, ts !! i = Some t →
            ∃ b, bs !! i = Some b ∧ finite_at k b ∧
                 units k b = units k b0
                             + total (amount_units k objs <$> take (S i) ts) ∧
            (uncurry (register_line k objs) <$> zip ts bs) !! i
              = Some (register_line k objs t b)) as Hline.
  { intros i t Hi. destruct (Hval i) as (b & Hbi & Hfbi & Hubi).
    { by eapply lookup_lt_Some. }
    exists b. split; [done|]. split; [done|]. split; [done|].
    by rewrite list_lookup_fmap, lookup_zip_with, Hi, Hbi. }
  split; [|split].
  - rewrite length_fmap, length_zip. lia.
  - intros i t Hi. destruct (Hline i t Hi) as (b & Hbi & Hfbi & Hubi & Hln).
    exists (register_line k objs t b).
    split; [done|]. simpl.
    split; [done|]. split; [done|]. split; [done|]. split; [done|].
    fold (amount_units k objs t).
    assert (t ∈ ts) as Hin by (by eapply list_elem_of_lookup_2).
    destruct (amounts_at_elem k objs _ t Hat Hin) as [Ha Hf].
    pose proof (total_abs_elem (amount_units k objs) _ t Hin) as Hle.
    pose proof (Z.abs_nonneg (units k b0)).
    unfold magnitude in Hfit.
    destruct (negated_exact k (amount_value objs t) Hk Hf) as [Hneg Hun].
    { change (Z.abs (amount_units k objs t) < 10 ^ 28). lia. }
    split; [|split; [|split]].
    + intros Hlt. rewrite bool_decide_eq_true_2 by done.
      rewrite bool_decide_eq_false_2 by lia. split; [|done].
      by exists (negated (amount_value objs t)).
    + intros Hgt. rewrite (bool_decide_eq_true_2 _ Hgt).
      rewrite bool_decide_eq_false_2 by lia. done.
    + intros Hz. rewrite !bool_decide_eq_false_2 by lia. done.
    + intros Hc. destruct (category (objs t)) as [[|c r]|]; done.
  - intros ln Hlast. rewrite last_lookup in Hlast.
    rewrite length_fmap, length_zip in Hlast.
    replace (length ts `min` length bs)%nat with (length ts) in Hlast by lia.
    destruct (ts !! pred (length ts)) as [t|] eqn:Ht.
    + destruct (Hline _ _ Ht) as (b & _ & _ & Hub & Hln).
      rewrite Hln in Hlast. injection Hlast as <-. simpl.
      pose proof (lookup_lt_Some _ _ _ Ht).
      rewrite Hub, firstn_all2 by lia. done.
    + rewrite list_lookup_fmap, lookup_zip_with, Ht in Hlast. done.
Qed.

(** *** [sorted] with a key *)

Lemma insort_Permutation {A} (key : A → string) (x : A) (l : list A) :
  insort key x l ≡ₚ x :: l.
Proof.
  induction l as [|y l IH]; simpl; [done|].
  destruct (str_lt (key y) (key x)); [|done].
  rewrite IH. apply perm_swap.
Qed.

Lemma sorted_Permutation {A} (key : A → string) (l : list A) :
  sorted key l ≡ₚ l.
Proof.
  induction l as [|x l IH]; simpl; [done|].
  by rewrite insort_Permutation, IH.
Qed.

Lemma str_lt_le (a b : string) : str_lt a b = true → String.le a b.
Proof.
  unfold str_lt, String.ltb, String.le, String.leb.
  destruct (String.compare a b); done.
Qed.

Lemma insort_StronglySorted {A} (key : A → string) (x : A) (l : list A) :
  StronglySorted (λ a b, String.le (key a) (key b)) l →
  StronglySorted (λ a b, String.le (key a) (key b)) (insort key x l).
Proof.
  induction 1 as [|y l Hl IH Hy]; simpl.
  - repeat constructor.
  - destruct (str_lt (key y) (key x)) eqn:Hlt.
    + constructor; [done|].
      rewrite insort_Permutation. constructor; [|done].
      by apply str_lt_le.
    + apply ltb_false_le in Hlt.
      constructor; [by constructor|].
      constructor; [done|].
      eapply Forall_impl; [exact Hy|]. intros z Hz. simpl in *.
      by etrans.
Qed.

Lemma sorted_StronglySorted {A} (key : A → string) (l : list A) :
  StronglySorted (λ a b, String.le (key a) (key b)) (sorted key l).
Proof.
  induction l as [|x l IH]; simpl; [constructor|].
  by apply insort_StronglySorted.
Qed.

Lemma str_lt_irrefl (a : string) : str_lt a a = false.
Proof.
  unfold str_lt, String.ltb.
  pose proof (String.compare_antisym a a) as H.
  by destruct (String.compare a a).
Qed.

(** The sort is stable: the elements with one key keep their order. *)
Lemma insort_stable {A} (key : A → string) (d : string) (x : A)
    (l : list A) :
  filter (λ a, key a = d) (insort key x l)
  = filter (λ a, key a = d) (x :: l).
Proof.
  induction l as [|y l IH]; simpl; [done|].
  destruct (str_lt (key y) (key x)) eqn:Hlt; [|done].
  rewrite (filter_cons _ y), IH, !filter_cons.
  destruct (decide (key y = d)) as [Hy|Hy],
           (decide (key x = d)) as [Hx|Hx]; try done.
  rewrite Hy, Hx, str_lt_irrefl in Hlt. done.
Qed.

Lemma sorted_stable {A} (key : A → string) (d : string) (l : list A) :
  filter (λ a, key a = d) (sorted key l) = filter (λ a, key a = d) l.
Proof.
  induction l as [|x l IH]; simpl; [done|].
  by rewrite insort_stable, !filter_cons, IH.
Qed.


(** What a balance that returns has converted. *)
Lemma sum_generator_Ok (objs : store) (ts : list ref) (acc r : Decimal) :
  sum_generator (λ _, Ok true) (amount_of objs) ts acc = Ok r →
  amounts_ok objs ts.
Proof.
  revert acc. induction ts as [|t ts IH]; intros acc Hr; [constructor|].
  cbn [sum_generator mbind result_bind] in Hr.
  destruct (Decimal_of_str (amount (objs t))) as [d|] eqn:Hd.
  - apply amounts_ok_cons. split; [by rewrite Hd|].
    rewrite amount_of_ok in Hr by (by rewrite Hd).
    cbn [mbind result_bind] in Hr.
    destruct (Decimal_add acc _) as [acc'|e]; [|done].
    by apply (IH acc').
  - by rewrite amount_of_None in Hr.
Qed.

Lemma register_balance_Ok (w w' : world) (r : Decimal) :
  register_balance w = Ok (r, w') →
  w' = w ∧ amounts_ok (objects w) (transactions (self w)).
Proof.
  unfold register_balance. intros Hr.
  destruct (sum_generator _ _ _ _) as [s|e] eqn:Hs; [|done].
  apply sum_generator_Ok in Hs. cbn [mbind result_bind] in Hr.
  destruct (Decimal_add _ s); [|done]. by injection Hr as _ <-.
Qed.

Lemma reconcile_Ok (bank_balance : string) (w w' : world)
    (r : reconciliation) :
  reconcile bank_balance w = Ok (r, w') →
  w' = w ∧ amounts_ok (objects w) (transactions (self w)).
Proof.
  unfold reconcile. intros Hr.
  destruct (to_Decimal bank_balance) as [bank|e]; [|done].
  cbn [mbind result_bind] in Hr.
  destruct (sum_generator (is_uncleared_check _) _ _ _) as [checks|e];
    [|done].
  cbn [mbind result_bind] in Hr.
  destruct (sum_generator (is_uncleared_deposit _) _ _ _) as [deposits|e];
    [|done].
  cbn [mbind result_bind] in Hr.
  destruct (Decimal_sub bank checks) as [less|e]; [|done].
  cbn [mbind result_bind] in Hr.
  destruct (Decimal_add less deposits) as [ending|e]; [|done].
  cbn [mbind result_bind] in Hr.
  destruct (register_balance w) as [[reg w1]|e] eqn:Hreg; [|done].
  apply register_balance_Ok in Hreg as [-> Hok].
  cbn [mbind result_bind] in Hr.
  destruct (Decimal_sub ending reg) as [difference|e]; [|done].
  cbn [mbind result_bind] in Hr.
  destruct (register_balance w) as [[reg' w2]|e] eqn:Hreg'; [|done].
  apply register_balance_Ok in Hreg' as [-> _].
  cbn [mbind result_bind] in Hr. by injection Hr as _ <-.
Qed.

(** X9.  [reconcile_report] prints the values [reconcile] returns and,
    under them, the uncleared non-deleted transactions, each once, in
    ascending order of their dates, those of one date in the order the
    account stores them. *)
Theorem reconcile_report_spec (objs : store) (next : ref) (acct : Account)
    (bank_balance : string) (L : Ledger) (r : reconciliation) (w' : world) :
  Ledger_init objs acct = Ok L →
  reconcile bank_balance (World objs next L) = Ok (r, w') →
  let uncleared := filter (λ t, cleared (objs t) = false) (kept objs acct) in
  ∃ order,
    w' = World objs next L ∧
    reconcile_report objs next acct bank_balance
    = Ok (r, (λ t, (date (objs t), str_take 30 (description (objs t)),
                    amount_value objs t)) <$> order) ∧
    order ≡ₚ uncleared ∧
    StronglySorted (λ x y, String.le (date (objs x)) (date (objs y))) order ∧
    (∀ d, filter (λ t, date (objs t) = d) order
          = filter (λ t, date (objs t) = d) uncleared).
Proof.
  intros HL Hr uncleared.
  destruct (reconcile_Ok _ _ _ _ Hr) as [-> Hok].
  pose proof (Ledger_init_view_ok _ next _ _ HL) as Hview.
  assert (account L = acct) as Hacct.
  { unfold Ledger_init in HL. destruct (to_Decimal _); [|done].
    simpl in HL. by injection HL as <-. }
  unfold view_ok in Hview. simpl in Hview, Hok.
  rewrite Hacct in Hview. rewrite Hview in Hok.
  exists (sorted (λ x, date (objs x)) uncleared).
  split; [done|]. split.
  { unfold reconcile_report. rewrite HL. cbn [mbind result_bind].
    rewrite Hr. cbn [mbind result_bind objects self]. rewrite Hview.
    fold uncleared.
    rewrite (mapM_Ok _ (λ t, (date (objs t),
                              str_take 30 (description (objs t)),
                              amount_value objs t))); [done|].
    apply Forall_forall. intros t Ht.
    rewrite amount_of_ok; [done|].
    rewrite sorted_Permutation in Ht.
    apply list_elem_of_filter in Ht as [_ Ht].
    unfold amounts_ok in Hok. rewrite Forall_forall in Hok. by apply Hok. }
  split; [apply sorted_Permutation|].
  split; [apply (sorted_StronglySorted (λ x, date (objs x)))|].
  intros d. apply (sorted_stable (λ x, date (objs x))).
Qed.

(** ** The screen: the scroll position [draw] leaves *)

(** Where [draw] scrolls the list to. *)
Definition scrolled (visible : Z) (s : session) : Z :=
  if bool_decide (idx s < scroll s) then idx s
  else if bool_decide (scroll s + visible ≤ idx s) then idx s - visible + 1
  else scroll s.

Lemma draw_scroll_scrolled (visible : Z) (s : session) :
  1 ≤ visible → draw_scroll visible s = with_scroll (scrolled visible s) s.
Proof.
  intros Hvis. unfold draw_scroll, scrolled.
  destruct s as [w b i sc q inp]. simpl.
  destruct (bool_decide (i < sc)) eqn:H1; simpl.
  - apply bool_decide_eq_true in H1.
    rewrite bool_decide_eq_false_2 by lia. done.
  - destruct (bool_decide (sc + visible ≤ i)); done.
Qed.

(** X10.  With room for at least one line of the list, the two
    adjustments [draw] makes to the scroll position move the list just far
    enough that the cursor is inside the window: a cursor already inside
    leaves the session as it is, a cursor above the window becomes its
    first line, a cursor below it its last line; nothing but the scroll
    position changes. *)
Theorem draw_scroll_spec (visible : Z) (s : session) :
  1 ≤ visible →
  let s' := draw_scroll visible s in
  s' = with_scroll (scroll s') s ∧
  scroll s' ≤ idx s < scroll s' + visible ∧
  (scroll s ≤ idx s < scroll s + visible → s' = s) ∧
  (idx s < scroll s → scroll s' = idx s) ∧
  (scroll s + visible ≤ idx s → scroll s' = idx s - visible + 1).
Proof.
  intros Hvis s'. unfold s'. rewrite (draw_scroll_scrolled _ _ Hvis).
  cbn [with_scroll scroll].
  split; [done|]. split.
  { unfold scrolled. repeat case_bool_decide; lia. }
  split.
  { intros Hin. unfold scrolled.
    rewrite !bool_decide_eq_false_2 by lia. by destruct s. }
  split.
  { intros Hlt. unfold scrolled. by rewrite bool_decide_eq_true_2. }
  intros Hge. unfold scrolled.
  rewrite bool_decide_eq_false_2 by lia.
  by rewrite bool_decide_eq_true_2.
Qed.

(** ** The keys of [curses_main] that act on the transaction under the
    cursor *)

(** X11.  The space key toggles the cleared mark of the transaction under
    the cursor and changes nothing else; pressing it twice gives back every
    dict as it was. *)
Theorem space_toggles_cleared (fuel : nat) (s : session) :
  0 ≤ idx s < len (txns s) →
  ∃ t s1 s2,
    txns s !! Z.to_nat (idx s) = Some t ∧
    curses_main fuel (ord " ") s = Some (Ok (Continue s1)) ∧
    objects (ledger s1) t
      = set_cleared (negb (cleared (objects (ledger s) t)))
          (objects (ledger s) t) ∧
    (∀ r, r ≠ t → objects (ledger s1) r = objects (ledger s) r) ∧
    self (ledger s1) = self (ledger s) ∧
    idx s1 = idx s ∧
    curses_main fuel (ord " ") s1 = Some (Ok (Continue s2)) ∧
    (∀ r, objects (ledger s2) r = objects (ledger s) r) ∧
    self (ledger s2) = self (ledger s) ∧
    idx s2 = idx s.
Proof.
  intros Hi.
  destruct (lookup_lt_is_Some_2 (txns s) (Z.to_nat (idx s))) as [t Ht].
  { unfold len in Hi. lia. }
  assert (index (txns s) (idx s) = Ok t) as Hidx
    by (apply index_nonneg; [lia|done]).
  exists t. eexists _, _. split; [done|]. split.
  { unfold curses_main. simpl. rewrite Hidx. reflexivity. }
  simpl. split; [by rewrite fn_lookup_insert|]. split.
  { intros r Hr. by rewrite fn_lookup_insert_ne. }
  split; [done|]. split; [done|]. split.
  { unfold curses_main. simpl. unfold txns in *. simpl. rewrite Hidx.
    reflexivity. }
  simpl. split; [|done]. intros r.
  destruct (decide (r = t)) as [->|Hr].
  - rewrite !fn_lookup_insert. destruct (objects (ledger s) t) as [? ? ? ? c ?].
    simpl. by destruct c.
  - by rewrite !fn_lookup_insert_ne.
Qed.

(** X12.  On a ledger without transactions the keys that act on the
    transaction under the cursor (space, [e], [d]) raise [IndexError], and
    so does [n] with the cursor at 0, while [N] leaves the session as it
    is. *)
Theorem keys_on_empty_ledger (fuel : nat) (s : session) :
  txns s = [] →
  (∀ ch, ch ∈ [ord " "; ord "e"; ord "d"] →
         curses_main fuel ch s = Some (Raise (IndexError (idx s)))) ∧
  (idx s = 0 →
   curses_main fuel (ord "n") s = Some (Raise (IndexError 0)) ∧
   curses_main fuel (ord "N") s = Some (Ok (Continue s))).
Proof.
  intros Hn.
  assert (index (transactions (self (ledger s))) (idx s)
          = Raise (IndexError (idx s))) as Hidx.
  { apply index_Raise. unfold txns in Hn. rewrite Hn. unfold len. simpl. lia. }
  split.
  - intros ch Hch.
    repeat (apply elem_of_cons in Hch as [->|Hch]);
      [..|by apply elem_of_nil in Hch];
      unfold curses_main, delete_transaction, txns; simpl; by rewrite Hidx.
  - intros Hi. unfold curses_main, jump_next_uncleared, jump_prev_uncleared.
    simpl. rewrite Hn, Hi. simpl. rewrite Hn. done.
Qed.

(** X13.  The key [d] deletes the transaction under the cursor and moves
    the cursor one up, or leaves it at 0: while a transaction is left the
    cursor is on one, and after the last one is deleted it is at 0. *)
Theorem delete_key_moves_cursor (fuel : nat) (s : session) :
  0 ≤ idx s < len (txns s) →
  ∃ t s',
    txns s !! Z.to_nat (idx s) = Some t ∧
    curses_main fuel (ord "d") s = Some (Ok (Continue s')) ∧
    txns s' = delete (Z.to_nat (idx s)) (txns s) ∧
    deleted (objects (ledger s') t) = true ∧
    idx s' = 0 `max` (idx s - 1) ∧
    (1 < len (txns s) → 0 ≤ idx s' < len (txns s')) ∧
    (len (txns s) = 1 → txns s' = [] ∧ idx s' = 0).
Proof.
  intros Hi.
  destruct (lookup_lt_is_Some_2 (txns s) (Z.to_nat (idx s))) as [t Ht].
  { unfold len in Hi. lia. }
  assert (index (txns s) (idx s) = Ok t) as Hidx
    by (apply index_nonneg; [lia|done]).
  exists t. eexists. split; [done|]. split.
  { unfold curses_main, delete_transaction, pop. simpl.
    unfold txns in Hidx. rewrite Hidx. simpl. reflexivity. }
  unfold txns, position in *. simpl.
  rewrite bool_decide_eq_false_2 by lia.
  split; [done|]. split; [by rewrite fn_lookup_insert|]. split; [done|].
  pose proof (length_delete _ _ (mk_is_Some _ _ Ht)) as Hlen.
  unfold len in *.
  split.
  - intros Hn. lia.
  - intros Hn. split; [|lia].
    apply length_zero_iff_nil. lia.
Qed.


(** ** Adding a transaction: in the session and from the command line *)

Lemma amounts_at_fresh (k : Z) (objs : store) (t : ref) (o : transaction)
    (ts : list ref) :
  t ∉ ts → amounts_at k objs ts → amounts_at k (<[t := o]> objs) ts.
Proof.
  unfold amounts_at. intros Ht Hok. rewrite Forall_forall in *.
  intros r Hr. rewrite fn_lookup_insert_ne; [by apply Hok|].
  by intros ->.
Qed.

Lemma amount_units_fresh (k : Z) (objs : store) (t : ref) (o : transaction)
    (ts : list ref) :
  t ∉ ts →
  amount_units k (<[t := o]> objs) <$> ts = amount_units k objs <$> ts.
Proof.
  intros Ht. apply list_fmap_ext. intros i r Hr.
  unfold amount_units, amount_value.
  rewrite fn_lookup_insert_ne; [done|].
  intros ->. apply Ht. by eapply list_elem_of_lookup_2.
Qed.

Lemma magnitude_fresh (k : Z) (objs : store) (t : ref) (o : transaction)
    (ts : list ref) :
  t ∉ ts → magnitude k (<[t := o]> objs) ts = magnitude k objs ts.
Proof.
  intros Ht. unfold magnitude. f_equal. apply list_fmap_ext. intros i r Hr.
  simpl. unfold amount_units, amount_value.
  rewrite fn_lookup_insert_ne; [done|].
  intros ->. apply Ht. by eapply list_elem_of_lookup_2.
Qed.

Lemma filter_ext_Forall {A} (P Q : A → Prop) `{!∀ x, Decision (P x)}
    `{!∀ x, Decision (Q x)} (l : list A) :
  Forall (λ x, P x ↔ Q x) l → filter P l = filter Q l.
Proof.
  induction 1 as [|x l Hx _ IH]; [done|].
  rewrite !filter_cons, IH.
  destruct (decide (P x)) as [HP|HP].
  - by rewrite decide_True by (by apply Hx).
  - by rewrite decide_False by (by rewrite <- Hx).
Qed.

(** Every stored reference has been allocated. *)
Definition allocated (w : world) : Prop :=
  Forall (λ r, (r < next_ref w)%nat) (stored (account (self w))).

(** Appending a new, non-deleted dict keeps the ledger in step with its
    account, and adds the amount of the dict to the register balance. *)
Lemma append_new_dict (w : world) (o : transaction) (d : Decimal) :
  allocated w → rebuilt w → deleted o = false →
  let t := next_ref w in
  let w' := World (<[t := o]> (objects w)) (S t)
              {| account :=
                   {| acct_initial_balance :=
                        acct_initial_balance (account (self w));
                      acct_transactions :=
                        Some (stored (account (self w)) ++ [t])%list |};
                 transactions := (transactions (self w) ++ [t])%list;
                 initial_balance := initial_balance (self w) |} in
  rebuilt w' ∧ allocated w' ∧
  (∀ k, places k →
   finite_at k (initial_balance (self w)) → finite_at k d →
   amounts_at k (objects w) (transactions (self w)) →
   Z.abs (units k (initial_balance (self w)))
   + magnitude k (objects w) (transactions (self w))
   + Z.abs (units k d) < 10 ^ 28 →
   Decimal_of_str (amount o) = Some d →
   ∃ before after,
     register_balance w = Ok (before, w) ∧
     register_balance w' = Ok (after, w') ∧
     finite_at k before ∧ finite_at k after ∧
     units k after = units k before + units k d).
Proof.
  intros Hal Hre Ho t w'. apply rebuilt_iff in Hre as [Hv Hb].
  unfold allocated in Hal. rewrite Forall_forall in Hal.
  assert (∀ r, r ∈ stored (account (self w)) → r ≠ t) as Hne.
  { intros r Hr ->. specialize (Hal _ Hr). unfold t in Hal. lia. }
  assert (t ∉ transactions (self w)) as Hne'.
  { intros Hr. apply (Hne t); [|done]. rewrite Hv in Hr. unfold kept in Hr.
    by apply list_elem_of_filter in Hr as [_ ?]. }
  split; [|split].
  - apply rebuilt_iff. split; [|done].
    unfold view_ok, kept, w' in *. simpl. unfold stored at 1. simpl.
    rewrite filter_app, filter_cons, fn_lookup_insert.
    rewrite decide_True by done. rewrite Hv. f_equal.
    apply filter_ext_Forall, Forall_forall. intros r Hr.
    by rewrite fn_lookup_insert_ne by (by apply not_eq_sym, Hne).
  - unfold allocated, w'. simpl. unfold stored at 1. simpl.
    apply Forall_app. split.
    + apply Forall_forall. intros r Hr. specialize (Hal _ Hr). lia.
    + apply Forall_singleton. unfold t. lia.
  - intros k Hk Hib Hfd Hat Hfit Hd.
    pose proof (Z.abs_nonneg (units k d)).
    destruct (register_balance_exact k w Hk Hib Hat)
      as (before & Hbefore & Hfb & Hub); [lia|].
    assert (amount_units k (<[t:=o]> (objects w)) t = units k d) as Hut.
    { unfold amount_units, amount_value. by rewrite fn_lookup_insert, Hd. }
    destruct (register_balance_exact k w' Hk Hib)
      as (after & Hafter & Hfa & Hua).
    { unfold w'. simpl. apply Forall_app. split.
      - by apply amounts_at_fresh.
      - apply Forall_singleton. rewrite fn_lookup_insert. by exists d. }
    { unfold w'. simpl. unfold magnitude.
      rewrite fmap_app, total_app, fmap_cons, total_cons. simpl.
      fold (magnitude k (<[t:=o]> (objects w)) (transactions (self w))).
      rewrite magnitude_fresh, Hut by done. change (total []) with 0. lia. }
    exists before, after. do 4 (split; [done|]).
    rewrite Hua, Hub. unfold w'. simpl.
    rewrite fmap_app, total_app, fmap_cons, total_cons, Hut.
    rewrite amount_units_fresh by done. change (total (_ <$> [])) with 0. lia.
Qed.

(** X14.  [add_transaction_tui] asks five questions and appends a dict of
    its own to the ledger and to the account: the date goes through
    [today_if_dot], the description is stored as typed, an empty category
    is stored as none, the amount is stored as the number prints, the
    transaction counts as cleared when the last answer starts with y or
    Y, and it is not deleted.  No other dict changes, the cursor stays
    where it is, the ledger stays in step with its account, and, when the
    amounts fit the precision and the amount reads back as it prints, the
    register balance grows by the amount typed.  The amount is converted
    before anything is stored: an answer that is no number raises
    [InvalidOperation]. *)
Theorem add_transaction_tui_spec (s : session)
    (a_date a_desc a_cat a_amt a_clr : string) (rest : list string) :
  input s = a_date :: a_desc :: a_cat :: a_amt :: a_clr :: rest →
  allocated (ledger s) → rebuilt (ledger s) →
  match Decimal_of_str a_amt with
  | None => add_transaction_tui s = Raise InvalidOperation
  | Some d =>
      let t := next_ref (ledger s) in
      ∃ s',
        add_transaction_tui s = Ok s' ∧
        txns s' = (txns s ++ [t])%list ∧
        stored (account (self (ledger s')))
          = (stored (account (self (ledger s))) ++ [t])%list ∧
        objects (ledger s') t
          = Transaction (today_if_dot a_date) a_desc (or_None a_cat)
              (str_of_Decimal d) (startswith (lower a_clr) "y") false ∧
        (∀ r, r ≠ t → objects (ledger s') r = objects (ledger s) r) ∧
        input s' = rest ∧ idx s' = idx s ∧ scroll s' = scroll s ∧
        rebuilt (ledger s') ∧ allocated (ledger s') ∧
        (∀ k, places k →
         finite_at k (initial_balance (self (ledger s))) → finite_at k d →
         amounts_at k (objects (ledger s)) (txns s) →
         Z.abs (units k (initial_balance (self (ledger s))))
         + magnitude k (objects (ledger s)) (txns s)
         + Z.abs (units k d) < 10 ^ 28 →
         Decimal_of_str (str_of_Decimal d) = Some d →
         ∃ before after,
           register_balance (ledger s) = Ok (before, ledger s) ∧
           register_balance (ledger s') = Ok (after, ledger s') ∧
           finite_at k before ∧ finite_at k after ∧
           units k after = units k before + units k d)
  end.
Proof.
  intros Hin Hal Hre. unfold add_transaction_tui, prompt. rewrite Hin. simpl.
  unfold to_Decimal.
  destruct (Decimal_of_str a_amt) as [d|]; simpl; [|done].
  eexists. split; [reflexivity|]. simpl.
  split; [done|]. split; [done|].
  split; [by rewrite fn_lookup_insert|]. split.
  { intros r Hr. by rewrite fn_lookup_insert_ne. }
  do 3 (split; [done|]).
  exact (append_new_dict (ledger s)
           (Transaction (today_if_dot a_date) a_desc (or_None a_cat)
              (str_of_Decimal d) (startswith (lower a_clr) "y") false)
           d Hal Hre eq_refl).
Qed.

(** The running balances stop at an amount that is no number. *)
Lemma running_loop_bad_last (k : Z) (objs : store) (ts : list ref) (t : ref)
    (bal : Decimal) (acc : list Decimal) :
  places k → finite_at k bal → amounts_at k objs ts →
  Z.abs (units k bal) + magnitude k objs ts < 10 ^ 28 →
  Decimal_of_str (amount (objs t)) = None →
  running_loop objs (ts ++ [t]) bal acc = Raise InvalidOperation.
Proof.
  intros Hk Hfb Hat Hfit Hbad. revert bal acc Hfb Hfit.
  induction Hat as [|x ts Hx Hat IH]; intros bal acc Hfb Hfit.
  - cbn [app running_loop]. by rewrite amount_of_None.
  - destruct Hx as (d & Hd & Hfd).
    unfold magnitude in Hfit. rewrite fmap_cons, total_cons in Hfit.
    assert (amount_units k objs x = units k d) as Hux.
    { unfold amount_units, amount_value. by rewrite Hd. }
    pose proof (total_abs_nonneg (amount_units k objs) ts).
    rewrite <- app_comm_cons. cbn [running_loop].
    assert (amount_of objs x = Ok d) as ->.
    { unfold amount_of, to_Decimal. by rewrite Hd. }
    cbn [mbind result_bind].
    destruct (Decimal_add_exact k bal d Hk Hfb Hfd)
      as (bal' & -> & Hfb' & Hub' & _); [lia|].
    cbn [mbind result_bind]. apply IH; [done|].
    unfold magnitude. lia.
Qed.

(** X15.  The command [add] stores the amount as it is given, without
    converting it: it appends a dict of its own to the account whatever the
    amount text is, and when that text is no number the account it leaves
    is one on which [print_register] raises an exception of decimal
    arithmetic; the exception is [InvalidOperation] when the account read
    stores no dict at the new reference and its own amounts fit the
    precision. *)
Theorem main_add_spec (objs : store) (next : ref) (file : Account)
    (date description amount : string) (category : option string)
    (cleared : bool) (b0 : Decimal) :
  Decimal_of_str (default "0.00" (acct_initial_balance file)) = Some b0 →
  ∃ w,
    main_add objs next file date description amount category cleared = Ok w ∧
    stored (account (self w)) = (stored file ++ [next])%list ∧
    is_Some (acct_initial_balance (account (self w))) ∧
    objects w next
      = Transaction (today_if_dot date) description (category ≫= or_None)
          amount cleared false ∧
    (∀ r, r ≠ next → objects w r = objs r) ∧
    (Decimal_of_str amount = None →
     (∃ e, print_register (objects w) (next_ref w) (account (self w))
           = Raise e ∧ arithmetic e) ∧
     (∀ k, places k → finite_at k b0 →
           next ∉ stored file →
           amounts_at k objs (kept objs file) →
           Z.abs (units k b0) + magnitude k objs (kept objs file) < 10 ^ 28 →
           print_register (objects w) (next_ref w) (account (self w))
           = Raise InvalidOperation)).
Proof.
  intros Hb. unfold main_add.
  assert (Decimal_of_str
            (default "0.00" (acct_initial_balance (load_account file)))
          = Some b0) as Hb'.
  { destruct file as [[ib|] [ts|]]; done. }
  rewrite (Ledger_init_ok _ _ _ Hb'). simpl.
  eexists. split; [reflexivity|]. simpl. split.
  { by destruct file as [[ib|] [ts|]]. }
  split.
  { destruct file as [[ib|] [ts|]]; by eexists. }
  split; [by rewrite fn_lookup_insert|]. split.
  { intros r Hr. by rewrite fn_lookup_insert_ne. }
  intros Hbad.
  set (o := Transaction (today_if_dot date) description (category ≫= or_None)
              amount cleared false).
  set (acct' := {| acct_initial_balance :=
                     acct_initial_balance (load_account file);
                   acct_transactions :=
                     Some (stored (load_account file) ++ [next])%list |}).
  assert (stored (load_account file) = stored file) as Hst
    by (by destruct file as [[ib|] [ts|]]).
  assert (Decimal_of_str (default "0.00" (acct_initial_balance acct'))
          = Some b0) as Hb'' by done.
  split.
  - apply raised_arithmetic.
    + unfold print_register.
      rewrite (Ledger_init_ok _ _ b0 Hb''). cbn [mbind result_bind].
      apply raised_bind. unfold running_balance.
      apply raised_bind. cbn [objects self transactions].
      apply running_loop_raised.
      intros Hok. unfold amounts_ok in Hok. rewrite Forall_forall in Hok.
      destruct (Hok next) as [d Hd].
      * unfold kept. apply list_elem_of_filter. split.
        { by rewrite fn_lookup_insert. }
        { unfold stored at 1. simpl. apply elem_of_app. right.
          apply list_elem_of_here. }
      * rewrite fn_lookup_insert in Hd. simpl in Hd. congruence.
    + unfold print_register.
      apply raises_only_bind.
      { unfold Ledger_init. apply raises_only_bind; [|done].
        apply to_Decimal_raises. }
      intros L. apply raises_only_bind.
      { unfold running_balance. apply raises_only_bind; [|done].
        apply running_loop_raises. }
      intros [running w]. induction (zip _ running) as [|[t bal] l IH];
        [done|].
      cbn [mapM]. apply raises_only_bind.
      { apply raises_only_bind; [apply amount_of_raises|]. intros amt.
        apply raises_only_bind; [apply Decimal_lt_0_raises|]. intros b.
        apply raises_only_bind.
        { destruct b; [|done].
          apply raises_only_bind; [apply Decimal_neg_raises|done]. }
        intros debit.
        apply raises_only_bind; [apply Decimal_gt_0_raises|done]. }
      intros ln. apply raises_only_bind; [exact IH|done].
  - intros k Hk Hfb Hnew Hat Hfit.
    unfold print_register.
    rewrite (Ledger_init_ok _ _ b0 Hb''). cbn [mbind result_bind].
    unfold running_balance. cbn [objects self transactions initial_balance].
    assert (kept (<[next:=o]> objs) acct' = (kept objs file ++ [next])%list)
      as ->.
    { unfold kept, acct'. unfold stored at 1. simpl. rewrite Hst.
      rewrite filter_app, filter_cons, fn_lookup_insert.
      rewrite decide_True by done. f_equal.
      apply filter_ext_Forall, Forall_forall. intros r Hr.
      rewrite fn_lookup_insert_ne; [done|]. by intros ->. }
    assert (next ∉ kept objs file) as Hnew'.
    { intros Hin. apply Hnew. unfold kept in Hin.
      by apply list_elem_of_filter in Hin as [_ ?]. }
    rewrite (running_loop_bad_last k); [done|done|done| | |].
    + by apply amounts_at_fresh.
    + by rewrite magnitude_fresh.
    + by rewrite fn_lookup_insert.
Qed.

(** ** [today_if_dot] and white space *)

Lemma append_assoc (u v w : string) : (u +:+ v) +:+ w = u +:+ (v +:+ w).
Proof.
  induction u as [|a u IH]; [done|].
  change (String a ((u +:+ v) +:+ w) = String a (u +:+ (v +:+ w))).
  by rewrite IH.
Qed.

Lemma append_empty_r (u : string) : u +:+ "" = u.
Proof.
  induction u as [|a u IH]; [done|].
  change (String a (u +:+ "") = String a u). by rewrite IH.
Qed.

Lemma rev_app_append (x acc : string) :
  String.rev_app x acc = String.rev x +:+ acc.
Proof.
  unfold String.rev. revert acc.
  induction x as [|a x IH]; intros acc; [done|].
  simpl. rewrite (IH (String a acc)), (IH (String a "")).
  by rewrite append_assoc.
Qed.

Lemma rev_app_rev_app (x acc acc' : string) :
  String.rev_app (String.rev_app x acc) acc'
  = String.rev_app acc (x +:+ acc').
Proof.
  revert acc acc'. induction x as [|a x IH]; intros acc acc'; [done|].
  simpl. by rewrite IH.
Qed.

Lemma rev_rev (x : string) : String.rev (String.rev x) = x.
Proof.
  unfold String.rev. rewrite rev_app_rev_app. simpl. apply append_empty_r.
Qed.

Lemma rev_app_of_append (u v acc : string) :
  String.rev_app (u +:+ v) acc = String.rev_app v (String.rev_app u acc).
Proof.
  revert acc. induction u as [|a u IH]; intros acc; [done|].
  change (String.rev_app (u +:+ v) (String a acc)
          = String.rev_app v (String.rev_app u (String a acc))).
  apply IH.
Qed.

Lemma rev_append (u v : string) :
  String.rev (u +:+ v) = String.rev v +:+ String.rev u.
Proof.
  unfold String.rev at 1. by rewrite rev_app_of_append, rev_app_append.
Qed.

(** [lstrip] takes a run of white space off the front. *)
Lemma lstrip_suffix (y : string) : ∃ ws, y = ws +:+ lstrip y.
Proof.
  induction y as [|c y [ws IH]]; [by exists ""|].
  simpl. destruct (isspace c).
  - exists (String c ws).
    change (String c y = String c (ws +:+ lstrip y)). by rewrite <- IH.
  - by exists "".
Qed.

Lemma lstrip_fix (y : string) :
  match y with String c _ => isspace c = false | EmptyString => True end →
  lstrip y = y.
Proof. destruct y as [|c r]; [done|]. simpl. by intros ->. Qed.

Lemma lstrip_lstrip (z : string) : lstrip (lstrip z) = lstrip z.
Proof. apply lstrip_fix, lstrip_head. Qed.

Lemma lstrip_rev_lstrip_rev (x : string) :
  lstrip x = x →
  lstrip (String.rev (lstrip (String.rev x)))
  = String.rev (lstrip (String.rev x)).
Proof.
  intros Hx. apply lstrip_fix.
  destruct (lstrip_suffix (String.rev x)) as [ws Hws].
  pose proof (rev_rev x) as Hrr. rewrite Hws, rev_append in Hrr.
  destruct (String.rev (lstrip (String.rev x))) as [|c r]; [done|].
  pose proof (lstrip_head x) as Hh. rewrite Hx, <- Hrr in Hh. exact Hh.
Qed.

(** Stripping twice is stripping once. *)
Lemma strip_strip (s : string) : strip (strip s) = strip s.
Proof.
  unfold strip.
  rewrite (lstrip_rev_lstrip_rev (lstrip s)) by apply lstrip_lstrip.
  by rewrite rev_rev, lstrip_lstrip.
Qed.

(** X16.  [today_if_dot] looks at its argument without the surrounding
    white space only: stripping the argument first changes nothing, so the
    date an edit sets is [today_if_dot] of the answer as typed; and with a
    current date that has no surrounding white space, applying it twice is
    applying it once. *)
Theorem today_if_dot_strip (s : string) :
  today_if_dot (strip s) = today_if_dot s ∧
  (∀ t, strip s ≠ "" → edit_field F_date s t = set_date (today_if_dot s) t) ∧
  (strip TODAY = TODAY → today_if_dot (today_if_dot s) = today_if_dot s).
Proof.
  assert (today_if_dot (strip s) = today_if_dot s) as Hs.
  { unfold today_if_dot. by rewrite strip_strip. }
  split; [exact Hs|]. split.
  - intros t Hne. unfold edit_field. rewrite Hs.
    by destruct (strip s).
  - intros HT. unfold today_if_dot.
    destruct (String.eqb_spec (strip s) ".") as [Hdot|Hdot].
    + rewrite HT. by destruct (String.eqb TODAY ".").
    + rewrite strip_strip.
      by destruct (String.eqb_spec (strip s) ".").
Qed.
(** ** What the reconciliation compares *)

(** The uncleared amounts, debits and credits together. *)
Lemma uncleared_total_split (k : Z) (objs : store) (ts : list ref) :
  total (amount_units k objs <$> filter (λ t, cleared (objs t) = false) ts)
  = total (amount_units k objs <$>
           filter (λ t, cleared (objs t) = false
                        ∧ 0 < amount_units k objs t) ts)
    - total ((λ t, - amount_units k objs t) <$>
             filter (λ t, cleared (objs t) = false
                          ∧ amount_units k objs t < 0) ts).
Proof.
  induction ts as [|t ts IH]; [done|].
  rewrite !filter_cons.
  destruct (decide (cleared (objs t) = false)) as [Hc|Hc].
  - destruct (Z.lt_trichotomy (amount_units k objs t) 0) as [Hlt|[Heq|Hgt]].
    + rewrite (decide_True (P := _ ∧ amount_units k objs t < 0)) by done.
      rewrite decide_False by lia.
      rewrite !fmap_cons, !total_cons, IH. lia.
    + rewrite !decide_False by lia.
      rewrite !fmap_cons, !total_cons, IH. lia.
    + rewrite (decide_False (P := _ ∧ amount_units k objs t < 0)) by lia.
      rewrite decide_True by done.
      rewrite !fmap_cons, !total_cons, IH. lia.
  - rewrite !decide_False by (by intros [? _]). done.
Qed.

Lemma cleared_uncleared_total (k : Z) (objs : store) (ts : list ref) :
  total (amount_units k objs <$> ts)
  = total (amount_units k objs <$> filter (λ t, cleared (objs t) = true) ts)
    + total (amount_units k objs <$>
             filter (λ t, cleared (objs t) = false) ts).
Proof.
  induction ts as [|t ts IH]; [done|].
  rewrite !filter_cons, fmap_cons, total_cons, IH.
  destruct (cleared (objs t)).
  - rewrite decide_True, decide_False by done.
    rewrite fmap_cons, total_cons. lia.
  - rewrite decide_False, decide_True by done.
    rewrite fmap_cons, total_cons. lia.
Qed.

(** X17.  What [reconcile] compares: its ending balance is the bank
    balance plus the amounts of the uncleared visible transactions, and
    its difference is the bank balance minus the initial balance and the
    amounts of the cleared ones; so the difference is zero exactly when
    the bank balance is the initial balance plus the cleared amounts.  The
    amounts are taken to fit the precision: the two balances and the
    visible amounts are numbers of at most [k] decimal places and, in
    units of [10^-k], the absolute values of the balances plus twice those
    of the amounts stay below [10^28]. *)
Theorem reconcile_difference_cleared (k : Z) (w : world)
    (bank_balance : string) (b : Decimal) :
  Decimal_of_str bank_balance = Some b →
  places k → finite_at k b → finite_at k (initial_balance (self w)) →
  amounts_at k (objects w) (transactions (self w)) →
  Z.abs (units k b) + Z.abs (units k (initial_balance (self w)))
  + 2 * magnitude k (objects w) (transactions (self w)) < 10 ^ 28 →
  let cleared_total :=
    total (amount_units k (objects w) <$>
           filter (λ t, cleared (objects w t) = true)
                  (transactions (self w))) in
  let uncleared_total :=
    total (amount_units k (objects w) <$>
           filter (λ t, cleared (objects w t) = false)
                  (transactions (self w))) in
  ∃ r,
    reconcile bank_balance w = Ok (r, w) ∧
    finite_at k (rec_ending_balance r) ∧
    finite_at k (rec_difference r) ∧
    units k (rec_ending_balance r) = units k b + uncleared_total ∧
    units k (rec_difference r)
      = units k b - (units k (initial_balance (self w)) + cleared_total) ∧
    (units k (rec_difference r) = 0 ↔
     units k b = units k (initial_balance (self w)) + cleared_total).
Proof.
  intros Hb Hk Hfb Hib Hat Hfit cleared_total uncleared_total.
  destruct (reconcile_exact k w bank_balance b Hb Hk Hfb Hib Hat Hfit)
    as (r & reg & Hr & _ & _ & _ & Hfin & Hc & Hd & He & Hu & Hdiff).
  pose proof (uncleared_total_split k (objects w) (transactions (self w)))
    as Hsplit.
  pose proof (cleared_uncleared_total k (objects w) (transactions (self w)))
    as Hall.
  fold cleared_total uncleared_total in Hsplit, Hall.
  apply Forall_cons in Hfin as [_ Hfin]. apply Forall_cons in Hfin as [_ Hfin].
  apply Forall_cons in Hfin as [Hfe Hfin]. apply Forall_cons in Hfin as [_ Hfin].
  apply Forall_cons in Hfin as [Hfd _].
  exists r. split; [exact Hr|]. split; [done|]. split; [done|].
  split; [lia|]. split; lia.
Qed.

(** X18.  The totals of the category report add up to the sum of the
    amounts of the transactions reported; without date bounds that is the
    register balance less the initial balance.  The amounts are taken to
    fit the precision: the initial balance and the non-deleted amounts are
    numbers of at most [k] decimal places, [k] at least 2, whose absolute
    values, in units of [10^-k], add up to less than [10^28]. *)
Theorem category_report_adds_up (k : Z) (objs : store) (next : ref)
    (acct : Account) (start end_ : option string) (b0 : Decimal) :
  Decimal_of_str (default "0.00" (acct_initial_balance acct)) = Some b0 →
  places k → 2 ≤ k → finite_at k b0 →
  amounts_at k objs (kept objs acct) →
  Z.abs (units k b0) + magnitude k objs (kept objs acct) < 10 ^ 28 →
  ∃ rows L reg,
    category_report objs acct start end_ = Ok rows ∧
    Forall (finite_at k) (rows.*2) ∧
    total (units k <$> rows.*2)
      = total (amount_units k objs <$> reported objs acct start end_) ∧
    Ledger_init objs acct = Ok L ∧
    register_balance (World objs next L) = Ok (reg, World objs next L) ∧
    finite_at k reg ∧
    (start = None → end_ = None →
     total (units k <$> rows.*2) = units k reg - units k b0).
Proof.
  intros Hb Hk H2 Hfb Hat Hfit.
  assert (reported objs acct start end_
          = filter (λ t, from_start start (date (objs t))
                         ∧ to_end end_ (date (objs t))) (kept objs acct))
    as Hrep by (by rewrite kept_reported).
  assert (amounts_at k objs (reported objs acct start end_)) as Hat'.
  { rewrite Hrep. unfold amounts_at in *. rewrite Forall_forall in *.
    intros t Ht. apply Hat. by apply list_elem_of_filter in Ht as [_ ?]. }
  pose proof (Z.abs_nonneg (units k b0)).
  assert (magnitude k objs (reported objs acct start end_) < 10 ^ 28)
    as Hfit'.
  { rewrite Hrep. unfold magnitude in *.
    pose proof (total_abs_filter (amount_units k objs)
                  (λ t, from_start start (date (objs t))
                        ∧ to_end end_ (date (objs t))) (kept objs acct)).
    lia. }
  destruct (category_report_exact k objs acct start end_ b0 Hb Hk H2 Hat' Hfit')
    as (m & Hm & Htot & Hval).
  destruct (register_balance_exact k
              (World objs next
                 {| account := acct; transactions := kept objs acct;
                    initial_balance := b0 |}) Hk Hfb Hat Hfit)
    as (reg & Hreg & Hfr & Hur).
  assert (total (units k <$> (sorted_items m).*2)
          = total (amount_units k objs <$> reported objs acct start end_))
    as Hsum.
  { rewrite <- Hval. unfold values_units, sorted_items.
    apply total_Permutation, fmap_Permutation, fmap_Permutation,
      merge_sort_Permutation. }
  eexists (sorted_items m), _, reg. split; [done|]. split.
  { apply Forall_forall. intros v Hv.
    apply list_elem_of_fmap in Hv as ([c v'] & -> & Hin).
    unfold sorted_items in Hin.
    rewrite merge_sort_Permutation, elem_of_map_to_list in Hin.
    pose proof (Htot c) as Hc. rewrite Hin in Hc.
    by destruct Hc as (_ & ? & _). }
  split; [exact Hsum|]. split; [by apply Ledger_init_ok|].
  split; [exact Hreg|]. split; [done|].
  intros -> ->. rewrite Hsum, Hur. simpl.
  assert (reported objs acct None None = kept objs acct) as ->.
  { unfold reported, kept. apply list_filter_iff. intros t. simpl.
    split; [by intros [? _]|by intros ?]. }
  lia.
Qed.


(** ** Searching for nothing *)

Lemma contains_empty (x : string) : contains "" x = true.
Proof. by destruct x. Qed.

(** X19.  An empty search text is found in every transaction, so
    [find_next] with it moves the cursor to the next transaction, round to
    the first after the last; and the key [f] does nothing when the last
    search text is empty or there is none. *)
Theorem find_next_empty_search (fuel : nat) (s : session) :
  0 ≤ idx s < len (txns s) →
  find_next (S fuel) "" s
    = Some (Ok (idx_set ((idx s + 1) `mod` len (txns s)) s)) ∧
  (last_search s = None ∨ last_search s = Some "" →
   curses_main fuel (ord "f") s = Some (Ok (Continue s))).
Proof.
  intros Hi. split.
  - unfold find_next. cbn [find_next_loop].
    assert (∀ t, matches "" t = true) as Hm
      by (intros t; apply contains_empty).
    destruct (decide (idx s + 1 < len (txns s))) as [Hlt|Hge].
    + rewrite bool_decide_eq_false_2 by lia.
      destruct (index_Ok (txns s) (idx s + 1)) as (t & _ & ->); [lia|].
      rewrite Hm, Z.mod_small by lia. done.
    + rewrite bool_decide_eq_true_2 by lia.
      destruct (index_Ok (txns s) 0) as (t & _ & ->); [lia|].
      rewrite Hm. replace (idx s + 1) with (len (txns s)) by lia.
      rewrite Z_mod_same_full. done.
  - intros Hq. unfold curses_main. simpl.
    by destruct Hq as [-> | ->].
Qed.


End Checkbook.

(** * Examples

    The conversion is instantiated with [plain_decimal]; the account is the
    one of the specification's example, with a deleted transaction stored
    between the second and the third: initial balance 100.00, then -20.00
    (uncleared), +50.00 (cleared), -5.00 (uncleared).  Amounts are counted
    in cents, that is with [k = 2]. *)

(** The decimal a plain numeral denotes. *)
Definition dec (s : string) : Decimal := default Decimal_0 (plain_decimal s).

Definition ex_objects : store := λ r,
  match r with
  | 0%nat => Transaction "2024-01-05" "rent" None "-20.00" false false
  | 1%nat => Transaction "2024-01-07" "salary" (Some "job") "50.00" true false
  | 2%nat => Transaction "2024-01-09" "tea" None "-5.00" false false
  | 3%nat => Transaction "2024-01-08" "void" None "1.00" false true
  | 4%nat => Transaction "2024-01-10" "book" (Some "fun") "-7.50" false false
  | _ => Transaction "" "" None "0" false false
  end.

Definition ex_account : Account :=
  {| acct_initial_balance := Some "100.00";
     acct_transactions := Some [0; 1; 3; 2]%nat |}.

Definition ex_ledger : Ledger :=
  {| account := ex_account;
     transactions := [0; 1; 2]%nat;
     initial_balance := dec "100.00" |}.

Definition ex_world : world := World ex_objects 5%nat ex_ledger.

(** The session with the cursor on the last transaction. *)
Definition ex_session : session := Session ex_world None 2 0 None [].

(** A session on an account without transactions. *)
Definition ex_empty : session :=
  Session (World ex_objects 0%nat
             {| account := {| acct_initial_balance := Some "0.00";
                              acct_transactions := Some [] |};
                transactions := [];
                initial_balance := dec "0.00" |})
          None 0 0 None [].

(** A serialisation of transactions for the examples. *)
Definition ex_dumps (t : transaction) : string :=
  date t +:+ " " +:+ description t +:+ " " +:+ amount t.

Definition digit (n : Z) : ascii := ascii_of_N (48 + Z.to_N n).

(** The digits of [n], at most [fuel] of them. *)
Fixpoint digits (fuel : nat) (n : Z) (acc : string) : string :=
  match fuel with
  | O => acc
  | S fuel' =>
      let acc' := String (digit (n `mod` 10)) acc in
      if n `div` 10 =? 0 then acc' else digits fuel' (n `div` 10) acc'
  end.

(** The last [n] digits of [x]. *)
Fixpoint fixed_digits (n : nat) (x : Z) (acc : string) : string :=
  match n with
  | O => acc
  | S n' => fixed_digits n' (x `div` 10) (String (digit (x `mod` 10)) acc)
  end.

(** The digits of the natural number [n]. *)
Definition numeral (n : Z) : string :=
  digits (S (Z.to_nat (Z.log2 n))) n "".

Definition sign_text (neg : bool) : string := if neg then "-" else "".

(** The text of a NaN or an infinity. *)
Definition special_text (d : Decimal) : string :=
  match d with
  | Infinity neg => sign_text neg +:+ "Infinity"
  | NaN neg signaling payload =>
      sign_text neg +:+ (if signaling : bool then "sNaN" else "NaN")
      +:+ (if bool_decide (payload = 0%N) then ""
           else numeral (Z.of_N payload))
  | Finite _ _ _ => ""
  end.

(** [str] for the examples: the plain notation from an exponent of -6
    on, the scientific one otherwise. *)
Definition ex_str (d : Decimal) : string :=
  match d with
  | Finite neg c e =>
      let int := numeral (Z.of_N c) in
      let n := Z.of_nat (String.length int) in
      let leftdigits := e + n in
      let dotplace :=
        if bool_decide (e ≤ 0) && bool_decide (-6 < leftdigits)
        then leftdigits else 1 in
      let body :=
        if bool_decide (dotplace ≤ 0)
        then "0." +:+ fixed_digits (Z.to_nat (- dotplace)) 0 "" +:+ int
        else if bool_decide (n ≤ dotplace)
        then int +:+ fixed_digits (Z.to_nat (dotplace - n)) 0 ""
        else substring 0 (Z.to_nat dotplace) int +:+ "."
             +:+ substring (Z.to_nat dotplace) (Z.to_nat (n - dotplace)) int in
      let x := leftdigits - dotplace in
      sign_text neg +:+ body
      +:+ (if bool_decide (x = 0) then ""
           else "E" +:+ (if bool_decide (0 ≤ x) then "+" else "-")
                +:+ numeral (Z.abs x))
  | _ => special_text d
  end.

(** The format [.2f] for the examples: two places, rounded half to even. *)
Definition ex_format (d : Decimal) : string :=
  match d with
  | Finite neg c e =>
      let cents := if bool_decide (-2 ≤ e)
                   then Z.of_N c * 10 ^ (e + 2)
                   else round_half_even (Z.of_N c) (10 ^ (-2 - e)) in
      sign_text neg +:+ numeral (cents `div` 100)
      +:+ "." +:+ fixed_digits 2 (cents `mod` 100) ""
  | _ => special_text d
  end.

Ltac amounts :=
  unfold amounts_at;
  repeat first [apply List.Forall_nil | apply List.Forall_cons];
  eexists; (split; [reflexivity | by vm_compute]).

Lemma ex_places : places 2.
Proof. unfold places, Etiny, Emin, prec. lia. Qed.

Lemma ex_view_ok : view_ok ex_world.
Proof. reflexivity. Qed.

Lemma ex_amounts_at : amounts_at plain_decimal 2 ex_objects [0; 1; 2]%nat.
Proof. amounts. Qed.

Lemma ex_finite_100 : finite_at 2 (dec "100.00").
Proof. by vm_compute. Qed.

Lemma ex_finite_105 : finite_at 2 (dec "105.00").
Proof. by vm_compute. Qed.

Lemma ex_rebuilt : rebuilt plain_decimal ex_world.
Proof. reflexivity. Qed.

Lemma ex_allocated : allocated ex_world.
Proof.
  unfold allocated. simpl.
  repeat first [apply List.Forall_nil | apply List.Forall_cons]; lia.
Qed.


(** The example of C1: against a bank balance of 105.00 the uncleared checks
    are 25.00, the uncleared deposits 0, the ending balance 80.00 and the
    difference to the register balance of 125.00 is -45.00. *)
Lemma reconcile_spec_witness :
  view_ok ex_world ∧
  plain_decimal "105.00" = Some (dec "105.00") ∧
  places 2 ∧ finite_at 2 (dec "105.00") ∧
  finite_at 2 (initial_balance (self ex_world)) ∧
  amounts_at plain_decimal 2 (objects ex_world) (transactions (self ex_world)) ∧
  Z.abs (units 2 (dec "105.00"))
  + Z.abs (units 2 (initial_balance (self ex_world)))
  + 2 * magnitude plain_decimal 2 (objects ex_world)
          (transactions (self ex_world)) < 10 ^ 28 ∧
  ∃ r,
    reconcile plain_decimal "105.00" ex_world = Ok (r, ex_world) ∧
    units 2 (rec_uncleared_checks r) = 2500 ∧
    units 2 (rec_uncleared_deposits r) = 0 ∧
    units 2 (rec_ending_balance r) = 8000 ∧
    units 2 (rec_register_balance r) = 12500 ∧
    units 2 (rec_difference r) = -4500.
Proof.
  assert (Z.abs (units 2 (dec "105.00"))
          + Z.abs (units 2 (initial_balance (self ex_world)))
          + 2 * magnitude plain_decimal 2 (objects ex_world)
                  (transactions (self ex_world)) < 10 ^ 28) as Hfit
    by (by vm_compute).
  split; [exact ex_view_ok|]. split; [reflexivity|].
  split; [exact ex_places|]. split; [exact ex_finite_105|].
  split; [exact ex_finite_100|]. split; [exact ex_amounts_at|].
  split; [exact Hfit|].
  destruct (reconcile_spec plain_decimal 2 ex_world "105.00" (dec "105.00")
              ex_view_ok eq_refl ex_places ex_finite_105 ex_finite_100
              ex_amounts_at Hfit)
    as (r & reg & Hr & Hreg & _ & _ & Hc & Hd & He & Hrb & Hdiff & Hz).
  destruct (Hz 5%nat eq_refl) as (_ & _ & _).
  assert (units 2 reg = 12500) as Hreg'.
  { assert (register_balance plain_decimal ex_world
            = Ok (dec "125.00", ex_world)) as Heq by (vm_compute; reflexivity).
    rewrite Heq in Hreg. apply (inj Ok) in Hreg.
    apply (f_equal fst) in Hreg. simpl in Hreg. by subst reg. }
  exists r. split; [exact Hr|].
  rewrite Hdiff, He, Hrb, Hc, Hd, Hreg'. repeat split; reflexivity.
Defined.

(** Amounts of 28 digits, next to amounts of cents. *)
Definition ex_big_objects : store := λ r,
  match r with
  | 0%nat => Transaction "2024-02-01" "house" None
               "-9999999999999999999999999999" false false
  | 1%nat => Transaction "2024-02-02" "stamp" None "-0.60" false false
  | 2%nat => Transaction "2024-02-03" "sale" None
               "9999999999999999999999999999" false false
  | 3%nat => Transaction "2024-02-04" "refund" None "0.60" false false
  | 4%nat => Transaction "2024-02-05" "fee" None "0.01" false false
  | _ => Transaction "" "" None "0" false false
  end.

Definition ex_big : world :=
  World ex_big_objects 5%nat
    {| account := {| acct_initial_balance := Some "0.00";
                     acct_transactions := Some [0; 1]%nat |};
       transactions := [0; 1]%nat;
       initial_balance := dec "0.00" |}.

(** C1 does not hold of amounts beyond the precision: with the uncleared
    debits 9999999999999999999999999999 and 0.60 the sum of the negated
    amounts is 9999999999999999999999999999.60, and [reconcile] returns
    the uncleared checks rounded to 28 digits, 1.000000000000000000000000000E+28. *)
Lemma reconcile_rounds_checks :
  view_ok ex_big ∧
  uncleared_debits plain_decimal 2 (objects ex_big) (account (self ex_big))
    = [0; 1]%nat ∧
  total ((λ t, - amount_units plain_decimal 2 (objects ex_big) t)
           <$> [0; 1]%nat)
    = 999999999999999999999999999960 ∧
  ∃ r,
    reconcile plain_decimal "0.00" ex_big = Ok (r, ex_big) ∧
    rec_uncleared_checks r = Finite false 1000000000000000000000000000 1 ∧
    units 2 (rec_uncleared_checks r) = 1000000000000000000000000000000.
Proof.
  split; [reflexivity|]. split; [by vm_compute|]. split; [by vm_compute|].
  eexists. split; [vm_compute; reflexivity|]. split; by vm_compute.
Qed.








(** C4, the claim as stated, fails: -1 is outside [0, n-1], and
    [delete_transaction(-1)] does not fail; it deletes the last visible
    transaction. *)
Lemma delete_transaction_negative_index :
  ¬ (0 ≤ -1 < len (transactions (self ex_world))) ∧
  (∀ i, delete_transaction (-1) ex_world ≠ Raise (IndexError i)) ∧
  ∃ w',
    delete_transaction (-1) ex_world = Ok (tt, w') ∧
    transactions (self w') = [0; 1]%nat ∧
    deleted (objects w' 2%nat) = true ∧
    stored (account (self w')) = [0; 1; 3; 2]%nat.
Proof.
  split; [lia|]. split; [done|]. eexists. split; [reflexivity|]. done.
Qed.

(** An instance of the amended C4, with an index from the end, an index from
    the start and an index out of range. *)
Lemma delete_transaction_spec_witness :
  (∃ w', delete_transaction (-3) ex_world = Ok (tt, w')
         ∧ transactions (self w') = [1; 2]%nat
         ∧ deleted (objects w' 0%nat) = true) ∧
  (∃ w', delete_transaction 1 ex_world = Ok (tt, w')
         ∧ transactions (self w') = [0; 2]%nat
         ∧ deleted (objects w' 1%nat) = true) ∧
  delete_transaction 3 ex_world = Raise (IndexError 3) ∧
  delete_transaction (-4) ex_world = Raise (IndexError (-4)).
Proof.
  pose proof (delete_transaction_spec ex_world (-3)) as H1.
  pose proof (delete_transaction_spec ex_world 1) as H2.
  pose proof (delete_transaction_spec ex_world 3) as H3.
  pose proof (delete_transaction_spec ex_world (-4)) as H4.
  simpl in H1, H2, H3, H4.
  destruct H1 as (t1 & w1 & [= <-] & Hd1 & Ht1 & _ & Hv1 & _).
  destruct H2 as (t2 & w2 & [= <-] & Hd2 & Ht2 & _ & Hv2 & _).
  split; [|split; [|split]].
  - exists w1. split; [exact Hd1|]. split; [exact Hv1|]. by rewrite Ht1.
  - exists w2. split; [exact Hd2|]. split; [exact Hv2|]. by rewrite Ht2.
  - exact H3.
  - exact H4.
Defined.




(** The example of C6: from the last uncleared transaction, at position 2,
    the jump forward wraps to the first uncleared one, at position 0; the
    jump backward passes the cleared one at position 1 and lands there too. *)
Lemma jump_uncleared_spec_witness :
  0 ≤ idx ex_session < len (txns ex_session) ∧
  jump_next_uncleared ex_session = Ok (idx_set 0 ex_session) ∧
  jump_prev_uncleared ex_session = Ok (idx_set 0 ex_session).
Proof.
  assert (0 ≤ idx ex_session < len (txns ex_session)) as Hi
    by (vm_compute; split; [discriminate|reflexivity]).
  split; [exact Hi|].
  destruct (jump_uncleared_spec ex_session Hi) as (Hn & Hp & _).
  split; [exact Hn|exact Hp].
Defined.

(** The example of C10: a search for RENT from position 2 wraps once and
    finds position 0; on the empty ledger it raises. *)
Lemma find_next_spec_witness :
  -1 ≤ idx ex_session ∧
  (2 * length (txns ex_session) + 1 ≤ 7)%nat ∧
  find_next ex_dumps 7 "RENT" ex_session = Some (Ok (idx_set 0 ex_session)) ∧
  find_next ex_dumps 1 "RENT" ex_empty = Some (Raise (IndexError 0)).
Proof.
  assert (-1 ≤ idx ex_session) as Hi by (simpl; lia).
  assert (2 * length (txns ex_session) + 1 ≤ 7)%nat as Hf by (simpl; lia).
  split; [exact Hi|]. split; [exact Hf|].
  destruct (find_next_spec ex_dumps "RENT" ex_session 7 Hi Hf) as [Hfound _].
  assert (-1 ≤ idx ex_empty) as Hi0 by (simpl; lia).
  assert (2 * length (txns ex_empty) + 1 ≤ 1)%nat as Hf0 by (simpl; lia).
  destruct (find_next_spec ex_dumps "RENT" ex_empty 1 Hi0 Hf0) as [_ Hraise].
  split.
  - apply Hfound. reflexivity.
  - apply Hraise. reflexivity.
Defined.





(** C7 at a concrete input: the transaction at reference 1 has category job;
    the answers to the four prompts are nothing, nothing, a single space and
    nothing; the category is still job. *)
Lemma edit_transaction_space_witness :
  ∃ s',
    edit_transaction "2026-11-04" 1%nat
      (Session ex_world None 1 0 None [""; ""; " "; ""]) = Ok s' ∧
    category (objects (ledger s') 1%nat) = Some "job".
Proof.
  destruct (edit_transaction_space_keeps_category "2026-11-04" 1%nat ex_world
              None 1 0 None "" "" "" []) as (s' & Hs & Hc & _).
  exists s'. split; [exact Hs|exact Hc].
Defined.

(** C8 at a concrete input: on the empty ledger, with the cursor at 0, the
    key [b] puts the cursor at -1. *)
Lemma jump_to_bottom_empty_witness :
  txns ex_empty = [] ∧
  curses_main plain_decimal "2026-11-04" ex_dumps ex_str 0 (ord "b") ex_empty
    = Some (Ok (Continue (with_idx (-1) ex_empty))).
Proof.
  split; [reflexivity|].
  exact (proj1 (jump_to_bottom_empty plain_decimal "2026-11-04" ex_dumps
                  ex_str 0 ex_empty eq_refl)).
Defined.


(** ** Examples for the functions around the ledger and the session *)

(** A ledger in which the amount of the second transaction is no
    number. *)
Definition ex_bad_objects : store := λ r,
  match r with
  | 0%nat => Transaction "2024-03-01" "rent" None "-20.00" false false
  | _ => Transaction "2024-03-02" "typo" None "abc" true false
  end.

Definition ex_bad : world :=
  World ex_bad_objects 2%nat
    {| account := {| acct_initial_balance := Some "100.00";
                     acct_transactions := Some [0; 1]%nat |};
       transactions := [0; 1]%nat;
       initial_balance := dec "100.00" |}.

(** The example of X1: with the amount abc in the ledger the three
    balances raise [InvalidOperation]. *)
Lemma balances_need_numbers_witness :
  ¬ amounts_ok plain_decimal (objects ex_bad) (transactions (self ex_bad)) ∧
  register_balance plain_decimal ex_bad = Raise InvalidOperation ∧
  running_balance plain_decimal ex_bad = Raise InvalidOperation ∧
  reconcile plain_decimal "105.00" ex_bad = Raise InvalidOperation.
Proof.
  assert (¬ amounts_ok plain_decimal (objects ex_bad)
              (transactions (self ex_bad))) as Hno.
  { intros Hok. apply Forall_cons in Hok as [_ Hok].
    apply Forall_cons in Hok as [[d Hd] _]. discriminate Hd. }
  split; [exact Hno|].
  destruct (balances_need_numbers plain_decimal ex_bad Hno)
    as ((e1 & H1 & _) & (e2 & H2 & _) & H3).
  destruct (H3 "105.00") as (e3 & H3' & _).
  split; [|split].
  - rewrite H1. by vm_compute in H1.
  - rewrite H2. by vm_compute in H2.
  - rewrite H3'. by vm_compute in H3'.
Defined.

(** The example of X2: deleting the last visible transaction, of -5.00,
    takes the register balance from 125.00 to 130.00. *)
Lemma delete_transaction_balance_witness :
  places 2 ∧ finite_at 2 (initial_balance (self ex_world)) ∧
  amounts_at plain_decimal 2 (objects ex_world)
    (transactions (self ex_world)) ∧
  Z.abs (units 2 (initial_balance (self ex_world)))
  + magnitude plain_decimal 2 (objects ex_world)
      (transactions (self ex_world)) < 10 ^ 28 ∧
  - len (transactions (self ex_world)) ≤ -1
    < len (transactions (self ex_world)) ∧
  ∃ w' before after,
    delete_transaction (-1) ex_world = Ok (tt, w') ∧
    register_balance plain_decimal ex_world = Ok (before, ex_world) ∧
    register_balance plain_decimal w' = Ok (after, w') ∧
    units 2 before = 12500 ∧ units 2 after = 13000.
Proof.
  assert (Z.abs (units 2 (initial_balance (self ex_world)))
          + magnitude plain_decimal 2 (objects ex_world)
              (transactions (self ex_world)) < 10 ^ 28) as Hfit
    by (by vm_compute).
  assert (- len (transactions (self ex_world)) ≤ -1
          < len (transactions (self ex_world))) as Hi by (vm_compute; done).
  split; [exact ex_places|]. split; [exact ex_finite_100|].
  split; [exact ex_amounts_at|]. split; [exact Hfit|]. split; [exact Hi|].
  destruct (delete_transaction_balance plain_decimal 2 ex_world (-1)
              ex_places ex_finite_100 ex_amounts_at Hfit Hi)
    as (t & w' & before & after & Ht & Hdel & Hb & Ha & _ & _ & Heq).
  apply (inj Ok) in Ht. subst t.
  assert (units 2 before = 12500) as Hbefore.
  { assert (register_balance plain_decimal ex_world
            = Ok (dec "125.00", ex_world)) as Hreg by (vm_compute; reflexivity).
    rewrite Hreg in Hb. apply (inj Ok) in Hb.
    apply (f_equal fst) in Hb. simpl in Hb. by subst before. }
  exists w', before, after. split; [exact Hdel|]. split; [exact Hb|].
  split; [exact Ha|]. split; [exact Hbefore|].
  rewrite Heq, Hbefore. reflexivity.
Defined.

(** The example of X5: with a bank balance of 105.00 the register balance
    is 125.00, there are three running balances, the last of them 125.00,
    and the reconciliation is there. *)
Lemma compute_balances_spec_witness :
  plain_decimal (default "0.00" (acct_initial_balance ex_account))
    = Some (dec "100.00") ∧
  places 2 ∧ finite_at 2 (dec "100.00") ∧
  amounts_at plain_decimal 2 ex_objects (kept ex_objects ex_account) ∧
  Z.abs (units 2 (dec "100.00"))
  + magnitude plain_decimal 2 ex_objects (kept ex_objects ex_account)
  < 10 ^ 28 ∧
  ∃ B l,
    compute_balances plain_decimal ex_objects 5%nat ex_account
      (Some "105.00") = Ok B ∧
    units 2 (bal_register B) = 12500 ∧
    length (bal_running B) = 3%nat ∧
    last (bal_running B) = Some l ∧ units 2 l = 12500 ∧
    is_Some (bal_reconcile B).
Proof.
  assert (Z.abs (units 2 (dec "100.00"))
          + magnitude plain_decimal 2 ex_objects (kept ex_objects ex_account)
          < 10 ^ 28) as Hfit by (by vm_compute).
  assert (∀ b, Some "105.00" = Some b →
            ∃ d, plain_decimal b = Some d ∧ finite_at 2 d ∧
                 Z.abs (units 2 d) + Z.abs (units 2 (dec "100.00"))
                 + 2 * magnitude plain_decimal 2 ex_objects
                         (kept ex_objects ex_account) < 10 ^ 28) as Hbank.
  { intros b [= <-]. eexists. split; [reflexivity|]. split; by vm_compute. }
  split; [reflexivity|]. split; [exact ex_places|].
  split; [exact ex_finite_100|]. split; [exact ex_amounts_at|].
  split; [exact Hfit|].
  destruct (compute_balances_spec plain_decimal 2 ex_objects 5%nat ex_account
              (Some "105.00") (dec "100.00") eq_refl ex_places ex_finite_100
              ex_amounts_at Hfit Hbank)
    as (B & HB & _ & Hreg & Hlen & (l & Hlast & _ & Hul) & r & Hr & _).
  assert (units 2 (bal_register B) = 12500) as Hreg'
    by (rewrite Hreg; reflexivity).
  exists B, l. split; [exact HB|]. split; [exact Hreg'|].
  split; [exact Hlen|]. split.
  - rewrite <- Hlast.
    destruct (bal_running B); [discriminate Hlen|reflexivity].
  - split; [by rewrite Hul|]. rewrite Hr. by eexists.
Defined.


(** The example of X8: the register shows three lines; the first is the
    rent, a debit of 20.00 without a category, and the last shows the
    register balance of 125.00. *)
Lemma print_register_spec_witness :
  plain_decimal (default "0.00" (acct_initial_balance ex_account))
    = Some (dec "100.00") ∧
  places 2 ∧ finite_at 2 (dec "100.00") ∧
  amounts_at plain_decimal 2 ex_objects (kept ex_objects ex_account) ∧
  Z.abs (units 2 (dec "100.00"))
  + magnitude plain_decimal 2 ex_objects (kept ex_objects ex_account)
  < 10 ^ 28 ∧
  ∃ lines first last_line,
    print_register plain_decimal ex_format ex_objects 5%nat ex_account
      = Ok lines ∧
    length lines = 3%nat ∧
    lines !! 0%nat = Some first ∧
    line_date first = "2024-01-05" ∧
    line_debit first = "20.00" ∧ line_credit first = "" ∧
    line_category first = "Uncategorized" ∧
    last lines = Some last_line ∧
    units 2 (line_balance last_line) = 12500.
Proof.
  assert (Z.abs (units 2 (dec "100.00"))
          + magnitude plain_decimal 2 ex_objects (kept ex_objects ex_account)
          < 10 ^ 28) as Hfit by (by vm_compute).
  split; [reflexivity|]. split; [exact ex_places|].
  split; [exact ex_finite_100|]. split; [exact ex_amounts_at|].
  split; [exact Hfit|].
  destruct (print_register_spec plain_decimal ex_format 2 ex_objects 5%nat
              ex_account (dec "100.00") eq_refl ex_places ex_finite_100
              ex_amounts_at Hfit)
    as (lines & Hp & Hlen & Hline & Hlast).
  destruct (Hline 0%nat 0%nat eq_refl)
    as (first & H0 & Hdate & _ & _ & _ & Hdebit & _ & _ & Hcat).
  destruct (Hdebit eq_refl) as [(n & Hn & _ & Hd) Hc].
  apply (inj Ok) in Hn. subst n.
  destruct (last lines) as [last_line|] eqn:Hl.
  2:{ apply last_None in Hl. rewrite Hl in Hlen. discriminate Hlen. }
  exists lines, first, last_line. split; [exact Hp|]. split; [exact Hlen|].
  split; [exact H0|]. split; [exact Hdate|]. split; [exact Hd|].
  split; [exact Hc|]. split; [exact (Hcat eq_refl)|]. split; [exact Hl|].
  rewrite (Hlast last_line eq_refl). reflexivity.
Defined.

(** The example of X9: the account stores the tea of 2024-01-09 before the
    rent of 2024-01-05; both are uncleared, and the report lists the rent
    first. *)
Definition ex_unordered : Account :=
  {| acct_initial_balance := Some "100.00";
     acct_transactions := Some [2; 0; 1]%nat |}.

Definition ex_unordered_ledger : Ledger :=
  {| account := ex_unordered;
     transactions := [2; 0; 1]%nat;
     initial_balance := dec "100.00" |}.

Lemma reconcile_report_spec_witness :
  Ledger_init plain_decimal ex_objects ex_unordered
    = Ok ex_unordered_ledger ∧
  ∃ r,
    reconcile plain_decimal "105.00" (World ex_objects 5%nat ex_unordered_ledger)
    = Ok (r, World ex_objects 5%nat ex_unordered_ledger) ∧
    reconcile_report plain_decimal ex_objects 5%nat ex_unordered "105.00"
    = Ok (r, [("2024-01-05", "rent", dec "-20.00");
              ("2024-01-09", "tea", dec "-5.00")]).
Proof.
  split; [reflexivity|].
  assert (∃ r, reconcile plain_decimal "105.00"
                 (World ex_objects 5%nat ex_unordered_ledger)
               = Ok (r, World ex_objects 5%nat ex_unordered_ledger))
    as [r Hr] by (eexists; vm_compute; reflexivity).
  exists r. split; [exact Hr|].
  destruct (reconcile_report_spec plain_decimal ex_objects 5%nat ex_unordered
              "105.00" ex_unordered_ledger r _ eq_refl Hr)
    as (order & _ & Hrep & Hperm & Hsorted & _).
  rewrite Hrep. do 2 f_equal.
  change (filter _ (kept ex_objects ex_unordered)) with [2; 0]%nat in Hperm.
  symmetry in Hperm. apply Permutation_length_2_inv in Hperm as [->| ->].
  - apply StronglySorted_inv in Hsorted as [_ Hle].
    apply Forall_cons in Hle as [Hle _]. by vm_compute in Hle.
  - reflexivity.
Defined.

(** The example of X10: with room for two lines and the cursor on the
    third transaction the list is scrolled by one. *)
Lemma draw_scroll_spec_witness :
  1 ≤ 2 ∧
  draw_scroll 2 ex_session = with_scroll 1 ex_session.
Proof.
  assert (1 ≤ 2) as Hvis by lia.
  split; [exact Hvis|].
  destruct (draw_scroll_spec 2 ex_session Hvis)
    as (Hs & _ & _ & _ & Hsc).
  rewrite Hs, Hsc; [reflexivity|by vm_compute].
Defined.

(** The example of X11: the space key on the tea, which is uncleared,
    marks it cleared. *)
Lemma space_toggles_cleared_witness :
  0 ≤ idx ex_session < len (txns ex_session) ∧
  ∃ s1,
    curses_main plain_decimal "2026-11-04" ex_dumps ex_str 0 (ord " ")
      ex_session = Some (Ok (Continue s1)) ∧
    cleared (objects (ledger s1) 2%nat) = true ∧
    cleared (objects (ledger ex_session) 2%nat) = false.
Proof.
  assert (0 ≤ idx ex_session < len (txns ex_session)) as Hi
    by (vm_compute; done).
  split; [exact Hi|].
  destruct (space_toggles_cleared plain_decimal "2026-11-04" ex_dumps ex_str
              0 ex_session Hi)
    as (t & s1 & s2 & Ht & Hs1 & Hobj & _).
  injection Ht as <-.
  exists s1. split; [exact Hs1|]. split; [by rewrite Hobj|reflexivity].
Defined.

(** The example of X12: on the empty ledger [d] and [n] raise
    [IndexError], and [N] does nothing. *)
Lemma keys_on_empty_ledger_witness :
  txns ex_empty = [] ∧
  curses_main plain_decimal "2026-11-04" ex_dumps ex_str 0 (ord "d") ex_empty
    = Some (Raise (IndexError 0)) ∧
  curses_main plain_decimal "2026-11-04" ex_dumps ex_str 0 (ord "n") ex_empty
    = Some (Raise (IndexError 0)) ∧
  curses_main plain_decimal "2026-11-04" ex_dumps ex_str 0 (ord "N") ex_empty
    = Some (Ok (Continue ex_empty)).
Proof.
  split; [reflexivity|].
  destruct (keys_on_empty_ledger plain_decimal "2026-11-04" ex_dumps ex_str
              0 ex_empty eq_refl) as [Hkeys Hjump].
  split.
  - apply (Hkeys (ord "d")).
    do 2 apply list_elem_of_further. apply list_elem_of_here.
  - exact (Hjump eq_refl).
Defined.

(** The example of X13: [d] on the last of three transactions leaves two
    and puts the cursor on the second. *)
Lemma delete_key_moves_cursor_witness :
  0 ≤ idx ex_session < len (txns ex_session) ∧
  ∃ s',
    curses_main plain_decimal "2026-11-04" ex_dumps ex_str 0 (ord "d")
      ex_session = Some (Ok (Continue s')) ∧
    txns s' = [0; 1]%nat ∧ idx s' = 1 ∧
    deleted (objects (ledger s') 2%nat) = true.
Proof.
  assert (0 ≤ idx ex_session < len (txns ex_session)) as Hi
    by (vm_compute; done).
  split; [exact Hi|].
  destruct (delete_key_moves_cursor plain_decimal "2026-11-04" ex_dumps
              ex_str 0 ex_session Hi)
    as (t & s' & Ht & Hs' & Htx & Hdel & Hidx & _).
  injection Ht as <-.
  exists s'. split; [exact Hs'|]. split; [exact Htx|].
  split; [exact Hidx|exact Hdel].
Defined.

(** The session of the examples with five answers typed ahead. *)
Definition ex_typing : session :=
  Session ex_world None 2 0 None ["."; "coffee"; ""; "-3.50"; "Yes"].



(** The example of X14: the answers [.], coffee, nothing, -3.50 and Yes add
    a cleared transaction of today without a category as the fourth one,
    and the register balance goes from 125.00 to 121.50. *)
Lemma add_transaction_tui_spec_witness :
  input ex_typing = ["."; "coffee"; ""; "-3.50"; "Yes"] ∧
  allocated (ledger ex_typing) ∧ rebuilt plain_decimal (ledger ex_typing) ∧
  ∃ s' after,
    add_transaction_tui plain_decimal "2026-11-04" ex_str ex_typing
      = Ok s' ∧
    txns s' = [0; 1; 2; 5]%nat ∧
    objects (ledger s') 5%nat
      = Transaction "2026-11-04" "coffee" None "-3.50" true false ∧
    register_balance plain_decimal (ledger s') = Ok (after, ledger s') ∧
    units 2 after = 12150.
Proof.
  split; [reflexivity|]. split; [exact ex_allocated|].
  split; [exact ex_rebuilt|].
  pose proof (add_transaction_tui_spec plain_decimal "2026-11-04" ex_str
                ex_typing "." "coffee" "" "-3.50" "Yes" [] eq_refl
                ex_allocated ex_rebuilt) as H.
  assert (plain_decimal "-3.50" = Some (dec "-3.50")) as Hd by reflexivity.
  rewrite Hd in H. cbv zeta in H.
  destruct H as (s' & Hs' & Htx & _ & Hobj & _ & _ & _ & _ & _ & _ & Hbal).
  destruct (Hbal 2 ex_places ex_finite_100) as (before & after & Hb & Ha & _ & _ & Heq).
  { by vm_compute. }
  { exact ex_amounts_at. }
  { by vm_compute. }
  { reflexivity. }
  change (ledger ex_typing) with ex_world in Hb.
  assert (units 2 before = 12500) as Hbefore.
  { assert (register_balance plain_decimal ex_world
            = Ok (dec "125.00", ex_world)) as Hreg by (vm_compute; reflexivity).
    rewrite Hreg in Hb. apply (inj Ok) in Hb.
    apply (f_equal fst) in Hb. simpl in Hb. by subst before. }
  exists s', after. split; [exact Hs'|]. split; [exact Htx|].
  split; [exact Hobj|]. split; [exact Ha|].
  rewrite Heq, Hbefore. reflexivity.
Defined.

(** The example of X15: the command [add] with the amount abc succeeds,
    and the register of the account it leaves cannot be printed. *)
Lemma main_add_spec_witness :
  plain_decimal (default "0.00" (acct_initial_balance ex_account))
    = Some (dec "100.00") ∧
  ∃ w,
    main_add plain_decimal "2026-11-04" ex_objects 5%nat ex_account
      "." "misc" "abc" (Some "") false = Ok w ∧
    stored (account (self w)) = [0; 1; 3; 2; 5]%nat ∧
    objects w 5%nat = Transaction "2026-11-04" "misc" None "abc" false false ∧
    print_register plain_decimal ex_format (objects w) (next_ref w)
      (account (self w)) = Raise InvalidOperation.
Proof.
  split; [reflexivity|].
  destruct (main_add_spec plain_decimal "2026-11-04" ex_format ex_objects
              5%nat ex_account "." "misc" "abc" (Some "") false
              (dec "100.00") eq_refl)
    as (w & Hw & Hst & _ & Hobj & _ & Hbad).
  exists w. split; [exact Hw|]. split; [exact Hst|]. split; [exact Hobj|].
  destruct (Hbad eq_refl) as [_ Hinv].
  apply (Hinv 2 ex_places ex_finite_100).
  - change (5%nat ∉ [0; 1; 3; 2]%nat).
    rewrite !elem_of_cons, elem_of_nil. intros [|[|[|[|]]]]; lia.
  - exact ex_amounts_at.
  - by vm_compute.
Defined.

(** The example of X17: the initial balance of 100.00 and the cleared
    salary of 50.00 make 150.00; against a bank balance of 150.00 the
    difference is zero and the ending balance 125.00. *)
Lemma reconcile_difference_cleared_witness :
  plain_decimal "150.00" = Some (dec "150.00") ∧
  places 2 ∧ finite_at 2 (dec "150.00") ∧
  finite_at 2 (initial_balance (self ex_world)) ∧
  amounts_at plain_decimal 2 (objects ex_world)
    (transactions (self ex_world)) ∧
  Z.abs (units 2 (dec "150.00"))
  + Z.abs (units 2 (initial_balance (self ex_world)))
  + 2 * magnitude plain_decimal 2 (objects ex_world)
          (transactions (self ex_world)) < 10 ^ 28 ∧
  ∃ r,
    reconcile plain_decimal "150.00" ex_world = Ok (r, ex_world) ∧
    units 2 (rec_difference r) = 0 ∧
    units 2 (rec_ending_balance r) = 12500.
Proof.
  assert (finite_at 2 (dec "150.00")) as Hfb by (by vm_compute).
  assert (Z.abs (units 2 (dec "150.00"))
          + Z.abs (units 2 (initial_balance (self ex_world)))
          + 2 * magnitude plain_decimal 2 (objects ex_world)
                  (transactions (self ex_world)) < 10 ^ 28) as Hfit
    by (by vm_compute).
  split; [reflexivity|]. split; [exact ex_places|]. split; [exact Hfb|].
  split; [exact ex_finite_100|]. split; [exact ex_amounts_at|].
  split; [exact Hfit|].
  destruct (reconcile_difference_cleared plain_decimal 2 ex_world "150.00"
              (dec "150.00") eq_refl ex_places Hfb ex_finite_100
              ex_amounts_at Hfit)
    as (r & Hr & _ & _ & He & Hdiff & _).
  exists r. split; [exact Hr|]. split.
  - rewrite Hdiff. reflexivity.
  - rewrite He. reflexivity.
Defined.

(** The example of X18: without date bounds the totals of the categories
    (-25.00 without a category and 50.00 for job) add up to 25.00, the
    register balance of 125.00 less the initial balance of 100.00. *)
Lemma category_report_adds_up_witness :
  plain_decimal (default "0.00" (acct_initial_balance ex_account))
    = Some (dec "100.00") ∧
  places 2 ∧ 2 ≤ 2 ∧ finite_at 2 (dec "100.00") ∧
  amounts_at plain_decimal 2 ex_objects (kept ex_objects ex_account) ∧
  Z.abs (units 2 (dec "100.00"))
  + magnitude plain_decimal 2 ex_objects (kept ex_objects ex_account)
  < 10 ^ 28 ∧
  ∃ rows,
    category_report plain_decimal ex_objects ex_account None None = Ok rows ∧
    total (units 2 <$> rows.*2) = 2500.
Proof.
  assert (Z.abs (units 2 (dec "100.00"))
          + magnitude plain_decimal 2 ex_objects (kept ex_objects ex_account)
          < 10 ^ 28) as Hfit by (by vm_compute).
  split; [reflexivity|]. split; [exact ex_places|]. split; [lia|].
  split; [exact ex_finite_100|]. split; [exact ex_amounts_at|].
  split; [exact Hfit|].
  destruct (category_report_adds_up plain_decimal 2 ex_objects 5%nat
              ex_account None None (dec "100.00") eq_refl ex_places
              (Z.le_refl 2) ex_finite_100 ex_amounts_at Hfit)
    as (rows & L & reg & Hrows & _ & Htot & _).
  exists rows. split; [exact Hrows|]. rewrite Htot. reflexivity.
Defined.

(** The example of X19: from the last of three transactions the empty
    search goes round to the first. *)
Lemma find_next_empty_search_witness :
  0 ≤ idx ex_session < len (txns ex_session) ∧
  find_next ex_dumps 1 "" ex_session = Some (Ok (idx_set 0 ex_session)).
Proof.
  assert (0 ≤ idx ex_session < len (txns ex_session)) as Hi
    by (vm_compute; done).
  split; [exact Hi|].
  exact (proj1 (find_next_empty_search plain_decimal "2026-11-04" ex_dumps
                  ex_str 0 ex_session Hi)).
Defined.
